(** * Ad Verifier (ad_verifier_gemini.py): scrape-then-verify request flow

    A shallow embedding of the Streamlit script [ad_verifier_gemini.py]:
    the Extractor ([scrape_website]), the request handler run when the
    "Verify Script" button is pressed, model selection ([get_best_model]),
    prompt construction, reply normalisation and result display.

    Python strings are sequences of Unicode code points; they are modelled
    as lists of code points so that slicing, [strip], [splitlines] and
    [split] act on characters exactly as in Python. *)

From Stdlib Require Import List NArith ZArith Lia Bool String Ascii.
From Stdlib Require Import Numbers.DecimalString.
Import ListNotations.

Set Implicit Arguments.
Set Warnings "-register-all".

(** ** Python [str] *)

Module PyStr.

Definition char := N.
Definition str := list char.

(** A literal of the source, from its ASCII text. *)
Definition py (s : string) : str := map N_of_ascii (list_ascii_of_string s).

Definition LF : char := 10%N.
Definition CR : char := 13%N.
(** The double quote, for literals that contain one. *)
Definition DQ : str := [34%N].
Definition NL : str := [LF].

Definition str_eqb (a b : str) : bool :=
  if list_eq_dec N.eq_dec a b then true else false.

(** [bool(s)] for a string: non-empty. *)
Definition truthy (s : str) : bool :=
  match s with [] => false | _ :: _ => true end.

(** [s.startswith(prefix)] *)
Fixpoint startswith (s prefix : str) {struct prefix} : bool :=
  match prefix with
  | [] => true
  | p :: prefix' =>
      match s with
      | [] => false
      | c :: s' => N.eqb c p && startswith s' prefix'
      end
  end.

(** [sub in s] *)
Fixpoint contains (sub s : str) : bool :=
  startswith s sub ||
  match s with
  | [] => false
  | _ :: s' => contains sub s'
  end.

(** [str.isspace] on one character: the code points CPython's
    [Py_UNICODE_ISSPACE] accepts. *)
Definition isspace (c : char) : bool :=
  ((9 <=? c) && (c <=? 13) || (28 <=? c) && (c <=? 32)
   || (c =? 133) || (c =? 160) || (c =? 5760)
   || (8192 <=? c) && (c <=? 8202)
   || (c =? 8232) || (c =? 8233) || (c =? 8239) || (c =? 8287)
   || (c =? 12288))%N.

(** The line boundaries of [str.splitlines]. *)
Definition is_linebreak (c : char) : bool :=
  ((10 <=? c) && (c <=? 13) || (28 <=? c) && (c <=? 30)
   || (c =? 133) || (c =? 8232) || (c =? 8233))%N.

Fixpoint lstrip (s : str) : str :=
  match s with
  | [] => []
  | c :: s' => if isspace c then lstrip s' else s
  end.

Definition rstrip (s : str) : str := rev (lstrip (rev s)).

(** [s.strip()] *)
Definition strip (s : str) : str := rstrip (lstrip s).

(** [s.splitlines()]: [cur] is the current line, reversed.  A carriage
    return followed by a line feed is one boundary; a final line without
    a terminator is kept only when it is not empty. *)
Fixpoint splitlines_go (s cur : str) : list str :=
  match s with
  | [] => match cur with [] => [] | _ :: _ => [rev cur] end
  | c :: s' =>
      if is_linebreak c then
        rev cur ::
        (if N.eqb c CR then
           match s' with
           | c' :: s'' =>
               if N.eqb c' LF then splitlines_go s'' [] else splitlines_go s' []
           | [] => splitlines_go s' []
           end
         else splitlines_go s' [])
      else splitlines_go s' (c :: cur)
  end.

Definition splitlines (s : str) : list str := splitlines_go s [].

(** [s.split(sep)] for a non-empty separator (the source only splits on
    the constants "```" and two spaces): scan left to right, cutting at
    every non-overlapping occurrence.  [skip] counts the characters of a
    separator just matched that are still to be passed over. *)
Fixpoint split_go (sep s : str) (skip : nat) (cur : str) : list str :=
  match s with
  | [] => [rev cur]
  | c :: s' =>
      match skip with
      | S k => split_go sep s' k cur
      | O =>
          if startswith s sep
          then rev cur :: split_go sep s' (List.length sep - 1) []
          else split_go sep s' 0 (c :: cur)
      end
  end.

Definition split (s sep : str) : list str := split_go sep s 0 [].

(** [sep.join(l)] *)
Fixpoint join (sep : str) (l : list str) : str :=
  match l with
  | [] => []
  | x :: l' =>
      match l' with
      | [] => x
      | _ :: _ => x ++ sep ++ join sep l'
      end
  end.

(** [s[:n]] and [s[n:]] for a non-negative [n]. *)
Definition slice_to (n : nat) (s : str) : str := firstn n s.
Definition slice_from (n : nat) (s : str) : str := skipn n s.

(** [str(n)] for a non-negative integer. *)
Definition str_of_N (n : N) : str :=
  py (NilZero.string_of_uint (N.to_uint n)).

End PyStr.
Import PyStr.

(** ** The parsed document (BeautifulSoup) *)

Module Soup.

(** A node of the parse tree.  [NavigableString] is text that [get_text]
    returns; [Comment] stands for the string kinds it skips (comments,
    doctypes, processing instructions); a [Tag] carries the identity of
    its Python object ([uid]), by which [extract] finds it. *)
Inductive node :=
| NavigableString (s : str)
| Comment (s : str)
| Tag (uid : nat) (name : str) (contents : list node).

(** The children of the [BeautifulSoup] object. *)
Definition document := list node.

Definition name_in (names : list str) (name : str) : bool :=
  existsb (str_eqb name) names.

(** [soup(names)], that is [soup.find_all(names)]: every tag below the
    root whose name is listed, in document order, nested matches
    included. *)
Fixpoint find_all_in (names : list str) (n : node) : list node :=
  match n with
  | Tag _ name contents =>
      (if name_in names name then [n] else [])
      ++ flat_map (find_all_in names) contents
  | _ => []
  end.

Definition find_all (names : list str) (doc : document) : list node :=
  flat_map (find_all_in names) doc.

Definition is_object (i : nat) (n : node) : bool :=
  match n with
  | Tag u _ _ => Nat.eqb u i
  | _ => false
  end.

(** The tree [n] once the object [i] has been unlinked from its parent. *)
Fixpoint detach (i : nat) (n : node) : node :=
  match n with
  | Tag u name contents =>
      Tag u name
        (flat_map (fun c => if is_object i c then [] else [detach i c])
           contents)
  | _ => n
  end.

(** [el.extract()] seen from the document: the element leaves the tree
    (nothing changes when it is no longer below the root). *)
Definition extract (el : node) (doc : document) : document :=
  match el with
  | Tag i _ _ =>
      flat_map (fun c => if is_object i c then [] else [detach i c]) doc
  | _ => doc
  end.

(** [soup.get_text()]: the text strings in document order, concatenated. *)
Fixpoint get_text_in (n : node) : str :=
  match n with
  | NavigableString s => s
  | Comment _ => []
  | Tag _ _ contents => flat_map get_text_in contents
  end.

Definition get_text (doc : document) : str := flat_map get_text_in doc.

End Soup.
Import Soup.

(** ** Values, exceptions and the outside world *)

(** The outcome of a call that may raise; an exception is kept as the
    text [str(e)] gives for it. *)
Inductive result (A : Type) :=
| Ok (a : A)
| Raise (e : str).
Arguments Raise {A} e.

(** What [json.loads] can return.  A float is kept as its lexeme. *)
Inductive value :=
| VNone
| VBool (b : bool)
| VInt (z : Z)
| VFloat (lexeme : str)
| VStr (s : str)
| VList (l : list value)
| VDict (d : list (str * value)).

(** [requests.Response] *)
Record Response := {
  status_code : N;
  reason : str;
  url : str;
  text : str
}.

(** An entry of [genai.list_models()]. *)
Record Model := {
  name : str;
  supported_generation_methods : list str
}.

(** The reply of [generate_content]; reading [.text] may itself raise. *)
Record GenerateContentResponse := {
  response_text : result str
}.

(** Everything the script receives from outside its own text: the replies
    of the network calls and the library and built-in functions whose
    definitions are not part of the repository.  [BeautifulSoup] is the
    constructor call with the parser "html.parser": it returns the tree
    it built, or raises when the parser rejects the markup. *)
Record env := {
  requests_get : str -> result Response;
  BeautifulSoup : str -> result document;
  list_models : str -> result (list Model);
  generate_content : str -> str -> str -> result GenerateContentResponse;
  json_loads : str -> result value;
  lower_non_ascii : str -> char -> str -> str;
  upper_non_ascii : char -> str;
  py_str : value -> str;
  str_of_list : list str -> str;
  float_truthy : str -> bool
}.

(** [s.upper()]: each character is replaced by its upper-case mapping;
    for an ASCII character that is the letter's capital or the character
    itself, for any other it is the mapping of the Unicode tables, which
    may be several characters long. *)
Definition upper (E : env) (s : str) : str :=
  flat_map
    (fun c =>
       if (c <? 128)%N then
         [if ((97 <=? c) && (c <=? 122))%N then (c - 32)%N else c]
       else upper_non_ascii E c)
    s.

(** [s.lower()]: as [upper], except that the mapping of a character
    outside ASCII may depend on what stands before and after it (the
    final sigma).  [before] is the text already passed, reversed. *)
Fixpoint lower_go (E : env) (before s : str) : str :=
  match s with
  | [] => []
  | c :: after =>
      (if (c <? 128)%N then
         [if ((65 <=? c) && (c <=? 90))%N then (c + 32)%N else c]
       else lower_non_ascii E (rev before) c after)
      ++ lower_go E (c :: before) after
  end.

Definition lower (E : env) (s : str) : str := lower_go E [] s.

(** Calls that leave the process, and Streamlit output. *)
Inductive event :=
| HttpGet (u : str)
| GenaiConfigure (api_key : str)
| ListModels
| GenerateContent (model_name prompt : str)
| StSpinner (s : str)
| StError (s : str)
| StInfo (s : str)
| StSuccess (s : str)
| StMarkdown (s : str)
| StMetric (label : str) (v : value)
| StWrite (v : value)
| StCode (s : str).

(** The module-level variable the [except] clause looks up in
    [locals()]. *)
Record locals := {
  response : option GenerateContentResponse
}.

(** ** A monad for the script: module variables, output, exceptions *)

Module Script.

Definition M (A : Type) : Type := locals -> locals * list event * result A.

Definition ret {A} (a : A) : M A := fun st => (st, [], Ok a).

Definition bind {A B} (m : M A) (f : A -> M B) : M B :=
  fun st =>
    match m st with
    | (st1, t1, Ok a) =>
        match f a st1 with
        | (st2, t2, r) => (st2, t1 ++ t2, r)
        end
    | (st1, t1, Raise e) => (st1, t1, Raise e)
    end.

Definition lift {A} (r : result A) : M A := fun st => (st, [], r).

Definition emit (ev : event) : M unit := fun st => (st, [ev], Ok tt).

Definition assign_response (r : GenerateContentResponse) : M unit :=
  fun _ => ({| response := Some r |}, [], Ok tt).

Definition lookup_response : M (option GenerateContentResponse) :=
  fun st => (st, [], Ok (response st)).

(** [try: m except Exception as e: h e] *)
Definition try_except {A} (m : M A) (h : str -> M A) : M A :=
  fun st =>
    match m st with
    | (st1, t1, Ok a) => (st1, t1, Ok a)
    | (st1, t1, Raise e) =>
        match h e st1 with
        | (st2, t2, r) => (st2, t1 ++ t2, r)
        end
    end.

(** [for x in l: body x] *)
Fixpoint for_each {A} (l : list A) (body : A -> M unit) : M unit :=
  match l with
  | [] => ret tt
  | x :: l' => bind (body x) (fun _ => for_each l' body)
  end.

End Script.
Import Script.

Declare Scope script_scope.
Delimit Scope script_scope with script.
Bind Scope script_scope with M.
Notation "x <- m ;; k" := (bind m (fun x => k))
  (at level 61, m at next level, right associativity) : script_scope.
Notation "m ;;; k" := (bind m (fun _ => k))
  (at level 61, right associativity) : script_scope.
Open Scope script_scope.

(** ** The Extractor *)

(** [Response.raise_for_status()] of the requests library: the message
    is set for the 4xx and 5xx statuses only, and an [HTTPError] carrying
    it is raised when it is set. *)
Definition http_error_msg (r : Response) : str :=
  if ((400 <=? status_code r) && (status_code r <? 500))%N then
    str_of_N (status_code r) ++ py " Client Error: " ++ reason r
    ++ py " for url: " ++ url r
  else if ((500 <=? status_code r) && (status_code r <? 600))%N then
    str_of_N (status_code r) ++ py " Server Error: " ++ reason r
    ++ py " for url: " ++ url r
  else [].

Definition raise_for_status (r : Response) : result unit :=
  if truthy (http_error_msg r) then Raise (http_error_msg r) else Ok tt.

(** [for script in soup(["script", "style"]): script.extract()] *)
Definition remove_script_style (soup : document) : document :=
  fold_left (fun doc script => extract script doc)
    (find_all [py "script"; py "style"] soup) soup.

(** Lines 57 to 62: strip every line, split it on two spaces, strip the
    phrases, drop the empty ones and join with line feeds. *)
Definition chunks_of (text : str) : list str :=
  let lines := map strip (splitlines text) in
  flat_map (fun line => map strip (split line (py "  "))) lines.

Definition rejoin (text : str) : str :=
  join NL (filter truthy (chunks_of text)).

(** Lines 42 to 66.  Everything from the request to the final join
    stands inside the [try]: the request, the status check and the
    parser can raise, and each exception becomes the returned error
    string.  On a tree the parser has built, [extract] and [get_text]
    walk the tree and raise nothing. *)
Definition scrape_website (E : env) (url : str) : M str :=
  try_except
    (emit (HttpGet url) ;;;
     response <- lift (requests_get E url) ;;
     lift (raise_for_status response) ;;;
     soup <- lift (BeautifulSoup E (text response)) ;;
     let soup := remove_script_style soup in
     let text := get_text soup in
     let text := rejoin text in
     ret text)
    (fun e => ret (py "ERROR: " ++ e)).

(** ** The Verifier *)

(** The second component [get_best_model] returns: a message, or the
    names of the models that support generation. *)
Inductive debug :=
| DebugMsg (s : str)
| DebugNames (l : list str).

Definition supports_generateContent (m : Model) : bool :=
  existsb (str_eqb (py "generateContent")) (supported_generation_methods m).

Definition get_best_model (E : env) (api_key : str) : M (option str * debug) :=
  try_except
    (emit ListModels ;;;
     models <- lift (list_models E api_key) ;;
     let valid_models := filter supports_generateContent models in
     match valid_models with
     | [] =>
         ret (None, DebugMsg (py "No models found that support generateContent."))
     | first :: _ =>
         match find (fun m => contains (py "flash") (lower E (name m)))
                 valid_models with
         | Some flash_model =>
             ret (Some (name flash_model), DebugNames (map name valid_models))
         | None =>
             match find (fun m => contains (py "pro") (lower E (name m)))
                     valid_models with
             | Some pro_model =>
                 ret (Some (name pro_model), DebugNames (map name valid_models))
             | None =>
                 ret (Some (name first), DebugNames (map name valid_models))
             end
         end
     end)
    (fun e => ret (None, DebugMsg (py "Error listing models: " ++ e))).

(** Twenty-four spaces: the indentation of the template's lines. *)
Definition IND : str := py "                        ".

Definition PROMPT_HEAD : str :=
  List.concat
    [ NL;
      IND ++ py "You are a strict compliance and quality control officer for advertising." ++ NL;
      IND ++ NL;
      IND ++ py "Your task is to verify an 'Ad Script' against the ground truth text from a 'Source Website'." ++ NL;
      IND ++ NL;
      IND ++ py "Step 1: Analyize the 'Source Website Text' to understand the facts, features, and tone." ++ NL;
      IND ++ py "Step 2: Check the 'Ad Script' for any factual hallucinations (claims not supported by the website)." ++ NL;
      IND ++ py "Step 3: Analyze if the tone of the ad matches the website's voice." ++ NL;
      IND ++ py "Step 4: Assign a quality score from 0-100." ++ NL;
      IND ++ NL;
      IND ++ py "Return a valid JSON object ONLY. Do not use Markdown code blocks." ++ NL;
      IND ++ py "Structure:" ++ NL;
      IND ++ py "{" ++ NL;
      IND ++ py "    " ++ DQ ++ py "score" ++ DQ ++ py ": (integer 0-100)," ++ NL;
      IND ++ py "    " ++ DQ ++ py "hallucinations" ++ DQ ++ py ": [" ++ DQ ++ py "string list of specific claims in the ad that exist nowhere on the site" ++ DQ ++ py "]," ++ NL;
      IND ++ py "    " ++ DQ ++ py "tone_consistency" ++ DQ ++ py ": " ++ DQ ++ py "Brief analysis of whether the ad voice matches the site voice" ++ DQ ++ py "," ++ NL;
      IND ++ py "    " ++ DQ ++ py "verdict" ++ DQ ++ py ": " ++ DQ ++ py "PASS" ++ DQ ++ py " (if score > 80 and no major hallucinations) or " ++ DQ ++ py "FAIL" ++ DQ ++ NL;
      IND ++ py "}" ++ NL;
      IND ++ NL;
      IND ++ py "---" ++ NL;
      IND ++ py "Source Website Text:" ++ NL;
      IND ].

Definition PROMPT_MID : str :=
  List.concat
    [ py " " ++ NL;
      IND ++ NL;
      IND ++ py "---" ++ NL;
      IND ++ py "Ad Script:" ++ NL;
      IND ].

Definition PROMPT_TAIL : str :=
  List.concat
    [ NL;
      IND ].

(** The bound of [site_text[:30000]]. *)
Definition SITE_TEXT_LIMIT : nat := N.to_nat 30000.

(** The f-string of lines 119 to 145. *)
Definition build_prompt (site_text ad_script : str) : str :=
  PROMPT_HEAD ++ slice_to SITE_TEXT_LIMIT site_text
  ++ PROMPT_MID ++ ad_script ++ PROMPT_TAIL.

(** Lines 151 to 158: the text handed to [json.loads]. *)
Definition clean_response (reply : str) : str :=
  let text_resp := strip reply in
  let text_resp :=
    if startswith text_resp (py "```") then
      let parts := split text_resp (py "```") in
      if 2 <=? List.length parts then
        let text_resp := nth 1 parts [] in
        if startswith text_resp (py "json")
        then slice_from 4 text_resp
        else text_resp
      else text_resp
    else text_resp in
  strip text_resp.

Definition type_name (v : value) : str :=
  match v with
  | VNone => py "NoneType"
  | VBool _ => py "bool"
  | VInt _ => py "int"
  | VFloat _ => py "float"
  | VStr _ => py "str"
  | VList _ => py "list"
  | VDict _ => py "dict"
  end.

Definition no_attribute (v : value) (attr : str) : str :=
  py "'" ++ type_name v ++ py "' object has no attribute '" ++ attr ++ py "'".

Fixpoint lookup (key : str) (d : list (str * value)) : option value :=
  match d with
  | [] => None
  | (k, v) :: d' => if str_eqb k key then Some v else lookup key d'
  end.

(** [obj.get(key, default)] *)
Definition py_get (obj : value) (key : str) (default : value) : result value :=
  match obj with
  | VDict d =>
      Ok (match lookup key d with Some v => v | None => default end)
  | _ => Raise (no_attribute obj (py "get"))
  end.

(** [obj.upper()] *)
Definition py_upper (E : env) (obj : value) : result str :=
  match obj with
  | VStr s => Ok (upper E s)
  | _ => Raise (no_attribute obj (py "upper"))
  end.

(** [bool(v)] *)
Definition value_truthy (E : env) (v : value) : bool :=
  match v with
  | VNone => false
  | VBool b => b
  | VInt z => negb (Z.eqb z 0)
  | VFloat l => float_truthy E l
  | VStr s => truthy s
  | VList l => match l with [] => false | _ :: _ => true end
  | VDict d => match d with [] => false | _ :: _ => true end
  end.

(** [iter(v)], run to the end. *)
Definition py_iter (v : value) : result (list value) :=
  match v with
  | VList l => Ok l
  | VStr s => Ok (map (fun c => VStr [c]) s)
  | VDict d => Ok (map (fun kv => VStr (fst kv)) d)
  | _ => Raise (py "'" ++ type_name v ++ py "' object is not iterable")
  end.

Definition HALLUCINATIONS_HEADER : str :=
  py "### " ++ [9888%N; 65039%N] ++ py " Potential Hallucinations Detected".

(** [st.metric(label, value)]: Streamlit takes an int, a float, a str
    or None for the value and raises for a value of another type. *)
Definition st_metric (E : env) (label : str) (v : value) : M unit :=
  match v with
  | VList _ | VDict _ =>
      lift (Raise (py "'" ++ py_str E v ++ py "' is of type <class '"
                   ++ type_name v
                   ++ py "'>, which is not an accepted type. value only accepts: int, float, str, or None. Please convert the value to an accepted type."))
  | _ => emit (StMetric label v)
  end.

(** Lines 165 to 185: the results display. *)
Definition display (E : env) (result : value) : M unit :=
  score <- lift (py_get result (py "score") (VInt 0)) ;;
  st_metric E (py "Quality Score") score ;;;
  v <- lift (py_get result (py "verdict") (VStr (py "FAIL"))) ;;
  verdict <- lift (py_upper E v) ;;
  (if str_eqb verdict (py "PASS")
   then emit (StSuccess (py "Verdict: " ++ verdict))
   else emit (StError (py "Verdict: " ++ verdict))) ;;;
  emit (StMarkdown (py "### Tone Analysis")) ;;;
  tone <- lift (py_get result (py "tone_consistency") (VStr (py "N/A"))) ;;
  emit (StWrite tone) ;;;
  hallucinations <- lift (py_get result (py "hallucinations") (VList [])) ;;
  if value_truthy E hallucinations then
    emit (StError HALLUCINATIONS_HEADER) ;;;
    items <- lift (py_iter hallucinations) ;;
    for_each items (fun h => emit (StWrite (VStr (py "- " ++ py_str E h))))
  else if str_eqb verdict (py "PASS") then
    emit (StSuccess (py "No factual hallucinations detected."))
  else ret tt.

Definition str_of_debug (E : env) (d : debug) : str :=
  match d with
  | DebugMsg s => s
  | DebugNames l => str_of_list E l
  end.

(** Lines 83 to 191: the [try] block run once the page was scraped. *)
Definition analyze (E : env) (gemini_key site_text ad_script : str) : M unit :=
  try_except
    (emit (GenaiConfigure gemini_key) ;;;
     best <- get_best_model E gemini_key ;;
     match best with
     | (Some ((_ :: _) as model_name), _) =>
         emit (StInfo (py "Using model: **" ++ model_name ++ py "**")) ;;;
         let prompt := build_prompt site_text ad_script in
         emit (GenerateContent model_name prompt) ;;;
         reply <- lift (generate_content E gemini_key model_name prompt) ;;
         assign_response reply ;;;
         raw <- lift (response_text reply) ;;
         let text_resp := clean_response raw in
         result <- lift (json_loads E text_resp) ;;
         display E result
     | (_, debug_info) =>
         emit (StError (py "Could not find a valid model. Debug info: "
                        ++ str_of_debug E debug_info))
     end)
    (fun e =>
       emit (StError (py "Analysis failed: " ++ e)) ;;;
       emit (StWrite (VStr (py "Raw response (for debugging):"))) ;;;
       bound <- lookup_response ;;
       match bound with
       | Some reply =>
           raw <- lift (response_text reply) ;;
           emit (StCode raw)
       | None => ret tt
       end).

(** Lines 68 to 191: what runs when the button is pressed. *)
Definition verify_btn_handler (E : env) (gemini_key target_url ad_script : str)
  : M unit :=
  if negb (truthy gemini_key) then
    emit (StError (py "Please enter your Google Gemini API Key."))
  else if negb (truthy target_url) then
    emit (StError (py "Please enter a Target URL."))
  else if negb (truthy ad_script) then
    emit (StError (py "Please enter the Ad Script."))
  else
    emit (StSpinner (py "Scraping website...")) ;;;
    site_text <- scrape_website E target_url ;;
    if startswith site_text (py "ERROR:") then
      emit (StError (py "Failed to scrape website: " ++ site_text))
    else
      emit (StSpinner (py "Analyzing with Gemini 2.5 Flash...")) ;;;
      analyze E gemini_key site_text ad_script.

(** A request starts with no [response] variable bound. *)
Definition init : locals := {| response := None |}.

Definition run {A} (m : M A) : locals * list event * result A := m init.

Definition trace {A} (m : M A) : list event := snd (fst (run m)).
Definition outcome {A} (m : M A) : result A := snd (run m).

(** ** Reading a trace *)

Definition is_network_fetch (ev : event) : bool :=
  match ev with
  | HttpGet _ => true
  | _ => false
  end.

(** The steps of the Verifier that leave the process: configuring the
    provider, listing its models, and the generation call, which carries
    the constructed prompt. *)
Definition is_verifier_step (ev : event) : bool :=
  match ev with
  | GenaiConfigure _ | ListModels | GenerateContent _ _ => true
  | _ => false
  end.

(** Every event of [m] satisfies [Q], from whatever state it starts. *)
Definition emits {A} (Q : event -> Prop) (m : M A) : Prop :=
  forall st, Forall Q (snd (fst (m st))).

(** A generation call, if [ev] is one, carries the prompt [p]. *)
Definition prompt_is (p : str) (ev : event) : Prop :=
  match ev with
  | GenerateContent _ prompt => prompt = p
  | _ => True
  end.

(** [m] is the first element of [l] that satisfies [P]. *)
Definition first_such {A} (P : A -> bool) (l : list A) (m : A) : Prop :=
  exists pre post,
    l = pre ++ m :: post /\ P m = true /\ forall x, In x pre -> P x = false.

Definition none_such {A} (P : A -> bool) (l : list A) : Prop :=
  forall x, In x l -> P x = false.

(** The text a successful run of [scrape_website] returns when the
    parser built the tree [soup] (lines 52 to 64). *)
Definition page_text (soup : document) : str :=
  rejoin (get_text (remove_script_style soup)).

(** The string [scrape_website] returns, by the cases of its [try]: the
    request, the status check and the parser may each raise. *)
Definition scraped (E : env) (url : str) : str :=
  match requests_get E url with
  | Raise e => py "ERROR: " ++ e
  | Ok r =>
      match raise_for_status r with
      | Raise e => py "ERROR: " ++ e
      | Ok _ =>
          match BeautifulSoup E (text r) with
          | Raise e => py "ERROR: " ++ e
          | Ok soup => page_text soup
          end
      end
  end.

(** A line that is empty or made of whitespace only. *)
Definition blank (line : str) : bool := forallb isspace line.

Definition no_linebreak (s : str) : Prop :=
  forall c, In c s -> is_linebreak c = false.

(** *** The visible text of a document, said directly

    The strings that lie outside every script and style element, in
    document order: what the text of the page is when the contents of
    those elements are left out. *)

Definition hidden (name : str) : bool :=
  name_in [py "script"; py "style"] name.

Fixpoint visible_in (n : node) : str :=
  match n with
  | NavigableString s => s
  | Comment _ => []
  | Tag _ name contents =>
      if hidden name then [] else flat_map visible_in contents
  end.

Definition visible_text (doc : document) : str := flat_map visible_in doc.

(** Two trees that differ at most inside their script and style
    elements (and in the identities of their objects). *)
Inductive same_outside : node -> node -> Prop :=
| same_string (s : str) :
    same_outside (NavigableString s) (NavigableString s)
| same_comment (s : str) :
    same_outside (Comment s) (Comment s)
| same_block (u u' : nat) (name : str) (contents contents' : list node) :
    hidden name = true ->
    same_outside (Tag u name contents) (Tag u' name contents')
| same_tag (u u' : nat) (name : str) (contents contents' : list node) :
    Forall2 same_outside contents contents' ->
    same_outside (Tag u name contents) (Tag u' name contents').

(** The tags of a document, each with the identity of its object. *)
Fixpoint tags_in (n : node) : list (nat * str) :=
  match n with
  | Tag u name contents => (u, name) :: flat_map tags_in contents
  | _ => []
  end.

Definition tags (doc : document) : list (nat * str) := flat_map tags_in doc.

(** Distinct tags are distinct objects. *)
Definition distinct_objects (doc : document) : Prop :=
  NoDup (map fst (tags doc)).

(** The document without the objects listed in [ids]. *)
Definition listed (ids : list nat) (n : node) : bool :=
  match n with
  | Tag u _ _ => existsb (Nat.eqb u) ids
  | _ => false
  end.

Fixpoint prune_in (ids : list nat) (n : node) : node :=
  match n with
  | Tag u name contents =>
      Tag u name
        (flat_map (fun c => if listed ids c then [] else [prune_in ids c])
           contents)
  | _ => n
  end.

Definition prune (ids : list nat) (doc : document) : document :=
  flat_map (fun c => if listed ids c then [] else [prune_in ids c]) doc.

Definition uids_of (els : list node) : list nat :=
  flat_map (fun el => match el with Tag u _ _ => [u] | _ => [] end) els.

(** *** The reply object and its defaults *)







(** *** Fenced replies *)

Definition FENCE : str := py "```".
Definition BACKQUOTE : char := 96%N.

(** The reply that wraps [payload] in a fenced block labelled "json",
    with [w1] and [w2] around the payload. *)
Definition fenced (w1 payload w2 : str) : str :=
  FENCE ++ py "json" ++ w1 ++ payload ++ w2 ++ FENCE.

(** Lines 151 to 160: normalise the reply, then parse it. *)
Definition parse_reply (E : env) (reply : str) : result value :=
  json_loads E (clean_response reply).

(** *** Readings of a text and of a run *)

(** The characters of a text that are not whitespace, in order. *)
Definition ink (s : str) : str := filter (fun c => negb (isspace c)) s.

(** [m] leaves the module's variables as they are, and what it writes
    and returns does not depend on them. *)
Definition stateless {A} (m : M A) : Prop :=
  forall st, m st = (st, trace m, outcome m).

(** The events that leave the process: the fetch and the Verifier's
    calls. *)
Definition is_external_call (ev : event) : bool :=
  is_network_fetch ev || is_verifier_step ev.

Definition calls (t : list event) : list event := filter is_external_call t.

(** The events of a request up to and including its generation call. *)
Definition request_started (gemini_key target_url model_name prompt : str)
  : list event :=
  [StSpinner (py "Scraping website..."); HttpGet target_url;
   StSpinner (py "Analyzing with Gemini 2.5 Flash...");
   GenaiConfigure gemini_key; ListModels;
   StInfo (py "Using model: **" ++ model_name ++ py "**");
   GenerateContent model_name prompt].

(** What the [except] clause of the handler writes before the raw
    reply. *)
Definition failure_report (e : str) : list event :=
  [StError (py "Analysis failed: " ++ e);
   StWrite (VStr (py "Raw response (for debugging):"))].

(** ** [json.loads]

    The decoder of CPython's [json] module with its default settings:
    the grammar it accepts, the values it builds and the text of the
    [JSONDecodeError] it raises.  A float is kept as its lexeme; the
    interpreter's limits (recursion depth, digits of an integer) are not
    modelled. *)

Module Json.

(** The result of scanning at [idx]: a value with what follows it, or
    the message and position of a [JSONDecodeError]. *)
Inductive scan (A : Type) :=
| Parsed (a : A) (rest : str) (idx : nat)
| Failed (msg : str) (pos : nat).
Arguments Failed {A} msg pos.

Definition is_ws (c : char) : bool :=
  ((c =? 32) || (c =? 9) || (c =? 10) || (c =? 13))%N.

Definition is_digit (c : char) : bool := ((48 <=? c) && (c <=? 57))%N.

Fixpoint skip_ws (s : str) (idx : nat) : str * nat :=
  match s with
  | c :: s' => if is_ws c then skip_ws s' (S idx) else (s, idx)
  | [] => (s, idx)
  end.

Fixpoint take_digits (s : str) : str * str :=
  match s with
  | c :: s' =>
      if is_digit c
      then let (ds, rest) := take_digits s' in (c :: ds, rest)
      else ([], s)
  | [] => ([], [])
  end.

Definition hex_digit (c : char) : option N :=
  if is_digit c then Some (c - 48)%N
  else if ((97 <=? c) && (c <=? 102))%N then Some (c - 87)%N
  else if ((65 <=? c) && (c <=? 70))%N then Some (c - 55)%N
  else None.

Definition hex4 (a b c d : char) : option N :=
  match hex_digit a, hex_digit b, hex_digit c, hex_digit d with
  | Some x, Some y, Some z, Some w => Some (((x * 16 + y) * 16 + z) * 16 + w)%N
  | _, _, _, _ => None
  end.

(** The character a backslash escape other than [\u] stands for. *)
Definition unescape (c : char) : option char :=
  if (c =? 34)%N then Some 34%N
  else if (c =? 92)%N then Some 92%N
  else if (c =? 47)%N then Some 47%N
  else if (c =? 98)%N then Some 8%N
  else if (c =? 102)%N then Some 12%N
  else if (c =? 110)%N then Some 10%N
  else if (c =? 114)%N then Some 13%N
  else if (c =? 116)%N then Some 9%N
  else None.

Definition UNTERMINATED : str := py "Unterminated string starting at".
Definition BAD_UXXXX : str := py "Invalid \uXXXX escape".

(** [scanstring]: [s] starts after the opening quote, which stands at
    [begin]; [acc] holds the characters read so far, reversed. *)
Fixpoint scanstring (s : str) (idx begin : nat) (acc : str) : scan str :=
  match s with
  | [] => Failed UNTERMINATED begin
  | c :: s1 =>
      if (c =? 34)%N then Parsed (rev acc) s1 (S idx)
      else if (c =? 92)%N then
        match s1 with
        | [] => Failed UNTERMINATED begin
        | e :: s2 =>
            if (e =? 117)%N then
              match s2 with
              | h1 :: h2 :: h3 :: h4 :: ((_ :: _) as s6) =>
                  match hex4 h1 h2 h3 h4 with
                  | None => Failed BAD_UXXXX (S idx)
                  | Some u =>
                      let single := scanstring s6 (idx + 6) begin (u :: acc) in
                      if ((55296 <=? u) && (u <=? 56319))%N then
                        match s6 with
                        | b :: s7 =>
                            if (b =? 92)%N then
                              match s7 with
                              | v :: g1 :: g2 :: g3 :: g4 :: ((_ :: _) as s12) =>
                                  if (v =? 117)%N then
                                    match hex4 g1 g2 g3 g4 with
                                    | None => Failed BAD_UXXXX (idx + 7)
                                    | Some u2 =>
                                        if ((56320 <=? u2) && (u2 <=? 57343))%N
                                        then
                                          scanstring s12 (idx + 12) begin
                                            ((65536 + (u - 55296) * 1024
                                              + (u2 - 56320))%N :: acc)
                                        else single
                                    end
                                  else single
                              | _ => single
                              end
                            else single
                        | [] => single
                        end
                      else single
                  end
              | _ => Failed BAD_UXXXX (S idx)
              end
            else
              match unescape e with
              | Some ch => scanstring s2 (idx + 2) begin (ch :: acc)
              | None => Failed (py "Invalid \escape") idx
              end
        end
      else if (c <=? 31)%N then Failed (py "Invalid control character at") idx
      else scanstring s1 (S idx) begin (c :: acc)
  end.

Definition Z_of_digits (ds : str) : Z :=
  fold_left (fun acc c => (acc * 10 + Z.of_N (c - 48))%Z) ds 0%Z.

(** The parts of a number, each with what follows it: a minus sign; an
    integer part, a zero or digits that do not start with a zero; a
    fraction, a point and digits; an exponent, [e] or [E], a sign and
    digits. *)
Definition sign_part (s : str) : str * str :=
  match s with
  | c :: s' => if (c =? 45)%N then ([c], s') else ([], s)
  | [] => ([], s)
  end.

Definition int_part (s : str) : option (str * str) :=
  match s with
  | c :: s' =>
      if (c =? 48)%N then Some ([c], s')
      else if is_digit c
           then let (ds, rest) := take_digits s' in Some (c :: ds, rest)
           else None
  | [] => None
  end.

Definition frac_part (s : str) : str * str :=
  match s with
  | dot :: d :: s' =>
      if (dot =? 46)%N && is_digit d
      then let (fs, rest) := take_digits s' in (dot :: d :: fs, rest)
      else ([], s)
  | _ => ([], s)
  end.

Definition exp_part (s : str) : str * str :=
  match s with
  | e :: s' =>
      if (e =? 101)%N || (e =? 69)%N then
        let (esign, s'') :=
          match s' with
          | g :: t => if (g =? 45)%N || (g =? 43)%N then ([g], t) else ([], s')
          | [] => ([], s')
          end in
        match take_digits s'' with
        | ([], _) => ([], s)
        | (es, rest) => (e :: esign ++ es, rest)
        end
      else ([], s)
  | [] => ([], s)
  end.

(** The longest number at the start of [s], if there is one: an [int]
    when it has neither fraction nor exponent, a [float] otherwise. *)
Definition match_number (s : str) (idx : nat) : option (value * str * nat) :=
  let (sign, s1) := sign_part s in
  match int_part s1 with
  | None => None
  | Some (ds, s2) =>
      let (frac, s3) := frac_part s2 in
      let (exp, s4) := exp_part s3 in
      let lexeme := sign ++ ds ++ frac ++ exp in
      let v :=
        match frac, exp with
        | [], [] =>
            VInt (match sign with
                  | [] => Z_of_digits ds
                  | _ :: _ => - Z_of_digits ds
                  end)
        | _, _ => VFloat lexeme
        end in
      Some (v, s4, idx + List.length lexeme)
  end.

(** [d[key] = v] *)
Fixpoint dict_set (key : str) (v : value) (d : list (str * value))
  : list (str * value) :=
  match d with
  | [] => [(key, v)]
  | (k, x) :: d' =>
      if str_eqb k key then (k, v) :: d' else (k, x) :: dict_set key v d'
  end.

Definition EXPECTING_VALUE : str := py "Expecting value".

(** [scan_once], with the loops over the members of an object and the
    elements of an array.  The recursion is on [fuel]; [None] says that
    it ran out, which [loads] never lets happen: every call consumes a
    character before it calls again. *)
Fixpoint scan_once (fuel : nat) (s : str) (idx : nat) : option (scan value) :=
  match fuel with
  | O => None
  | S fuel' =>
      match s with
      | [] => Some (Failed EXPECTING_VALUE idx)
      | c :: s' =>
          if (c =? 34)%N then
            match scanstring s' (S idx) idx [] with
            | Parsed x rest i => Some (Parsed (VStr x) rest i)
            | Failed msg pos => Some (Failed msg pos)
            end
          else if (c =? 123)%N then
            let (s1, i1) := skip_ws s' (S idx) in
            match s1 with
            | c1 :: s2 =>
                if (c1 =? 125)%N then Some (Parsed (VDict []) s2 (S i1))
                else members fuel' s1 i1 []
            | [] => members fuel' s1 i1 []
            end
          else if (c =? 91)%N then
            let (s1, i1) := skip_ws s' (S idx) in
            match s1 with
            | c1 :: s2 =>
                if (c1 =? 93)%N then Some (Parsed (VList []) s2 (S i1))
                else elements fuel' s1 i1 []
            | [] => elements fuel' s1 i1 []
            end
          else if startswith s (py "null") then
            Some (Parsed VNone (skipn 4 s) (idx + 4))
          else if startswith s (py "true") then
            Some (Parsed (VBool true) (skipn 4 s) (idx + 4))
          else if startswith s (py "false") then
            Some (Parsed (VBool false) (skipn 5 s) (idx + 5))
          else if startswith s (py "NaN") then
            Some (Parsed (VFloat (py "NaN")) (skipn 3 s) (idx + 3))
          else if startswith s (py "Infinity") then
            Some (Parsed (VFloat (py "Infinity")) (skipn 8 s) (idx + 8))
          else if startswith s (py "-Infinity") then
            Some (Parsed (VFloat (py "-Infinity")) (skipn 9 s) (idx + 9))
          else
            match match_number s idx with
            | Some (v, rest, i) => Some (Parsed v rest i)
            | None => Some (Failed EXPECTING_VALUE idx)
            end
      end
  end

with members (fuel : nat) (s : str) (idx : nat) (acc : list (str * value))
  : option (scan value) :=
  match fuel with
  | O => None
  | S fuel' =>
      match s with
      | c :: s' =>
          if (c =? 34)%N then
            match scanstring s' (S idx) idx [] with
            | Failed msg pos => Some (Failed msg pos)
            | Parsed key rest i =>
                let (s1, i1) := skip_ws rest i in
                match s1 with
                | colon :: s2 =>
                    if (colon =? 58)%N then
                      let (s3, i3) := skip_ws s2 (S i1) in
                      match scan_once fuel' s3 i3 with
                      | None => None
                      | Some (Failed msg pos) => Some (Failed msg pos)
                      | Some (Parsed v rest' i') =>
                          let acc' := dict_set key v acc in
                          let (s4, i4) := skip_ws rest' i' in
                          match s4 with
                          | d :: s5 =>
                              if (d =? 125)%N then
                                Some (Parsed (VDict acc') s5 (S i4))
                              else if (d =? 44)%N then
                                let (s6, i6) := skip_ws s5 (S i4) in
                                members fuel' s6 i6 acc'
                              else
                                Some (Failed (py "Expecting ',' delimiter") i4)
                          | [] =>
                              Some (Failed (py "Expecting ',' delimiter") i4)
                          end
                      end
                    else Some (Failed (py "Expecting ':' delimiter") i1)
                | [] => Some (Failed (py "Expecting ':' delimiter") i1)
                end
            end
          else
            Some (Failed
                    (py "Expecting property name enclosed in double quotes")
                    idx)
      | [] =>
          Some (Failed
                  (py "Expecting property name enclosed in double quotes") idx)
      end
  end

with elements (fuel : nat) (s : str) (idx : nat) (acc : list value)
  : option (scan value) :=
  match fuel with
  | O => None
  | S fuel' =>
      match scan_once fuel' s idx with
      | None => None
      | Some (Failed msg pos) => Some (Failed msg pos)
      | Some (Parsed v rest i) =>
          let (s1, i1) := skip_ws rest i in
          match s1 with
          | d :: s2 =>
              if (d =? 93)%N then
                Some (Parsed (VList (rev (v :: acc))) s2 (S i1))
              else if (d =? 44)%N then
                let (s3, i3) := skip_ws s2 (S i1) in
                elements fuel' s3 i3 (v :: acc)
              else Some (Failed (py "Expecting ',' delimiter") i1)
          | [] => Some (Failed (py "Expecting ',' delimiter") i1)
          end
      end
  end.

Definition str_of_nat (n : nat) : str := str_of_N (N.of_nat n).

(** One more than the number of characters after the last line feed. *)
Fixpoint column (l : str) (n : nat) : nat :=
  match l with
  | [] => n
  | c :: l' => if N.eqb c LF then column l' 1 else column l' (S n)
  end.

(** The text of a [JSONDecodeError]: the message, then the line, the
    column and the index of the position in the document. *)
Definition errmsg (msg doc : str) (pos : nat) : str :=
  let before := firstn pos doc in
  let lineno := S (List.length (filter (N.eqb LF) before)) in
  let colno := column before 1 in
  msg ++ py ": line " ++ str_of_nat lineno ++ py " column "
  ++ str_of_nat colno ++ py " (char " ++ str_of_nat pos ++ py ")".

(** [json.loads(s)] for a [str]. *)
Definition loads (s : str) : result value :=
  if startswith s [65279%N] then
    Raise (errmsg (py "Unexpected UTF-8 BOM (decode using utf-8-sig)") s 0)
  else
    let (s1, i1) := skip_ws s 0 in
    match scan_once (2 * List.length s + 2) s1 i1 with
    | None => Raise (py "maximum recursion depth exceeded")
    | Some (Failed msg pos) => Raise (errmsg msg s pos)
    | Some (Parsed v rest i) =>
        let (rest', i') := skip_ws rest i in
        match rest' with
        | [] => Ok v
        | _ :: _ => Raise (errmsg (py "Extra data") s i')
        end
    end.

(** What a scan consumes: the rest is shorter than the text. *)
Definition consumes (s : str) (r : option (scan value)) : Prop :=
  match r with
  | Some (Parsed _ rest _) => List.length rest < List.length s
  | _ => True
  end.

End Json.

(** ** Sample worlds, for evaluating the script *)

Module Sample.

(** [str()] on the values the sample replies contain: strings, numbers
    and constants (a list or an object is only hinted at). *)
Definition str_of_value (v : value) : str :=
  match v with
  | VStr s => s
  | VNone => py "None"
  | VBool true => py "True"
  | VBool false => py "False"
  | VInt z =>
      (if (z <? 0)%Z then py "-" else []) ++ str_of_N (Z.abs_N z)
  | VFloat l => l
  | VList _ => py "[...]"
  | VDict _ => py "{...}"
  end.

(** [str()] of a list of plain names. *)
Definition str_of_names (l : list str) : str :=
  py "[" ++ join (py ", ") (map (fun n => py "'" ++ n ++ py "'") l) ++ py "]".

Definition nonzero_digit (c : char) : bool := ((49 <=? c) && (c <=? 57))%N.

Definition world
  (page : result Response) (parsed : document)
  (catalog : result (list Model))
  (reply : result GenerateContentResponse) : env :=
  {| requests_get := fun _ => page;
     BeautifulSoup := fun _ => Ok parsed;
     list_models := fun _ => catalog;
     generate_content := fun _ _ _ => reply;
     json_loads := Json.loads;
     lower_non_ascii := fun _ c _ => [c];
     upper_non_ascii := fun c => [c];
     py_str := str_of_value;
     str_of_list := str_of_names;
     float_truthy := existsb nonzero_digit |}.

Definition shop_url : str := py "https://shop.example/coffee".

Definition page_200 : Response :=
  {| status_code := 200; reason := py "OK"; url := shop_url;
     text :=
       py "<html><head><title>Coffee</title>"
       ++ py "<style>h1 { color: red }</style>"
       ++ py "<script>var tracker = 1;</script></head>" ++ NL
       ++ py "<body><h1>Our coffee  is organic</h1>" ++ NL ++ py "   " ++ NL
       ++ py "<!-- footer --><p> fair-trade, locally roasted. </p>"
       ++ py "<script>track();</script></body></html>" |}.

Definition status_page : Response :=
  {| status_code := 200; reason := py "OK"; url := shop_url;
     text := py "<h1>ERROR: 17 orders are delayed</h1>" |}.

Definition page_404 : Response :=
  {| status_code := 404; reason := py "Not Found"; url := shop_url;
     text := py "<h1>Not Found</h1>" |}.

Definition page_304 : Response :=
  {| status_code := 304; reason := py "Not Modified"; url := shop_url;
     text := [] |}.

(** The tree of [page_200]: a style sheet and two scripts next to the
    visible text.  The library stores a string made of ASCII whitespace
    only as a single line feed when it holds one. *)
Definition shop_document : document :=
  [ Tag 1 (py "html")
      [ Tag 2 (py "head")
          [ Tag 3 (py "title") [NavigableString (py "Coffee")];
            Tag 4 (py "style") [NavigableString (py "h1 { color: red }")];
            Tag 5 (py "script") [NavigableString (py "var tracker = 1;")] ];
        NavigableString NL;
        Tag 6 (py "body")
          [ Tag 7 (py "h1") [NavigableString (py "Our coffee  is organic")];
            NavigableString NL;
            Comment (py " footer ");
            Tag 8 (py "p") [NavigableString (py " fair-trade, locally roasted. ")];
            Tag 9 (py "script") [NavigableString (py "track();")] ] ] ].

(** The tree of [status_page], whose visible text starts with the
    marker of a failure. *)
Definition status_document : document :=
  [ Tag 1 (py "h1") [NavigableString (py "ERROR: 17 orders are delayed")] ].

Definition catalog : list Model :=
  [ {| name := py "models/embedding-001";
       supported_generation_methods := [py "embedContent"] |};
    {| name := py "models/gemini-1.5-pro";
       supported_generation_methods := [py "generateContent"; py "countTokens"] |};
    {| name := py "models/gemini-2.5-Flash";
       supported_generation_methods := [py "generateContent"; py "countTokens"] |};
    {| name := py "models/gemini-1.5-flash-8b";
       supported_generation_methods := [py "generateContent"] |} ].

Definition no_reply : result GenerateContentResponse :=
  Raise (py "503 The model is overloaded.").

Definition shop_world : env :=
  world (Ok page_200) shop_document (Ok catalog) no_reply.

Definition world_404 : env :=
  world (Ok page_404) [] (Ok catalog) no_reply.

Definition world_304 : env :=
  world (Ok page_304) [] (Ok catalog) no_reply.

Definition world_offline : env :=
  world (Raise (py "Connection refused")) [] (Ok catalog) no_reply.

Definition world_status_page : env :=
  world (Ok status_page) status_document (Ok catalog) no_reply.

(** A reply object one of whose strings quotes a fence. *)
Definition verdict_text : str :=
  py "{" ++ DQ ++ py "score" ++ DQ ++ py ": 35, "
  ++ DQ ++ py "verdict" ++ DQ ++ py ": " ++ DQ ++ py "FAIL" ++ DQ ++ py ", "
  ++ DQ ++ py "hallucinations" ++ DQ ++ py ": ["
  ++ DQ ++ py "The ad closes with ``` and a price the site never gives" ++ DQ
  ++ py "], "
  ++ DQ ++ py "tone_consistency" ++ DQ ++ py ": " ++ DQ ++ py "ok" ++ DQ
  ++ py "}".

Definition verdict_value : value :=
  VDict [ (py "score", VInt 35);
          (py "verdict", VStr (py "FAIL"));
          (py "hallucinations",
           VList [VStr (py "The ad closes with ``` and a price the site never gives")]);
          (py "tone_consistency", VStr (py "ok")) ].

(** What is left of [verdict_text] when it is cut at its inner fence. *)
Definition verdict_text_cut : str :=
  py "{" ++ DQ ++ py "score" ++ DQ ++ py ": 35, "
  ++ DQ ++ py "verdict" ++ DQ ++ py ": " ++ DQ ++ py "FAIL" ++ DQ ++ py ", "
  ++ DQ ++ py "hallucinations" ++ DQ ++ py ": ["
  ++ DQ ++ py "The ad closes with".

(** The shop's world when the model answers [reply]. *)
Definition world_replying (reply : str) : env :=
  world (Ok page_200) shop_document (Ok catalog)
    (Ok {| response_text := Ok reply |}).

Definition key : str := py "AIza-key".
Definition ad : str := py "The #1 organic coffee in the galaxy!".

End Sample.

(** ** Further worlds: failing providers and odd pages *)

Module Cases.

(** The provider refuses to list its models. *)
Definition bad_listing_world : env :=
  Sample.world (Ok Sample.page_200) Sample.shop_document
    (Raise (py "400 API key not valid.")) Sample.no_reply.

(** The provider lists an embedding model only. *)
Definition embedding_only_world : env :=
  Sample.world (Ok Sample.page_200) Sample.shop_document
    (Ok [ {| name := py "models/embedding-001";
             supported_generation_methods := [py "embedContent"] |} ])
    Sample.no_reply.

(** A reply object whose verdict is [null]. *)
Definition null_verdict_reply : str :=
  py "{" ++ DQ ++ py "score" ++ DQ ++ py ": 40, "
  ++ DQ ++ py "verdict" ++ DQ ++ py ": null}".

(** A page whose text outside its script is whitespace: a line feed,
    and a no-break space followed by a line feed. *)
Definition blank_page : Response :=
  {| status_code := 200; reason := py "OK"; url := Sample.shop_url;
     text :=
       py "<body>" ++ NL ++ py "<script>render();</script>"
       ++ [160%N] ++ NL ++ py "</body>" |}.

Definition blank_document : document :=
  [ Tag 1 (py "body")
      [ NavigableString NL;
        Tag 2 (py "script") [NavigableString (py "render();")];
        NavigableString ([160%N] ++ NL) ] ].

Definition blank_page_world : env :=
  Sample.world (Ok blank_page) blank_document (Ok Sample.catalog)
    Sample.no_reply.

(** A page that is a script and nothing else. *)
Definition script_only_page : Response :=
  {| status_code := 200; reason := py "OK"; url := Sample.shop_url;
     text := py "<script>render();</script>" |}.

Definition script_only_document : document :=
  [ Tag 1 (py "script") [NavigableString (py "render();")] ].

Definition script_only_world : env :=
  Sample.world (Ok script_only_page) script_only_document (Ok Sample.catalog)
    Sample.no_reply.

(** A page whose script holds the very text its heading shows. *)
Definition repeated_page : Response :=
  {| status_code := 200; reason := py "OK"; url := Sample.shop_url;
     text := py "<h1>Sale</h1><script>Sale</script>" |}.

Definition repeated_document : document :=
  [ Tag 1 (py "h1") [NavigableString (py "Sale")];
    Tag 2 (py "script") [NavigableString (py "Sale")] ].

Definition repeated_world : env :=
  Sample.world (Ok repeated_page) repeated_document (Ok Sample.catalog)
    Sample.no_reply.

(** A page the parser rejects, answered with status 200. *)
Definition rejected_page : Response :=
  {| status_code := 200; reason := py "OK"; url := Sample.shop_url;
     text := py "<p>Sale!</p><![ x ]>" |}.

Definition REJECTED : str :=
  py "The markup you provided was rejected by the parser.".

Definition rejecting_world : env :=
  {| requests_get := fun _ => Ok rejected_page;
     BeautifulSoup := fun _ => Raise REJECTED;
     list_models := fun _ => Ok Sample.catalog;
     generate_content := fun _ _ _ => Sample.no_reply;
     json_loads := Json.loads;
     lower_non_ascii := fun _ c _ => [c];
     upper_non_ascii := fun c => [c];
     py_str := Sample.str_of_value;
     str_of_list := Sample.str_of_names;
     float_truthy := existsb Sample.nonzero_digit |}.

End Cases.

(** * Properties *)

Unset Implicit Arguments.

(** ** Evaluation on the sample worlds *)

Example startswith_ex : startswith (py "ERROR: x") (py "ERROR:") = true.
Proof. reflexivity. Qed.

Example split_ex :
  split (py "a  b    c") (py "  ") = [py "a"; py "b"; []; py "c"].
Proof. reflexivity. Qed.

Example split_fence_ex :
  split (py "```json{}```") (py "```") = [[]; py "json{}"; []].
Proof. reflexivity. Qed.

Example splitlines_ex :
  splitlines (py "ab" ++ [CR; LF] ++ py "c" ++ [LF; LF] ++ py "d" ++ [LF])
  = [py "ab"; py "c"; []; py "d"].
Proof. reflexivity. Qed.

Example strip_ex : strip (py "  a b " ++ [LF]) = py "a b".
Proof. reflexivity. Qed.

Example join_ex : join NL [py "a"; py "b"] = py "a" ++ [LF] ++ py "b".
Proof. reflexivity. Qed.

Example str_of_N_ex : str_of_N 404 = py "404".
Proof. reflexivity. Qed.

Example scrape_shop :
  run (scrape_website Sample.shop_world Sample.shop_url)
  = (init, [HttpGet Sample.shop_url],
     Ok (py "Coffee" ++ NL ++ py "Our coffee" ++ NL ++ py "is organic" ++ NL
         ++ py "fair-trade, locally roasted.")).
Proof. vm_compute. reflexivity. Qed.

Example scrape_404 :
  run (scrape_website Sample.world_404 Sample.shop_url)
  = (init, [HttpGet Sample.shop_url],
     Ok (py "ERROR: 404 Client Error: Not Found for url: https://shop.example/coffee")).
Proof. vm_compute. reflexivity. Qed.

Example model_shop :
  run (get_best_model Sample.shop_world Sample.key)
  = (init, [ListModels],
     Ok (Some (py "models/gemini-2.5-Flash"),
         DebugNames [py "models/gemini-1.5-pro"; py "models/gemini-2.5-Flash";
                     py "models/gemini-1.5-flash-8b"])).
Proof. vm_compute. reflexivity. Qed.

(** ** The Extractor always returns a string *)

Lemma truthy_true_cons (s : str) : truthy s = true <-> s <> [].
Proof. destruct s; simpl; split; congruence. Qed.

Lemma startswith_app (p s : str) : startswith (p ++ s) p = true.
Proof.
  induction p as [|c p IH]; simpl.
  - reflexivity.
  - now rewrite N.eqb_refl, IH.
Qed.

(** The one network call of [scrape_website] is made, no exception leaves
    it, and the module's variables are untouched. *)
Lemma scrape_website_run (E : env) (url : str) (st : locals) :
  scrape_website E url st = (st, [HttpGet url], Ok (scraped E url)).
Proof.
  unfold scrape_website, scraped, try_except, bind, emit, lift, ret, page_text.
  destruct (requests_get E url) as [r|e]; simpl; [|reflexivity].
  destruct (raise_for_status r) as [[]|e]; [|reflexivity].
  destruct (BeautifulSoup E (text r)) as [soup|e]; reflexivity.
Qed.

Lemma scrape_website_outcome (E : env) (url : str) :
  outcome (scrape_website E url) = Ok (scraped E url).
Proof. unfold outcome, run. now rewrite scrape_website_run. Qed.

Lemma str_of_N_cons (n : N) : exists c s, str_of_N n = c :: s.
Proof.
  unfold str_of_N, py, NilZero.string_of_uint.
  destruct (N.to_uint n); simpl; eauto.
Qed.

Lemma raise_for_status_error (r : Response) :
  (400 <= status_code r < 600)%N ->
  raise_for_status r = Raise (http_error_msg r).
Proof.
  intros [Hlo Hhi]. unfold raise_for_status.
  assert (Hmsg : exists c s, http_error_msg r = c :: s).
  { unfold http_error_msg.
    destruct (str_of_N_cons (status_code r)) as (c & s & Hs). rewrite Hs.
    destruct ((400 <=? status_code r) && (status_code r <? 500))%N eqn:H4;
      [simpl; eauto|].
    destruct ((500 <=? status_code r) && (status_code r <? 600))%N eqn:H5;
      [simpl; eauto|].
    exfalso.
    apply andb_false_iff in H4. apply andb_false_iff in H5.
    rewrite !N.leb_gt, !N.ltb_ge in *. lia. }
  destruct Hmsg as (c & s & Hs). now rewrite Hs.
Qed.

Lemma raise_for_status_quiet (r : Response) :
  (status_code r < 400 \/ 600 <= status_code r)%N ->
  raise_for_status r = Ok tt.
Proof.
  intros H. unfold raise_for_status, http_error_msg.
  destruct ((400 <=? status_code r) && (status_code r <? 500))%N eqn:H4.
  { apply andb_true_iff in H4. rewrite N.leb_le, N.ltb_lt in H4. lia. }
  destruct ((500 <=? status_code r) && (status_code r <? 600))%N eqn:H5.
  { apply andb_true_iff in H5. rewrite N.leb_le, N.ltb_lt in H5. lia. }
  reflexivity.
Qed.

(** ** The request handler's gates *)

Lemma handler_after_inputs (E : env) (gemini_key target_url ad_script : str) :
  gemini_key <> [] -> target_url <> [] -> ad_script <> [] ->
  verify_btn_handler E gemini_key target_url ad_script
  = (emit (StSpinner (py "Scraping website...")) ;;;
     site_text <- scrape_website E target_url ;;
     if startswith site_text (py "ERROR:") then
       emit (StError (py "Failed to scrape website: " ++ site_text))
     else
       emit (StSpinner (py "Analyzing with Gemini 2.5 Flash...")) ;;;
       analyze E gemini_key site_text ad_script).
Proof.
  intros Hk Hu Ha. unfold verify_btn_handler.
  apply truthy_true_cons in Hk, Hu, Ha. now rewrite Hk, Hu, Ha.
Qed.

(** C9, as stated, fails for an input that is blank without being
    empty: with an ad script of three spaces the handler shows no
    input-missing message, fetches the page and runs the Verifier up to
    its generation call. *)
Lemma whitespace_only_input_is_not_stopped :
  blank (py "   ") = true
  /\ run (verify_btn_handler Sample.shop_world Sample.key Sample.shop_url
            (py "   "))
     = (init,
        request_started Sample.key Sample.shop_url
          (py "models/gemini-2.5-Flash")
          (build_prompt (scraped Sample.shop_world Sample.shop_url) (py "   "))
        ++ failure_report (py "503 The model is overloaded."),
        Ok tt)
  /\ existsb is_network_fetch
       (trace (verify_btn_handler Sample.shop_world Sample.key
                 Sample.shop_url (py "   ")))
     = true
  /\ existsb is_verifier_step
       (trace (verify_btn_handler Sample.shop_world Sample.key
                 Sample.shop_url (py "   ")))
     = true.
Proof. repeat split; vm_compute; reflexivity. Qed.

(** C9 (amended). When the credential, the URL or the ad script is the
    empty string (which is what the script tests), the request ends with
    the input-missing message of the first empty input, in the order
    credential, URL, ad script; that message is the whole trace, so the
    Extractor's network fetch and every Verifier step are absent. *)
Theorem blank_input_stops_request
  (E : env) (gemini_key target_url ad_script : str) :
  gemini_key = [] \/ target_url = [] \/ ad_script = [] ->
  exists msg,
    run (verify_btn_handler E gemini_key target_url ad_script)
    = (init, [StError msg], Ok tt)
    /\ (gemini_key = [] ->
        msg = py "Please enter your Google Gemini API Key.")
    /\ (gemini_key <> [] -> target_url = [] ->
        msg = py "Please enter a Target URL.")
    /\ (gemini_key <> [] -> target_url <> [] ->
        msg = py "Please enter the Ad Script.")
    /\ forallb (fun ev => negb (is_network_fetch ev || is_verifier_step ev))
         (trace (verify_btn_handler E gemini_key target_url ad_script))
       = true.
Proof.
  intros H. unfold trace, run, verify_btn_handler.
  destruct gemini_key as [|k ks]; simpl.
  { eexists; repeat split; try reflexivity; congruence. }
  destruct target_url as [|u us]; simpl.
  { eexists; repeat split; try reflexivity; congruence. }
  destruct ad_script as [|a rest]; simpl.
  { eexists; repeat split; try reflexivity; congruence. }
  destruct H as [H|[H|H]]; discriminate.
Qed.

Lemma blank_input_stops_request_witness :
  exists msg,
    run (verify_btn_handler Sample.shop_world Sample.key [] Sample.ad)
    = (init, [StError msg], Ok tt)
    /\ (Sample.key = [] ->
        msg = py "Please enter your Google Gemini API Key.")
    /\ (Sample.key <> [] -> @nil char = [] ->
        msg = py "Please enter a Target URL.")
    /\ (Sample.key <> [] -> @nil char <> [] ->
        msg = py "Please enter the Ad Script.")
    /\ forallb (fun ev => negb (is_network_fetch ev || is_verifier_step ev))
         (trace (verify_btn_handler Sample.shop_world Sample.key [] Sample.ad))
       = true.
Proof.
  apply (blank_input_stops_request Sample.shop_world Sample.key [] Sample.ad).
  right; left; reflexivity.
Defined.

(** C1. When the Extractor's returned string starts with "ERROR:", the
    request consists of the scraping spinner, the one fetch and the
    scrape error message, and then ends: the provider is not configured,
    no model is listed, and no generation call (the only place a prompt
    is built) is made. *)
Theorem scrape_error_skips_verifier
  (E : env) (gemini_key target_url ad_script site_text : str) :
  gemini_key <> [] -> target_url <> [] -> ad_script <> [] ->
  outcome (scrape_website E target_url) = Ok site_text ->
  startswith site_text (py "ERROR:") = true ->
  run (verify_btn_handler E gemini_key target_url ad_script)
  = (init,
     [StSpinner (py "Scraping website..."); HttpGet target_url;
      StError (py "Failed to scrape website: " ++ site_text)],
     Ok tt)
  /\ forallb (fun ev => negb (is_verifier_step ev))
       (trace (verify_btn_handler E gemini_key target_url ad_script))
     = true.
Proof.
  intros Hk Hu Ha Hs Herr.
  rewrite scrape_website_outcome in Hs. injection Hs as Hs.
  assert (Hrun :
    run (verify_btn_handler E gemini_key target_url ad_script)
    = (init,
       [StSpinner (py "Scraping website..."); HttpGet target_url;
        StError (py "Failed to scrape website: " ++ site_text)],
       Ok tt)).
  { unfold run. rewrite (handler_after_inputs E _ _ _ Hk Hu Ha).
    unfold bind, emit. rewrite scrape_website_run, Hs, Herr. reflexivity. }
  split; [exact Hrun|].
  unfold trace. rewrite Hrun. reflexivity.
Qed.

Lemma scrape_error_skips_verifier_witness :
  run (verify_btn_handler Sample.world_404 Sample.key Sample.shop_url Sample.ad)
  = (init,
     [StSpinner (py "Scraping website..."); HttpGet Sample.shop_url;
      StError (py "Failed to scrape website: "
               ++ py "ERROR: 404 Client Error: Not Found for url: https://shop.example/coffee")],
     Ok tt)
  /\ forallb (fun ev => negb (is_verifier_step ev))
       (trace (verify_btn_handler Sample.world_404 Sample.key
                 Sample.shop_url Sample.ad))
     = true.
Proof.
  apply (scrape_error_skips_verifier Sample.world_404 Sample.key
           Sample.shop_url Sample.ad
           (py "ERROR: 404 Client Error: Not Found for url: https://shop.example/coffee")).
  - discriminate.
  - discriminate.
  - discriminate.
  - vm_compute. reflexivity.
  - vm_compute. reflexivity.
Defined.

(** C10. There is a successful fetch (status 200, nothing raised by the
    request, the status check or the parser) of a page whose visible
    text begins with "ERROR:"; the Extractor returns
    that text, and the handler, which tells failure from success by the
    prefix alone, reports a scrape failure and never reaches the
    Verifier. *)
Theorem error_prefixed_page_is_taken_for_failure :
  exists (E : env) (gemini_key target_url ad_script : str) (r : Response)
         (soup : document),
    gemini_key <> [] /\ target_url <> [] /\ ad_script <> []
    /\ requests_get E target_url = Ok r
    /\ (200 <= status_code r < 300)%N
    /\ raise_for_status r = Ok tt
    /\ BeautifulSoup E (text r) = Ok soup
    /\ startswith (page_text soup) (py "ERROR:") = true
    /\ outcome (scrape_website E target_url) = Ok (page_text soup)
    /\ run (verify_btn_handler E gemini_key target_url ad_script)
       = (init,
          [StSpinner (py "Scraping website..."); HttpGet target_url;
           StError (py "Failed to scrape website: " ++ page_text soup)],
          Ok tt)
    /\ forallb (fun ev => negb (is_verifier_step ev))
         (trace (verify_btn_handler E gemini_key target_url ad_script))
       = true.
Proof.
  exists Sample.world_status_page, Sample.key, Sample.shop_url, Sample.ad,
    Sample.status_page, Sample.status_document.
  repeat split; try discriminate; vm_compute; reflexivity.
Qed.

(** ** Failed fetches *)

(** C4, as stated, fails: a fetch answered with status 304 is not a 2xx
    answer, yet [raise_for_status] raises nothing for it, the Extractor
    returns the (empty) page text without the "ERROR:" prefix, and the
    handler goes on to the Verifier. *)
Lemma non_2xx_status_returned_as_page_text :
  requests_get Sample.world_304 Sample.shop_url = Ok Sample.page_304
  /\ ~ (200 <= status_code Sample.page_304 < 300)%N
  /\ outcome (scrape_website Sample.world_304 Sample.shop_url) = Ok []
  /\ startswith [] (py "ERROR:") = false
  /\ existsb is_verifier_step
       (trace (verify_btn_handler Sample.world_304 Sample.key
                 Sample.shop_url Sample.ad))
     = true.
Proof.
  repeat split; try (vm_compute; reflexivity).
  intros [_ H]. vm_compute in H. discriminate.
Qed.

(** C4 (amended). When the fetch raises an exception with text [e], or
    is answered with a 4xx or 5xx status, for which [raise_for_status]
    raises the error text [e], the Extractor returns "ERROR: " followed
    by [e]; the returned string has the prefix by which the handler
    recognises a failure, so it is never taken for page text. *)
Theorem fetch_failure_returns_error_string (E : env) (url e : str) :
  (requests_get E url = Raise e
   \/ exists r, requests_get E url = Ok r
                /\ (400 <= status_code r < 600)%N
                /\ e = http_error_msg r) ->
  run (scrape_website E url) = (init, [HttpGet url], Ok (py "ERROR: " ++ e))
  /\ startswith (py "ERROR: " ++ e) (py "ERROR:") = true.
Proof.
  intros H. split; [|reflexivity].
  unfold run. rewrite scrape_website_run. unfold scraped.
  destruct H as [H|(r & H & Hst & He)]; rewrite H.
  - reflexivity.
  - rewrite (raise_for_status_error r Hst). now subst e.
Qed.

Lemma fetch_failure_returns_error_string_witness :
  run (scrape_website Sample.world_404 Sample.shop_url)
  = (init, [HttpGet Sample.shop_url],
     Ok (py "ERROR: "
         ++ py "404 Client Error: Not Found for url: https://shop.example/coffee"))
  /\ startswith
       (py "ERROR: "
        ++ py "404 Client Error: Not Found for url: https://shop.example/coffee")
       (py "ERROR:") = true.
Proof.
  apply (fetch_failure_returns_error_string Sample.world_404 Sample.shop_url).
  right. exists Sample.page_404.
  split; [reflexivity|]. split; [|vm_compute; reflexivity].
  simpl. lia.
Defined.

Example scrape_offline :
  run (scrape_website Sample.world_offline Sample.shop_url)
  = (init, [HttpGet Sample.shop_url], Ok (py "ERROR: Connection refused")).
Proof. vm_compute. reflexivity. Qed.

(** A page answered with status 200 that the parser rejects: the
    exception is raised inside the [try], and an error string is
    returned. *)
Example scrape_rejected_markup :
  raise_for_status Cases.rejected_page = Ok tt
  /\ run (scrape_website Cases.rejecting_world Sample.shop_url)
     = (init, [HttpGet Sample.shop_url], Ok (py "ERROR: " ++ Cases.REJECTED)).
Proof. split; vm_compute; reflexivity. Qed.

(** ** Invariants of traces *)

Section Emits.
Variable Q : event -> Prop.

Lemma emits_ret {A} (a : A) : emits Q (ret a).
Proof. intros st. constructor. Qed.

Lemma emits_lift {A} (r : result A) : emits Q (lift r).
Proof. intros st. constructor. Qed.

Lemma emits_emit (ev : event) : Q ev -> emits Q (emit ev).
Proof. intros H st. simpl. now constructor. Qed.

Lemma emits_assign_response (r : GenerateContentResponse) :
  emits Q (assign_response r).
Proof. intros st. constructor. Qed.

Lemma emits_lookup_response : emits Q lookup_response.
Proof. intros st. constructor. Qed.

Lemma emits_bind {A B} (m : M A) (f : A -> M B) :
  emits Q m -> (forall a, emits Q (f a)) -> emits Q (bind m f).
Proof.
  intros Hm Hf st. unfold bind. specialize (Hm st).
  destruct (m st) as [[st1 t1] [a|e]]; [|exact Hm].
  specialize (Hf a st1). destruct (f a st1) as [[st2 t2] r].
  simpl in *. apply Forall_app. now split.
Qed.

Lemma emits_try_except {A} (m : M A) (h : str -> M A) :
  emits Q m -> (forall e, emits Q (h e)) -> emits Q (try_except m h).
Proof.
  intros Hm Hh st. unfold try_except. specialize (Hm st).
  destruct (m st) as [[st1 t1] [a|e]]; [exact Hm|].
  specialize (Hh e st1). destruct (h e st1) as [[st2 t2] r].
  simpl in *. apply Forall_app. now split.
Qed.

Lemma emits_for_each {A} (l : list A) (body : A -> M unit) :
  (forall x, emits Q (body x)) -> emits Q (for_each l body).
Proof.
  intros H. induction l as [|x l IH]; [apply emits_ret|].
  cbn [for_each]. apply emits_bind; [apply H|intros _; exact IH].
Qed.
End Emits.

Create HintDb emits.
#[local] Hint Resolve emits_ret emits_lift emits_assign_response
  emits_lookup_response : emits.

(** Take a monadic term apart, leaving the events to be checked. *)
Ltac emits_steps :=
  repeat first
    [ apply emits_bind; [|intros ?]
    | apply emits_try_except; [|intros ?]
    | apply emits_for_each; intros ?
    | apply emits_emit
    | solve [auto with emits]
    | match goal with
      | |- emits _ (if ?b then _ else _) => destruct b
      | |- emits _ (match ?x with _ => _ end) => destruct x
      end ].

Lemma emits_scrape_website (Q : event -> Prop) (E : env) (url : str) :
  Q (HttpGet url) -> emits Q (scrape_website E url).
Proof. intros H. unfold scrape_website. emits_steps. Qed.

Lemma emits_get_best_model (Q : event -> Prop) (E : env) (api_key : str) :
  Q ListModels -> emits Q (get_best_model E api_key).
Proof. intros H. unfold get_best_model. emits_steps. Qed.

(** The display makes no call: it only writes to the page. *)
Lemma emits_display (p : str) (E : env) (result : value) :
  emits (prompt_is p) (display E result).
Proof. unfold display, st_metric. emits_steps; exact I. Qed.

(** What follows the Extractor is run on the string it returns. *)
Lemma emits_after_scrape {B} (Q : event -> Prop) (E : env) (url : str)
  (f : str -> M B) :
  Q (HttpGet url) -> emits Q (f (scraped E url)) ->
  emits Q (bind (scrape_website E url) f).
Proof.
  intros Hq Hf st. unfold bind. rewrite scrape_website_run.
  specialize (Hf st). destruct (f (scraped E url) st) as [[st2 t2] r].
  simpl in *. now constructor.
Qed.

(** Every generation call of a request carries the prompt built from the
    scraped text and the ad script. *)
Lemma handler_prompt (E : env) (gemini_key target_url ad_script : str) :
  Forall (prompt_is (build_prompt (scraped E target_url) ad_script))
    (trace (verify_btn_handler E gemini_key target_url ad_script)).
Proof.
  unfold trace, run.
  assert (H : emits (prompt_is (build_prompt (scraped E target_url) ad_script))
                (verify_btn_handler E gemini_key target_url ad_script));
    [|exact (H init)].
  unfold verify_btn_handler.
  destruct (negb (truthy gemini_key)); [emits_steps; exact I|].
  destruct (negb (truthy target_url)); [emits_steps; exact I|].
  destruct (negb (truthy ad_script)); [emits_steps; exact I|].
  apply emits_bind; [apply emits_emit; exact I|intros _].
  apply emits_after_scrape; [exact I|].
  destruct (startswith (scraped E target_url) (py "ERROR:"));
    [emits_steps; exact I|].
  unfold analyze, get_best_model, display, st_metric.
  emits_steps; try exact I; reflexivity.
Qed.

(** ** The prompt *)

Lemma slice_to_prefix (n : nat) (s : str) :
  exists rest, s = slice_to n s ++ rest.
Proof. exists (skipn n s). unfold slice_to. now rewrite firstn_skipn. Qed.

(** C8. The prompt is the fixed head, then the source text cut to its
    first 30,000 characters (a prefix of it, the whole of it when it has
    at most 30,000 characters), then the fixed middle, then the ad
    script in full, then the fixed tail; and it is this prompt, built
    from the scraped text and the ad script, that every generation call
    of a request carries. *)
Theorem prompt_embeds_truncated_site_and_full_ad (site_text ad_script : str) :
  (exists embedded,
      build_prompt site_text ad_script
      = PROMPT_HEAD ++ embedded ++ PROMPT_MID ++ ad_script ++ PROMPT_TAIL
      /\ (exists rest, site_text = embedded ++ rest)
      /\ (N.of_nat (List.length embedded)
          = N.min (N.of_nat (List.length site_text)) 30000)%N
      /\ ((N.of_nat (List.length site_text) <= 30000)%N ->
          embedded = site_text))
  /\ forall (E : env) (gemini_key target_url : str),
       scraped E target_url = site_text ->
       Forall (prompt_is (build_prompt site_text ad_script))
         (trace (verify_btn_handler E gemini_key target_url ad_script)).
Proof.
  split.
  - exists (slice_to SITE_TEXT_LIMIT site_text).
    split; [reflexivity|]. split; [apply slice_to_prefix|].
    unfold slice_to, SITE_TEXT_LIMIT. split.
    + rewrite length_firstn. lia.
    + intros H. apply firstn_all2. lia.
  - intros E gemini_key target_url <-. apply handler_prompt.
Qed.

Lemma prompt_embeds_truncated_site_and_full_ad_witness :
  Forall
    (prompt_is
       (build_prompt (scraped Sample.shop_world Sample.shop_url) Sample.ad))
    (trace (verify_btn_handler Sample.shop_world Sample.key Sample.shop_url
              Sample.ad)).
Proof.
  apply (proj2 (prompt_embeds_truncated_site_and_full_ad
                  (scraped Sample.shop_world Sample.shop_url) Sample.ad)
           Sample.shop_world Sample.key Sample.shop_url).
  reflexivity.
Defined.

(** ** Model selection *)

Section FirstSuch.
Context {A : Type}.
Variables P Q : A -> bool.

Lemma find_filter (l : list A) :
  find P (filter Q l) = find (fun x => Q x && P x) l.
Proof.
  induction l as [|x l IH]; simpl; [reflexivity|].
  destruct (Q x); simpl; [|exact IH].
  destruct (P x); [reflexivity|exact IH].
Qed.

Lemma find_first_such (l : list A) (m : A) :
  find P l = Some m -> first_such P l m.
Proof.
  induction l as [|x l IH]; simpl; [discriminate|].
  destruct (P x) eqn:Hx.
  - intros [= ->]. exists [], l. repeat split; [exact Hx|intros ? []].
  - intros H. destruct (IH H) as (pre & post & -> & Hm & Hpre).
    exists (x :: pre), post. repeat split; [exact Hm|].
    intros y [<-|Hy]; [exact Hx|now apply Hpre].
Qed.

Lemma find_none_such (l : list A) : find P l = None -> none_such P l.
Proof. intros H x Hx. exact (find_none P l H x Hx). Qed.

Lemma filter_head_first_such (l : list A) (m : A) (rest : list A) :
  filter P l = m :: rest -> first_such P l m.
Proof.
  induction l as [|x l IH]; simpl; [discriminate|].
  destruct (P x) eqn:Hx.
  - intros [= -> _]. exists [], l. repeat split; [exact Hx|intros ? []].
  - intros H. destruct (IH H) as (pre & post & -> & Hm & Hpre).
    exists (x :: pre), post. repeat split; [exact Hm|].
    intros y [<-|Hy]; [exact Hx|now apply Hpre].
Qed.

Lemma filter_nil_none_such (l : list A) : filter P l = [] -> none_such P l.
Proof.
  intros H x Hx. destruct (P x) eqn:Hp; [|reflexivity].
  assert (Hin : In x (filter P l)) by (apply filter_In; auto).
  rewrite H in Hin. destruct Hin.
Qed.

Lemma first_such_not_none (l : list A) (m : A) :
  first_such P l m -> none_such P l -> False.
Proof.
  intros (pre & post & -> & Hm & _) Hn.
  rewrite (Hn m) in Hm; [discriminate|].
  apply in_or_app. right. now left.
Qed.

End FirstSuch.

(** C7. For a catalog the provider lists, [get_best_model] returns the
    name of the first model that supports generateContent and has
    "flash" in its lower-cased name; when there is none, of the first
    that supports it and has "pro" in its name; when there is none
    either, of the first that supports it; and it returns no model
    exactly when no listed model supports generateContent. *)
Theorem get_best_model_priority
  (E : env) (api_key : str) (catalog : list Model) :
  list_models E api_key = Ok catalog ->
  let flash m :=
    supports_generateContent m && contains (py "flash") (lower E (name m)) in
  let pro m :=
    supports_generateContent m && contains (py "pro") (lower E (name m)) in
  exists choice debug_info,
    run (get_best_model E api_key) = (init, [ListModels], Ok (choice, debug_info))
    /\ ((exists m, first_such flash catalog m /\ choice = Some (name m))
        \/ (none_such flash catalog
            /\ exists m, first_such pro catalog m /\ choice = Some (name m))
        \/ (none_such flash catalog /\ none_such pro catalog
            /\ exists m, first_such supports_generateContent catalog m
                         /\ choice = Some (name m))
        \/ (none_such supports_generateContent catalog /\ choice = None))
    /\ (choice = None <-> none_such supports_generateContent catalog).
Proof.
  intros Hlist flash pro.
  unfold run, get_best_model, try_except, bind, emit, lift, ret.
  rewrite Hlist. cbv beta iota.
  rewrite !find_filter. fold flash. fold pro.
  destruct (filter supports_generateContent catalog) as [|first rest] eqn:Hvalid.
  - apply filter_nil_none_such in Hvalid.
    do 2 eexists. split; [reflexivity|]. split.
    + right; right; right. split; [exact Hvalid|reflexivity].
    + split; [intros _; exact Hvalid|reflexivity].
  - apply filter_head_first_such in Hvalid.
    destruct (find flash catalog) as [fm|] eqn:Hflash.
    { apply find_first_such in Hflash.
      do 2 eexists. split; [reflexivity|]. split.
      - left. exists fm. split; [exact Hflash|reflexivity].
      - split; [discriminate|].
        intros Hn. exfalso. apply (first_such_not_none _ _ _ Hvalid Hn). }
    apply find_none_such in Hflash.
    destruct (find pro catalog) as [pm|] eqn:Hpro.
    { apply find_first_such in Hpro.
      do 2 eexists. split; [reflexivity|]. split.
      - right; left. split; [exact Hflash|].
        exists pm. split; [exact Hpro|reflexivity].
      - split; [discriminate|].
        intros Hn. exfalso. apply (first_such_not_none _ _ _ Hvalid Hn). }
    apply find_none_such in Hpro.
    do 2 eexists. split; [reflexivity|]. split.
    + right; right; left. repeat split; try assumption.
      exists first. split; [exact Hvalid|reflexivity].
    + split; [discriminate|].
      intros Hn. exfalso. apply (first_such_not_none _ _ _ Hvalid Hn).
Qed.

Lemma get_best_model_priority_witness :
  let flash m :=
    supports_generateContent m
    && contains (py "flash") (lower Sample.shop_world (name m)) in
  let pro m :=
    supports_generateContent m
    && contains (py "pro") (lower Sample.shop_world (name m)) in
  exists choice debug_info,
    run (get_best_model Sample.shop_world Sample.key)
    = (init, [ListModels], Ok (choice, debug_info))
    /\ ((exists m, first_such flash Sample.catalog m /\ choice = Some (name m))
        \/ (none_such flash Sample.catalog
            /\ exists m, first_such pro Sample.catalog m
                         /\ choice = Some (name m))
        \/ (none_such flash Sample.catalog /\ none_such pro Sample.catalog
            /\ exists m, first_such supports_generateContent Sample.catalog m
                         /\ choice = Some (name m))
        \/ (none_such supports_generateContent Sample.catalog
            /\ choice = None))
    /\ (choice = None <-> none_such supports_generateContent Sample.catalog).
Proof.
  apply (get_best_model_priority Sample.shop_world Sample.key Sample.catalog).
  reflexivity.
Defined.

(** ** Line normalisation *)

Lemma lstrip_incl (s : str) (c : char) : In c (lstrip s) -> In c s.
Proof.
  induction s as [|x s IH]; simpl; [tauto|].
  destruct (isspace x); simpl; tauto.
Qed.

Lemma strip_incl (s : str) (c : char) : In c (strip s) -> In c s.
Proof.
  unfold strip, rstrip. intros H.
  apply in_rev, lstrip_incl, in_rev, lstrip_incl in H. exact H.
Qed.

Lemma lstrip_head (s : str) (c : char) (t : str) :
  lstrip s = c :: t -> isspace c = false.
Proof.
  induction s as [|x s IH]; simpl; [discriminate|].
  destruct (isspace x) eqn:Hx; [exact IH|].
  now intros [= <- _].
Qed.

Lemma lstrip_keeps_last (l : str) (c : char) :
  isspace c = false -> exists w, lstrip (l ++ [c]) = w ++ [c].
Proof.
  intros Hc. induction l as [|x l IH]; simpl.
  - rewrite Hc. now exists [].
  - destruct (isspace x); [exact IH|]. now exists (x :: l).
Qed.

(** What [strip] returns does not start with a whitespace character. *)
Lemma strip_head (s : str) (c : char) (t : str) :
  strip s = c :: t -> isspace c = false.
Proof.
  unfold strip, rstrip.
  destruct (lstrip s) as [|c0 u] eqn:Hu; [discriminate|].
  pose proof (lstrip_head _ _ _ Hu) as Hc0.
  simpl rev. destruct (lstrip_keeps_last (rev u) c0 Hc0) as [w Hw].
  rewrite Hw, rev_app_distr. simpl. now intros [= <- _].
Qed.

Lemma strip_not_blank (s : str) : strip s <> [] -> blank (strip s) = false.
Proof.
  destruct (strip s) as [|c t] eqn:Hs; [congruence|].
  intros _. unfold blank. simpl. now rewrite (strip_head _ _ _ Hs).
Qed.

Lemma no_linebreak_rev (s : str) : no_linebreak s -> no_linebreak (rev s).
Proof. intros H c Hc. apply H. now apply in_rev. Qed.

(** The lines [splitlines] returns contain no line boundary. *)
Lemma splitlines_go_no_linebreak (n : nat) :
  forall s cur, List.length s <= n -> no_linebreak cur ->
  Forall no_linebreak (splitlines_go s cur).
Proof.
  induction n as [|n IH]; intros s cur Hlen Hcur.
  - destruct s; [|simpl in Hlen; lia]. simpl.
    destruct cur; constructor; [|constructor].
    now apply no_linebreak_rev.
  - destruct s as [|c s']; simpl.
    { destruct cur; constructor; [|constructor]. now apply no_linebreak_rev. }
    simpl in Hlen.
    destruct (is_linebreak c) eqn:Hc.
    + constructor; [now apply no_linebreak_rev|].
      assert (Hnil : no_linebreak []) by (intros ? []).
      destruct (N.eqb c CR); [|apply IH; [lia|exact Hnil]].
      destruct s' as [|c' s'']; [apply IH; [simpl; lia|exact Hnil]|].
      destruct (N.eqb c' LF); apply IH; simpl in *; try lia; exact Hnil.
    + apply IH; [lia|].
      intros x [<-|Hx]; [exact Hc|now apply Hcur].
Qed.

Lemma splitlines_no_linebreak (s : str) : Forall no_linebreak (splitlines s).
Proof.
  apply (splitlines_go_no_linebreak (List.length s)); [lia|intros ? []].
Qed.

(** The pieces [split] returns are made of characters of the string. *)
Lemma split_go_incl (sep : str) :
  forall s skip cur piece c,
    In piece (split_go sep s skip cur) -> In c piece -> In c s \/ In c cur.
Proof.
  induction s as [|x s IH]; intros skip cur piece c Hp Hc; simpl in Hp.
  - destruct Hp as [<-|[]]. right. now apply in_rev.
  - destruct skip as [|k].
    + destruct (startswith (x :: s) sep).
      * destruct Hp as [<-|Hp]; [right; now apply in_rev|].
        destruct (IH _ _ _ _ Hp Hc) as [H|[]]. left. now right.
      * destruct (IH _ _ _ _ Hp Hc) as [H|[<-|H]]; simpl; auto.
    + destruct (IH _ _ _ _ Hp Hc) as [H|H]; simpl; auto.
Qed.

Lemma split_incl (s sep piece : str) (c : char) :
  In piece (split s sep) -> In c piece -> In c s.
Proof.
  intros Hp Hc. destruct (split_go_incl sep s 0 [] piece c Hp Hc) as [H|[]].
  exact H.
Qed.

(** Every phrase the Extractor keeps is free of line boundaries and is
    not blank. *)
Lemma chunks_of_no_linebreak (text chunk : str) :
  In chunk (chunks_of text) -> no_linebreak chunk.
Proof.
  unfold chunks_of. intros H c Hc.
  apply in_flat_map in H. destruct H as (line & Hline & H).
  apply in_map_iff in H. destruct H as (phrase & <- & Hphrase).
  apply in_map_iff in Hline. destruct Hline as (raw & <- & Hraw).
  apply strip_incl in Hc.
  apply (split_incl _ _ _ _ Hphrase) in Hc.
  apply strip_incl in Hc.
  pose proof (splitlines_no_linebreak text) as Hall.
  rewrite Forall_forall in Hall. exact (Hall raw Hraw c Hc).
Qed.

Lemma chunks_of_stripped (text chunk : str) :
  In chunk (chunks_of text) -> exists phrase, chunk = strip phrase.
Proof.
  unfold chunks_of. intros H.
  apply in_flat_map in H. destruct H as (line & _ & H).
  apply in_map_iff in H. destruct H as (phrase & <- & _). now exists phrase.
Qed.

Lemma kept_chunk (text chunk : str) :
  In chunk (filter truthy (chunks_of text)) ->
  chunk <> [] /\ no_linebreak chunk /\ blank chunk = false.
Proof.
  intros H. apply filter_In in H. destruct H as [Hin Ht].
  apply truthy_true_cons in Ht. split; [exact Ht|].
  split; [exact (chunks_of_no_linebreak _ _ Hin)|].
  destruct (chunks_of_stripped _ _ Hin) as [phrase ->].
  now apply strip_not_blank.
Qed.

(** Joining with line feeds and splitting again gives the phrases back. *)
Lemma splitlines_go_app (c rest cur : str) :
  no_linebreak c ->
  splitlines_go (c ++ rest) cur = splitlines_go rest (rev c ++ cur).
Proof.
  revert cur. induction c as [|x c IH]; intros cur Hc; simpl; [reflexivity|].
  rewrite (Hc x (or_introl eq_refl)).
  rewrite IH by (intros y Hy; apply Hc; now right).
  now rewrite <- app_assoc.
Qed.

Lemma splitlines_join (chunks : list str) :
  Forall (fun c => c <> [] /\ no_linebreak c) chunks ->
  splitlines (join NL chunks) = chunks.
Proof.
  unfold splitlines.
  induction chunks as [|x l IH]; intros H; [reflexivity|].
  inversion H as [|? ? [Hx Hnb] Hl]; subst.
  destruct l as [|y l'].
  - simpl. rewrite <- (app_nil_r x) at 1.
    rewrite splitlines_go_app by exact Hnb. simpl. rewrite app_nil_r.
    destruct (rev x) eqn:Hr.
    + apply (f_equal (@rev char)) in Hr. rewrite rev_involutive in Hr.
      now destruct Hx.
    + now rewrite <- Hr, rev_involutive.
  - change (join NL (x :: y :: l')) with (x ++ LF :: join NL (y :: l')).
    rewrite splitlines_go_app by exact Hnb.
    rewrite app_nil_r. simpl splitlines_go at 1.
    rewrite rev_involutive. f_equal. now apply IH.
Qed.

Lemma split_go_app (c rest cur : str) :
  (forall x, In x c -> N.eqb x LF = false) ->
  split_go NL (c ++ rest) 0 cur = split_go NL rest 0 (rev c ++ cur).
Proof.
  revert cur. induction c as [|x c IH]; intros cur Hc; simpl; [reflexivity|].
  rewrite (Hc x (or_introl eq_refl)). simpl.
  rewrite IH by (intros y Hy; apply Hc; now right).
  now rewrite <- app_assoc.
Qed.

Lemma no_linebreak_no_LF (c : str) :
  no_linebreak c -> forall x, In x c -> N.eqb x LF = false.
Proof.
  intros H x Hx. apply H in Hx.
  destruct (N.eqb_spec x LF) as [->|]; [discriminate|reflexivity].
Qed.

Lemma split_join (chunks : list str) :
  chunks <> [] -> Forall no_linebreak chunks ->
  split (join NL chunks) NL = chunks.
Proof.
  unfold split.
  induction chunks as [|x l IH]; intros Hne H; [congruence|].
  inversion H as [|? ? Hnb Hl]; subst.
  destruct l as [|y l'].
  - simpl. rewrite <- (app_nil_r x) at 1.
    rewrite split_go_app by (now apply no_linebreak_no_LF).
    simpl. now rewrite app_nil_r, rev_involutive.
  - change (join NL (x :: y :: l')) with (x ++ LF :: join NL (y :: l')).
    rewrite split_go_app by (now apply no_linebreak_no_LF).
    rewrite app_nil_r. simpl split_go at 1.
    rewrite rev_involutive. f_equal. apply IH; [discriminate|exact Hl].
Qed.

Lemma rejoin_lines (text : str) :
  Forall (fun line => blank line = false) (splitlines (rejoin text))
  /\ (rejoin text = []
      \/ Forall (fun line => blank line = false) (split (rejoin text) NL)).
Proof.
  unfold rejoin.
  assert (Hkept : Forall (fun c => c <> [] /\ no_linebreak c /\ blank c = false)
                    (filter truthy (chunks_of text))).
  { apply Forall_forall. intros c Hc. now apply (kept_chunk text). }
  split.
  - rewrite splitlines_join.
    + eapply Forall_impl; [|exact Hkept]. simpl. tauto.
    + eapply Forall_impl; [|exact Hkept]. simpl. tauto.
  - destruct (filter truthy (chunks_of text)) as [|x l] eqn:Hf;
      [left; reflexivity|right].
    rewrite split_join; [| discriminate |].
    + eapply Forall_impl; [|exact Hkept]. simpl. tauto.
    + eapply Forall_impl; [|exact Hkept]. simpl. tauto.
Qed.

(** C6, as stated, fails: a page that is a script and nothing else is
    fetched and parsed without an exception, the text returned for it is
    empty, and the empty text split on the newline separator is one
    line, which is empty. *)
Lemma empty_extraction_splits_to_one_empty_line :
  requests_get Cases.script_only_world Sample.shop_url
  = Ok Cases.script_only_page
  /\ raise_for_status Cases.script_only_page = Ok tt
  /\ BeautifulSoup Cases.script_only_world (text Cases.script_only_page)
     = Ok Cases.script_only_document
  /\ run (scrape_website Cases.script_only_world Sample.shop_url)
     = (init, [HttpGet Sample.shop_url], Ok [])
  /\ split [] NL = [[]]
  /\ existsb blank (split [] NL) = true.
Proof. repeat split. Qed.

(** C6 (amended). When the extraction succeeds (nothing raised by the
    request, by [raise_for_status] or by the parser) and the returned
    text is not empty, no piece of it between two newline separators is
    empty or made of whitespace only; and of the lines [splitlines]
    gives the same holds, whether the text is empty or not. *)
Theorem extracted_text_has_no_blank_line
  (E : env) (url : str) (r : Response) (soup : document) :
  requests_get E url = Ok r ->
  raise_for_status r = Ok tt ->
  BeautifulSoup E (text r) = Ok soup ->
  exists extracted,
    outcome (scrape_website E url) = Ok extracted
    /\ Forall (fun line => blank line = false) (splitlines extracted)
    /\ (extracted <> [] ->
        Forall (fun line => blank line = false) (split extracted NL)).
Proof.
  intros Hget Hstatus Hparse. exists (page_text soup).
  rewrite scrape_website_outcome. unfold scraped.
  rewrite Hget, Hstatus, Hparse.
  split; [reflexivity|]. unfold page_text.
  destruct (rejoin_lines (get_text (remove_script_style soup)))
    as [Hlines [Hempty|Hsplit]].
  - split; [exact Hlines|]. intros Hne. now destruct Hne.
  - split; [exact Hlines|]. intros _. exact Hsplit.
Qed.

Lemma extracted_text_has_no_blank_line_witness :
  exists extracted,
    outcome (scrape_website Sample.shop_world Sample.shop_url) = Ok extracted
    /\ Forall (fun line => blank line = false) (splitlines extracted)
    /\ (extracted <> [] ->
        Forall (fun line => blank line = false) (split extracted NL)).
Proof.
  apply (extracted_text_has_no_blank_line Sample.shop_world Sample.shop_url
           Sample.page_200 Sample.shop_document); reflexivity.
Defined.

(** *** What the normalisation keeps *)

Lemma ink_app (a b : str) : ink (a ++ b) = ink a ++ ink b.
Proof. apply filter_app. Qed.

Lemma ink_rev (s : str) : ink (rev s) = rev (ink s).
Proof. apply filter_rev. Qed.

Lemma ink_lstrip (s : str) : ink (lstrip s) = ink s.
Proof.
  induction s as [|c s IH]; [reflexivity|]. simpl.
  destruct (isspace c) eqn:Hc; simpl; [exact IH|]. now rewrite Hc.
Qed.

Lemma ink_strip (s : str) : ink (strip s) = ink s.
Proof.
  unfold strip, rstrip.
  now rewrite ink_rev, ink_lstrip, ink_rev, rev_involutive, ink_lstrip.
Qed.

Lemma ink_space (c : char) (s : str) : isspace c = true -> ink (c :: s) = ink s.
Proof. intros H. unfold ink. simpl. now rewrite H. Qed.

Lemma ink_spaces (w : str) : forallb isspace w = true <-> ink w = [].
Proof.
  induction w as [|c w IH]; simpl; [tauto|].
  unfold ink. simpl. destruct (isspace c); simpl; [exact IH|].
  split; discriminate.
Qed.

Lemma is_linebreak_isspace (c : char) :
  is_linebreak c = true -> isspace c = true.
Proof.
  unfold is_linebreak, isspace.
  rewrite !orb_true_iff, !andb_true_iff, !N.leb_le, !N.eqb_eq. lia.
Qed.

Lemma ink_splitlines_go (n : nat) :
  forall s cur, List.length s <= n ->
  ink (List.concat (splitlines_go s cur)) = ink (rev cur ++ s).
Proof.
  induction n as [|n IH]; intros s cur Hlen.
  - destruct s; [|simpl in Hlen; lia]. simpl.
    destruct cur; simpl; now rewrite ?app_nil_r.
  - destruct s as [|c s'].
    { simpl. destruct cur; simpl; now rewrite ?app_nil_r. }
    simpl in Hlen. cbn [splitlines_go].
    destruct (is_linebreak c) eqn:Hc.
    + cbn [List.concat]. pose proof (is_linebreak_isspace c Hc) as Hsp.
      rewrite !ink_app, (ink_space c s' Hsp).
      f_equal.
      destruct (N.eqb_spec c CR) as [->|_]; [|now rewrite IH by lia].
      destruct s' as [|c' s'']; [now rewrite IH by (simpl; lia)|].
      destruct (N.eqb_spec c' LF) as [->|_].
      * rewrite IH by (simpl in *; lia). simpl rev. simpl app.
        now rewrite ink_space.
      * now rewrite IH by (simpl in *; lia).
    + rewrite IH by lia. simpl rev. now rewrite <- app_assoc.
Qed.

Lemma ink_splitlines (s : str) : ink (List.concat (splitlines s)) = ink s.
Proof. apply (ink_splitlines_go (List.length s)). lia. Qed.

Lemma startswith_split (s sep : str) :
  startswith s sep = true -> s = sep ++ skipn (List.length sep) s.
Proof.
  revert s. induction sep as [|p sep IH]; intros s H; [reflexivity|].
  destruct s as [|c s]; [discriminate|]. simpl in H.
  apply andb_true_iff in H. destruct H as [Hc H].
  apply N.eqb_eq in Hc. subst. simpl. f_equal. now apply IH.
Qed.

Lemma ink_split_go (sep : str) :
  sep <> [] -> forallb isspace sep = true ->
  forall s skip cur,
    forallb isspace (firstn skip s) = true ->
    ink (List.concat (split_go sep s skip cur)) = ink (rev cur ++ s).
Proof.
  intros Hne Hsep.
  induction s as [|c s IH]; intros skip cur Hskip.
  - simpl. now rewrite !app_nil_r.
  - simpl. destruct skip as [|k].
    + destruct (startswith (c :: s) sep) eqn:Hs.
      * simpl. rewrite !ink_app. f_equal.
        apply startswith_split in Hs.
        destruct sep as [|p sep']; [congruence|].
        simpl in Hs. injection Hs as -> Hs'.
        simpl in Hsep. apply andb_true_iff in Hsep. destruct Hsep as [Hp Hsep'].
        rewrite (ink_space _ s Hp).
        rewrite IH; [reflexivity|].
        replace (List.length (p :: sep') - 1) with (List.length sep')
          by (simpl; lia).
        rewrite Hs'.
        rewrite firstn_app, Nat.sub_diag, firstn_all. cbn [firstn].
        now rewrite app_nil_r.
      * rewrite IH by reflexivity. cbn [rev]. now rewrite <- app_assoc.
    + cbn [firstn forallb] in Hskip.
      apply andb_true_iff in Hskip. destruct Hskip as [Hc Hk].
      rewrite IH by exact Hk. rewrite !ink_app. now rewrite (ink_space _ _ Hc).
Qed.

Lemma ink_split_spaces (s : str) :
  ink (List.concat (split s (py "  "))) = ink s.
Proof.
  unfold split. rewrite ink_split_go; try reflexivity. discriminate.
Qed.

Lemma ink_concat_map (f : str -> str) (l : list str) :
  (forall x, ink (f x) = ink x) ->
  ink (List.concat (map f l)) = ink (List.concat l).
Proof.
  intros Hf. induction l as [|x l IH]; [reflexivity|].
  simpl. now rewrite !ink_app, Hf, IH.
Qed.

Lemma ink_concat_flat_map (f : str -> list str) (l : list str) :
  (forall x, ink (List.concat (f x)) = ink x) ->
  ink (List.concat (flat_map f l)) = ink (List.concat l).
Proof.
  intros Hf. induction l as [|x l IH]; [reflexivity|].
  simpl. now rewrite concat_app, !ink_app, Hf, IH.
Qed.

Lemma ink_chunks_of (text : str) : ink (List.concat (chunks_of text)) = ink text.
Proof.
  unfold chunks_of.
  rewrite ink_concat_flat_map.
  - rewrite ink_concat_map by apply ink_strip. apply ink_splitlines.
  - intros line. rewrite ink_concat_map by apply ink_strip.
    apply ink_split_spaces.
Qed.

Lemma concat_filter_truthy (l : list str) :
  List.concat (filter truthy l) = List.concat l.
Proof.
  induction l as [|x l IH]; [reflexivity|].
  destruct x; simpl; [exact IH|]. now rewrite IH.
Qed.

Lemma ink_join_NL (l : list str) : ink (join NL l) = ink (List.concat l).
Proof.
  induction l as [|x l IH]; [reflexivity|].
  destruct l as [|y l'].
  - simpl. now rewrite app_nil_r.
  - change (join NL (x :: y :: l')) with (x ++ LF :: join NL (y :: l')).
    change (List.concat (x :: y :: l')) with (x ++ List.concat (y :: l')).
    rewrite !ink_app, ink_space by reflexivity. now rewrite IH.
Qed.

Lemma ink_rejoin (text : str) : ink (rejoin text) = ink text.
Proof.
  unfold rejoin. now rewrite ink_join_NL, concat_filter_truthy, ink_chunks_of.
Qed.

Lemma kept_chunks_nonblank (text : str) :
  Forall (fun c => c <> [] /\ no_linebreak c /\ blank c = false)
    (filter truthy (chunks_of text)).
Proof. apply Forall_forall. intros c Hc. now apply (kept_chunk text). Qed.

Lemma rejoin_empty_iff (text : str) : rejoin text = [] <-> blank text = true.
Proof.
  unfold blank. rewrite ink_spaces. split; intros H.
  - now rewrite <- ink_rejoin, H.
  - rewrite <- ink_rejoin in H. unfold rejoin in *.
    pose proof (kept_chunks_nonblank text) as Hk.
    destruct (filter truthy (chunks_of text)) as [|x l]; [reflexivity|].
    exfalso. inversion Hk as [|? ? (_ & _ & Hb) _]; subst.
    rewrite ink_join_NL in H. simpl in H. rewrite ink_app in H.
    apply app_eq_nil in H. destruct H as [H _].
    apply ink_spaces in H. unfold blank in Hb. congruence.
Qed.

(** Occurrence as a substring. *)
Lemma contains_infix (sub t : str) :
  contains sub t = true <-> exists pre post, t = pre ++ sub ++ post.
Proof.
  split.
  - induction t as [|c t IH]; intros H.
    + simpl in H. rewrite orb_false_r in H.
      exists [], []. destruct sub; [reflexivity|discriminate].
    + change (contains sub (c :: t))
        with (startswith (c :: t) sub || contains sub t) in H.
      apply orb_true_iff in H. destruct H as [H|H].
      * exists [], (skipn (List.length sub) (c :: t)).
        exact (startswith_split _ _ H).
      * destruct (IH H) as (pre & post & ->). now exists (c :: pre), post.
  - intros (pre & post & ->). induction pre as [|c pre IH].
    + cbn [app]. destruct (sub ++ post) as [|c0 l] eqn:Hsp.
      * destruct sub; [reflexivity|discriminate].
      * change (contains sub (c0 :: l))
          with (startswith (c0 :: l) sub || contains sub l).
        rewrite <- Hsp. now rewrite startswith_app.
    + change (contains sub ((c :: pre) ++ sub ++ post))
        with (startswith ((c :: pre) ++ sub ++ post) sub
              || contains sub (pre ++ sub ++ post)).
      rewrite IH. apply orb_true_r.
Qed.

(** A text that occurs in another still occurs in it when the whitespace
    of both is left out. *)
Lemma contains_ink (sub t : str) :
  contains sub t = true -> contains (ink sub) (ink t) = true.
Proof.
  intros H. apply contains_infix in H. destruct H as (pre & post & ->).
  apply contains_infix. exists (ink pre), (ink post).
  now rewrite !ink_app.
Qed.

(** ** Script and style elements *)

(** Induction on a document tree, with the hypothesis for every child. *)
Lemma node_forall_ind (P : node -> Prop) :
  (forall s, P (NavigableString s)) ->
  (forall s, P (Comment s)) ->
  (forall u name contents, Forall P contents -> P (Tag u name contents)) ->
  forall n, P n.
Proof.
  intros Hs Hc Ht. fix IH 1. intros [s|s|u name contents].
  - apply Hs.
  - apply Hc.
  - apply Ht. induction contents as [|c cs IHcs]; constructor.
    + apply IH.
    + exact IHcs.
Qed.

Lemma listed_nil (n : node) : listed [] n = false.
Proof. now destruct n. Qed.

Lemma prune_in_nil (n : node) : prune_in [] n = n.
Proof.
  induction n as [s|s|u name contents IH] using node_forall_ind;
    try reflexivity.
  simpl. f_equal.
  induction IH as [|c cs Hc _ IHcs]; simpl; [reflexivity|].
  now rewrite listed_nil, Hc, IHcs.
Qed.

Lemma prune_nil (doc : document) : prune [] doc = doc.
Proof.
  unfold prune. induction doc as [|c cs IH]; simpl; [reflexivity|].
  now rewrite listed_nil, prune_in_nil, IH.
Qed.

Lemma is_object_prune_in (i : nat) (ids : list nat) (n : node) :
  is_object i (prune_in ids n) = is_object i n.
Proof. now destruct n. Qed.

Lemma listed_cons (i : nat) (ids : list nat) (n : node) :
  listed (i :: ids) n = is_object i n || listed ids n.
Proof. now destruct n. Qed.

Lemma detach_prune_in (i : nat) (ids : list nat) (n : node) :
  detach i (prune_in ids n) = prune_in (i :: ids) n.
Proof.
  induction n as [s|s|u name contents IH] using node_forall_ind;
    try reflexivity.
  simpl. f_equal.
  induction IH as [|c cs Hc _ IHcs]; [reflexivity|].
  cbn [flat_map]. rewrite listed_cons.
  destruct (listed ids c) eqn:Hl.
  - rewrite orb_true_r. exact IHcs.
  - rewrite orb_false_r. cbn [app flat_map].
    rewrite is_object_prune_in.
    destruct (is_object i c); cbn [app]; [exact IHcs|].
    now rewrite Hc, IHcs.
Qed.

(** Extracting one more object from a pruned document. *)
Lemma extract_prune (i : nat) (name : str) (contents : list node)
  (ids : list nat) (doc : document) :
  extract (Tag i name contents) (prune ids doc) = prune (i :: ids) doc.
Proof.
  unfold extract, prune.
  induction doc as [|c cs IH]; [reflexivity|].
  cbn [flat_map]. rewrite listed_cons.
  destruct (listed ids c) eqn:Hl.
  - rewrite orb_true_r. exact IH.
  - rewrite orb_false_r. cbn [app flat_map].
    rewrite is_object_prune_in.
    destruct (is_object i c); cbn [app]; [exact IH|].
    now rewrite detach_prune_in, IH.
Qed.

Lemma extract_loop (els : list node) :
  forall ids doc,
    fold_left (fun d script => extract script d) els (prune ids doc)
    = prune (rev (uids_of els) ++ ids) doc.
Proof.
  induction els as [|el els IH]; intros ids doc; [reflexivity|].
  cbn [fold_left]. destruct el as [s|s|i name contents].
  - apply IH.
  - apply IH.
  - rewrite extract_prune, IH. cbn [uids_of flat_map app rev].
    now rewrite <- app_assoc.
Qed.

Lemma remove_script_style_prune (doc : document) :
  remove_script_style doc
  = prune (rev (uids_of (find_all [py "script"; py "style"] doc))) doc.
Proof.
  unfold remove_script_style.
  rewrite <- (prune_nil doc) at 2. rewrite extract_loop.
  now rewrite app_nil_r.
Qed.

Lemma uids_of_app (a b : list node) : uids_of (a ++ b) = uids_of a ++ uids_of b.
Proof. unfold uids_of. apply flat_map_app. Qed.

(** The objects [find_all] returns are the tags with a listed name. *)
Lemma uids_of_find_all_in (names : list str) (n : node) :
  uids_of (find_all_in names n)
  = map fst (filter (fun t => name_in names (snd t)) (tags_in n)).
Proof.
  induction n as [s|s|u name contents IH] using node_forall_ind;
    try reflexivity.
  cbn [find_all_in tags_in filter snd]. rewrite uids_of_app.
  assert (Hrest :
    uids_of (flat_map (find_all_in names) contents)
    = map fst (filter (fun t => name_in names (snd t))
                 (flat_map tags_in contents))).
  { induction IH as [|c cs Hc _ IHcs]; [reflexivity|].
    cbn [flat_map]. now rewrite uids_of_app, filter_app, map_app, Hc, IHcs. }
  rewrite Hrest. now destruct (name_in names name).
Qed.

Lemma uids_of_find_all (names : list str) (doc : document) :
  uids_of (find_all names doc)
  = map fst (filter (fun t => name_in names (snd t)) (tags doc)).
Proof.
  unfold find_all, tags. induction doc as [|c cs IH]; [reflexivity|].
  cbn [flat_map].
  now rewrite uids_of_app, filter_app, map_app, uids_of_find_all_in, IH.
Qed.

Lemma NoDup_map_fst_functional {A B} (l : list (A * B)) (a : A) (b b' : B) :
  NoDup (map fst l) -> In (a, b) l -> In (a, b') l -> b = b'.
Proof.
  induction l as [|[x y] l IH]; simpl; intros Hnd Hb Hb'; [destruct Hb|].
  inversion Hnd as [|? ? Hx Hl]; subst.
  destruct Hb as [Hb|Hb]; destruct Hb' as [Hb'|Hb'].
  - congruence.
  - exfalso. apply Hx. injection Hb as -> _.
    apply (in_map fst) in Hb'. exact Hb'.
  - exfalso. apply Hx. injection Hb' as -> _.
    apply (in_map fst) in Hb. exact Hb.
  - now apply IH.
Qed.

Lemma existsb_eqb_In (u : nat) (ids : list nat) :
  existsb (Nat.eqb u) ids = true <-> In u ids.
Proof.
  rewrite existsb_exists. split.
  - intros (x & Hx & Hux). apply Nat.eqb_eq in Hux. now subst.
  - intros H. exists u. split; [exact H|apply Nat.eqb_refl].
Qed.

(** With distinct objects, the identities [find_all] collects are those
    of the script and style tags and of no other tag. *)
Lemma found_iff_hidden (doc : document) (u : nat) (name : str) :
  distinct_objects doc -> In (u, name) (tags doc) ->
  existsb (Nat.eqb u)
    (rev (uids_of (find_all [py "script"; py "style"] doc)))
  = hidden name.
Proof.
  intros Hnd Hin. rewrite uids_of_find_all.
  destruct (hidden name) eqn:Hh.
  - apply existsb_eqb_In. apply -> in_rev.
    change u with (fst (u, name)). apply in_map.
    apply filter_In. split; [exact Hin|exact Hh].
  - destruct (existsb _ _) eqn:He; [|reflexivity].
    apply existsb_eqb_In in He. apply in_rev in He.
    apply in_map_iff in He. destruct He as ([u' name'] & Hu & Hf).
    simpl in Hu. subst u'. apply filter_In in Hf. destruct Hf as [Hin' Hh'].
    change (hidden name' = true) in Hh'.
    rewrite (NoDup_map_fst_functional _ _ _ _ Hnd Hin Hin') in Hh.
    congruence.
Qed.

Lemma get_text_prune_in (ids : list nat) (n : node) :
  (forall u name, In (u, name) (tags_in n) ->
                  existsb (Nat.eqb u) ids = hidden name) ->
  flat_map get_text_in (if listed ids n then [] else [prune_in ids n])
  = visible_in n.
Proof.
  induction n as [s|s|u name contents IH] using node_forall_ind; intros H.
  - simpl. apply app_nil_r.
  - reflexivity.
  - cbn [listed visible_in]. rewrite (H u name (or_introl eq_refl)).
    destruct (hidden name); [reflexivity|].
    cbn [flat_map prune_in get_text_in]. rewrite app_nil_r.
    assert (Hsub : forall v nm, In (v, nm) (flat_map tags_in contents) ->
                                existsb (Nat.eqb v) ids = hidden nm).
    { intros v nm Hv. apply H. now right. }
    clear H. induction IH as [|c cs Hc _ IHcs]; [reflexivity|].
    cbn [flat_map]. rewrite flat_map_app. f_equal.
    + apply Hc. intros v nm Hv. apply Hsub. cbn [flat_map].
      apply in_or_app. now left.
    + apply IHcs. intros v nm Hv. apply Hsub. cbn [flat_map].
      apply in_or_app. now right.
Qed.

Lemma get_text_prune (ids : list nat) (doc : document) :
  (forall u name, In (u, name) (tags doc) ->
                  existsb (Nat.eqb u) ids = hidden name) ->
  get_text (prune ids doc) = visible_text doc.
Proof.
  unfold get_text, prune, visible_text, tags.
  induction doc as [|c cs IH]; intros H; [reflexivity|].
  cbn [flat_map]. rewrite flat_map_app. f_equal.
  - apply get_text_prune_in. intros u nm Hu. apply H. cbn [flat_map].
    apply in_or_app. now left.
  - apply IH. intros u nm Hu. apply H. cbn [flat_map].
    apply in_or_app. now right.
Qed.

(** The loop of [extract] calls followed by [get_text] yields the
    strings outside the script and style elements. *)
Lemma get_text_remove_script_style (doc : document) :
  distinct_objects doc ->
  get_text (remove_script_style doc) = visible_text doc.
Proof.
  intros Hnd. rewrite remove_script_style_prune.
  apply get_text_prune. intros u nm Hin. now apply found_iff_hidden.
Qed.

(** The visible text does not depend on what script and style elements
    contain. *)
Lemma flat_map_same_outside (cs cs' : list node) :
  Forall2 same_outside cs cs' ->
  Forall (fun c => forall c', same_outside c c' -> visible_in c = visible_in c')
    cs ->
  flat_map visible_in cs = flat_map visible_in cs'.
Proof.
  induction 1 as [|c c' cs cs' Hc _ IH]; intros Hall; [reflexivity|].
  inversion Hall as [|? ? Hhead Htail]; subst.
  cbn [flat_map]. now rewrite (Hhead c' Hc), IH.
Qed.

Lemma visible_in_same_outside (n : node) :
  forall n', same_outside n n' -> visible_in n = visible_in n'.
Proof.
  induction n as [s|s|u name contents IH] using node_forall_ind;
    intros n' H; inversion H; subst; try reflexivity.
  - cbn [visible_in]. match goal with Hh : hidden _ = true |- _ =>
      now rewrite Hh end.
  - cbn [visible_in]. destruct (hidden name); [reflexivity|].
    now apply flat_map_same_outside.
Qed.

Lemma visible_text_same_outside (doc doc' : document) :
  Forall2 same_outside doc doc' -> visible_text doc = visible_text doc'.
Proof.
  unfold visible_text. induction 1 as [|c c' cs cs' Hc _ IH]; [reflexivity|].
  cbn [flat_map]. now rewrite (visible_in_same_outside c c' Hc), IH.
Qed.

(** C5, as stated, fails: the script of this page holds the very text
    its heading shows; the extraction succeeds and the returned text is
    that text, so it contains text that appeared inside a script
    block. *)
Lemma script_text_shown_elsewhere_is_returned :
  requests_get Cases.repeated_world Sample.shop_url = Ok Cases.repeated_page
  /\ raise_for_status Cases.repeated_page = Ok tt
  /\ BeautifulSoup Cases.repeated_world (text Cases.repeated_page)
     = Ok Cases.repeated_document
  /\ map get_text_in
       (find_all [py "script"; py "style"] Cases.repeated_document)
     = [py "Sale"]
  /\ outcome (scrape_website Cases.repeated_world Sample.shop_url)
     = Ok (py "Sale")
  /\ contains (py "Sale") (py "Sale") = true.
Proof. repeat split. Qed.

(** C5 (amended). When the extraction succeeds (nothing raised by the
    request, by [raise_for_status] or by the parser), the returned text
    is the normalised text of the page outside its script and style
    elements, and nothing inside them contributes to it: a text that
    does not occur outside those elements, whitespace aside, does not
    occur in the returned text, and a page that differs from this one
    only inside its script and style elements yields the same text. *)
Theorem script_and_style_text_is_dropped
  (E : env) (url : str) (r : Response) (soup : document) :
  requests_get E url = Ok r ->
  raise_for_status r = Ok tt ->
  BeautifulSoup E (text r) = Ok soup ->
  distinct_objects soup ->
  run (scrape_website E url)
  = (init, [HttpGet url], Ok (rejoin (visible_text soup)))
  /\ (forall s,
        contains (ink s) (ink (visible_text soup)) = false ->
        contains s (rejoin (visible_text soup)) = false)
  /\ forall (E' : env) (url' : str) (r' : Response) (soup' : document),
       requests_get E' url' = Ok r' ->
       raise_for_status r' = Ok tt ->
       BeautifulSoup E' (text r') = Ok soup' ->
       distinct_objects soup' ->
       Forall2 same_outside soup soup' ->
       outcome (scrape_website E' url') = outcome (scrape_website E url).
Proof.
  intros Hget Hstatus Hparse Hnd.
  assert (Hrun : forall E0 url0 r0 soup0,
             requests_get E0 url0 = Ok r0 -> raise_for_status r0 = Ok tt ->
             BeautifulSoup E0 (text r0) = Ok soup0 ->
             distinct_objects soup0 ->
             scraped E0 url0 = rejoin (visible_text soup0)).
  { intros E0 url0 r0 soup0 H1 H2 H3 H4. unfold scraped, page_text.
    now rewrite H1, H2, H3, get_text_remove_script_style. }
  split; [|split].
  - unfold run. rewrite scrape_website_run.
    now rewrite (Hrun E url r soup).
  - intros s Hs.
    destruct (contains s (rejoin (visible_text soup))) eqn:Hc; [|reflexivity].
    apply contains_ink in Hc. rewrite ink_rejoin in Hc. congruence.
  - intros E' url' r' soup' Hget' Hstatus' Hparse' Hnd' Hsame.
    rewrite !scrape_website_outcome.
    rewrite (Hrun E url r soup), (Hrun E' url' r' soup') by assumption.
    now rewrite (visible_text_same_outside _ _ Hsame).
Qed.

Lemma script_and_style_text_is_dropped_witness :
  run (scrape_website Sample.shop_world Sample.shop_url)
  = (init, [HttpGet Sample.shop_url],
     Ok (rejoin (visible_text Sample.shop_document)))
  /\ (forall s,
        contains (ink s) (ink (visible_text Sample.shop_document)) = false ->
        contains s (rejoin (visible_text Sample.shop_document)) = false)
  /\ forall (E' : env) (url' : str) (r' : Response) (soup' : document),
       requests_get E' url' = Ok r' ->
       raise_for_status r' = Ok tt ->
       BeautifulSoup E' (text r') = Ok soup' ->
       distinct_objects soup' ->
       Forall2 same_outside Sample.shop_document soup' ->
       outcome (scrape_website E' url')
       = outcome (scrape_website Sample.shop_world Sample.shop_url).
Proof.
  apply (script_and_style_text_is_dropped Sample.shop_world Sample.shop_url
           Sample.page_200 Sample.shop_document).
  - reflexivity.
  - reflexivity.
  - reflexivity.
  - unfold distinct_objects. simpl.
    repeat (constructor; [simpl; intuition discriminate|]). constructor.
Defined.

Example visible_text_shop :
  visible_text Sample.shop_document
  = py "Coffee" ++ NL ++ py "Our coffee  is organic" ++ NL
    ++ py " fair-trade, locally roasted. ".
Proof. reflexivity. Qed.

(** A script inside an element that is itself removed: the loop
    extracts the outer object, then the inner one from the detached
    tree, and the document is left without either. *)
Example nested_blocks_removed :
  remove_script_style
    [ Tag 1 (py "div")
        [ NavigableString (py "a");
          Tag 2 (py "style")
            [ NavigableString (py "b");
              Tag 3 (py "script") [NavigableString (py "c")] ];
          NavigableString (py "d") ] ]
  = [ Tag 1 (py "div") [NavigableString (py "a"); NavigableString (py "d")] ].
Proof. reflexivity. Qed.

(** ** Field defaults *)



Lemma for_each_emit {A} (f : A -> event) (l : list A) (st : locals) :
  for_each l (fun h => emit (f h)) st = (st, map f l, Ok tt).
Proof.
  revert st. induction l as [|x l IH]; intros st; [reflexivity|].
  cbn [for_each map]. unfold bind.
  change (emit (f x) st) with (st, [f x], Ok tt). cbv beta iota.
  rewrite IH. reflexivity.
Qed.

Lemma for_each_logged {A} (f : A -> event) (l : list A) (st : locals) :
  for_each l (fun h st' => (st', [f h], Ok tt)) st = (st, map f l, Ok tt).
Proof. exact (for_each_emit f l st). Qed.







Example display_partial_reply :
  run (display Sample.shop_world
         (VDict [(py "verdict", VStr (py "pass")); (py "score", VInt 91)]))
  = (init,
     [StMetric (py "Quality Score") (VInt 91);
      StSuccess (py "Verdict: PASS");
      StMarkdown (py "### Tone Analysis");
      StWrite (VStr (py "N/A"));
      StSuccess (py "No factual hallucinations detected.")],
     Ok tt).
Proof. vm_compute. reflexivity. Qed.

Example display_ill_typed_verdict :
  run (display Sample.shop_world (VDict [(py "verdict", VNone)]))
  = (init, [StMetric (py "Quality Score") (VInt 0)],
     Raise (py "'NoneType' object has no attribute 'upper'")).
Proof. vm_compute. reflexivity. Qed.

(** ** Fenced replies *)

Lemma lstrip_spaces (w s : str) :
  forallb isspace w = true -> lstrip (w ++ s) = lstrip s.
Proof.
  induction w as [|c w IH]; simpl; [reflexivity|].
  intros H. apply andb_true_iff in H. destruct H as [Hc Hw].
  rewrite Hc. now apply IH.
Qed.

Lemma forallb_rev {A} (f : A -> bool) (l : list A) :
  forallb f (rev l) = forallb f l.
Proof.
  induction l as [|x l IH]; simpl; [reflexivity|].
  rewrite forallb_app, IH. simpl. rewrite andb_true_r. apply andb_comm.
Qed.

(** [strip] removes the whitespace around a text whose first and last
    characters are not whitespace. *)
Lemma strip_around (w1 w2 inner : str) (a b : char) :
  forallb isspace w1 = true -> forallb isspace w2 = true ->
  isspace a = false -> isspace b = false ->
  strip (w1 ++ (a :: inner ++ [b]) ++ w2) = a :: inner ++ [b].
Proof.
  intros H1 H2 Ha Hb. unfold strip, rstrip.
  rewrite lstrip_spaces by exact H1.
  cbn [app lstrip]. rewrite Ha.
  change (a :: (inner ++ [b]) ++ w2) with ((a :: inner ++ [b]) ++ w2).
  rewrite rev_app_distr, lstrip_spaces by (now rewrite forallb_rev).
  change (a :: inner ++ [b]) with ((a :: inner) ++ [b]).
  rewrite rev_app_distr. cbn [rev app lstrip]. rewrite Hb.
  change (b :: rev inner ++ [a]) with ([b] ++ rev (a :: inner)).
  now rewrite rev_app_distr, rev_involutive.
Qed.

Lemma strip_bare (inner : str) (a b : char) :
  isspace a = false -> isspace b = false ->
  strip (a :: inner ++ [b]) = a :: inner ++ [b].
Proof.
  intros Ha Hb.
  pose proof (strip_around [] [] inner a b eq_refl eq_refl Ha Hb) as H.
  cbn [app] in H. now rewrite app_nil_r in H.
Qed.

Lemma split_go_skip (sep a tail cur : str) :
  split_go sep (a ++ tail) (List.length a) cur = split_go sep tail 0 cur.
Proof. induction a as [|x a IH]; simpl; [reflexivity|exact IH]. Qed.

(** [split] cuts at the first place where the separator starts. *)
Lemma split_go_until (sep body tail : str) :
  sep <> [] ->
  forall cur,
    (forall pre post, body = pre ++ post -> post <> [] ->
                      startswith (post ++ sep ++ tail) sep = false) ->
    split_go sep (body ++ sep ++ tail) 0 cur
    = rev (rev body ++ cur) :: split_go sep tail 0 [].
Proof.
  intros Hsep. induction body as [|x b IH]; intros cur H.
  - destruct sep as [|c sep']; [congruence|].
    cbn [app rev]. cbn [split_go].
    change (c :: sep' ++ tail) with ((c :: sep') ++ tail).
    rewrite startswith_app.
    replace (List.length (c :: sep') - 1) with (List.length sep')
      by (simpl; lia).
    now rewrite split_go_skip.
  - cbn [app]. cbn [split_go].
    change (x :: b ++ sep ++ tail) with ((x :: b) ++ sep ++ tail).
    rewrite (H [] (x :: b) eq_refl) by discriminate.
    rewrite IH.
    + cbn [rev]. now rewrite <- app_assoc.
    + intros pre post -> Hpost. now apply (H (x :: pre) post).
Qed.

Lemma contains_false_suffix (sub : str) :
  forall pre post,
    contains sub (pre ++ post) = false -> startswith post sub = false.
Proof.
  induction pre as [|x pre IH]; intros post H.
  - destruct post; simpl in H; apply orb_false_iff in H; tauto.
  - apply IH. simpl in H. apply orb_false_iff in H. tauto.
Qed.

Lemma isspace_not_backquote (c : char) :
  isspace c = true -> N.eqb c BACKQUOTE = false.
Proof.
  intros H. destruct (N.eqb_spec c BACKQUOTE) as [->|]; [discriminate|].
  reflexivity.
Qed.

Lemma contains_fence_cons (c : char) (s : str) :
  N.eqb c BACKQUOTE = false -> contains FENCE (c :: s) = contains FENCE s.
Proof.
  intros H. change (contains FENCE (c :: s))
    with (startswith (c :: s) FENCE || contains FENCE s).
  unfold FENCE at 1. cbn [py map list_ascii_of_string startswith].
  change (N_of_ascii "`") with BACKQUOTE. now rewrite H.
Qed.

Lemma contains_fence_spaces (w s : str) :
  forallb isspace w = true -> contains FENCE (w ++ s) = contains FENCE s.
Proof.
  induction w as [|c w IH]; intros H; [reflexivity|].
  simpl in H. apply andb_true_iff in H. destruct H as [Hc Hw].
  cbn [app]. rewrite contains_fence_cons by (now apply isspace_not_backquote).
  now apply IH.
Qed.

Lemma startswith_fence_break (a b : str) (c : char) :
  N.eqb c BACKQUOTE = false ->
  startswith (a ++ c :: b) FENCE = startswith (a ++ [c]) FENCE.
Proof.
  intros Hc. unfold FENCE. cbn [py map list_ascii_of_string].
  change (N_of_ascii "`") with BACKQUOTE.
  destruct a as [|x1 [|x2 [|x3 a]]]; cbn [app startswith];
    rewrite ?Hc, ?andb_false_r; reflexivity.
Qed.

(** A character that is not a backquote separates the occurrences of the
    fence before it from those after it. *)
Lemma contains_fence_break (a b : str) (c : char) :
  N.eqb c BACKQUOTE = false ->
  contains FENCE (a ++ c :: b) = contains FENCE (a ++ [c]) || contains FENCE b.
Proof.
  intros Hc. induction a as [|x a IH].
  - cbn [app]. rewrite !contains_fence_cons by exact Hc. reflexivity.
  - change (contains FENCE ((x :: a) ++ c :: b))
      with (startswith ((x :: a) ++ c :: b) FENCE
            || contains FENCE (a ++ c :: b)).
    change (contains FENCE ((x :: a) ++ [c]))
      with (startswith ((x :: a) ++ [c]) FENCE || contains FENCE (a ++ [c])).
    rewrite IH, (startswith_fence_break (x :: a) b c Hc).
    now rewrite orb_assoc.
Qed.

Lemma startswith_fence_short (post : str) :
  post <> [] ->
  startswith (post ++ FENCE) FENCE = startswith (post ++ py "``") FENCE.
Proof.
  intros H. destruct post as [|x [|y [|z post]]]; [congruence| | |];
    reflexivity.
Qed.

(** The parts of a fenced reply whose body holds no fence. *)
Lemma split_fenced (body : str) :
  contains FENCE (body ++ py "``") = false ->
  split (FENCE ++ body ++ FENCE) FENCE = [[]; body; []].
Proof.
  intros H. unfold split.
  assert (Hsep : FENCE <> []) by discriminate.
  change (FENCE ++ body ++ FENCE) with ([] ++ FENCE ++ body ++ FENCE).
  rewrite (split_go_until FENCE [] (body ++ FENCE) Hsep []).
  2:{ intros pre post Hpp Hpost. destruct pre; [|discriminate].
      simpl in Hpp. congruence. }
  f_equal.
  replace (body ++ FENCE) with (body ++ FENCE ++ [])
    by (now rewrite app_nil_r).
  rewrite (split_go_until FENCE body [] Hsep []).
  - cbn [split_go rev]. now rewrite app_nil_r, rev_involutive.
  - intros pre post -> Hpost. rewrite app_nil_r.
    rewrite startswith_fence_short by exact Hpost.
    apply (contains_false_suffix FENCE pre). now rewrite <- app_assoc in H.
Qed.

(** A reply that wraps an object's text in a "json" fence, the text
    holding no fence itself, is normalised to that text, and so is
    parsed as the bare text is. *)
Lemma fence_free_reply_parses_alike (E : env) (inner w1 w2 : str) :
  let payload := py "{" ++ inner ++ py "}" in
  contains FENCE payload = false ->
  forallb isspace w1 = true -> forallb isspace w2 = true ->
  clean_response (fenced w1 payload w2) = payload
  /\ clean_response payload = payload
  /\ parse_reply E (fenced w1 payload w2) = parse_reply E payload.
Proof.
  intros payload Hfree H1 H2.
  assert (Hbare : clean_response payload = payload).
  { unfold clean_response, payload.
    change (py "{" ++ inner ++ py "}") with (123%N :: inner ++ [125%N]).
    rewrite !strip_bare by reflexivity.
    change (startswith (123%N :: inner ++ [125%N]) (py "```")) with false.
    cbv iota. now apply strip_bare. }
  assert (Hfenced : clean_response (fenced w1 payload w2) = payload).
  { unfold clean_response, fenced.
    set (body := py "json" ++ w1 ++ payload ++ w2).
    assert (Hreply : FENCE ++ py "json" ++ w1 ++ payload ++ w2 ++ FENCE
                     = FENCE ++ body ++ FENCE).
    { unfold body. now rewrite <- !app_assoc. }
    rewrite Hreply.
    assert (Hstrip : strip (FENCE ++ body ++ FENCE) = FENCE ++ body ++ FENCE).
    { replace (FENCE ++ body ++ FENCE)
        with (BACKQUOTE :: ([BACKQUOTE; BACKQUOTE] ++ body
                            ++ [BACKQUOTE; BACKQUOTE]) ++ [BACKQUOTE]).
      - now apply strip_bare.
      - unfold FENCE. cbn [py map list_ascii_of_string app].
        change (N_of_ascii "`") with BACKQUOTE.
        rewrite <- !app_assoc. reflexivity. }
    rewrite Hstrip, startswith_app.
    rewrite split_fenced.
    - cbn [List.length Nat.leb nth]. unfold body at 1.
      rewrite startswith_app. unfold body, slice_from.
      cbn [py map list_ascii_of_string app skipn].
      unfold payload.
      change (py "{" ++ inner ++ py "}") with (123%N :: inner ++ [125%N]).
      now apply strip_around.
    - replace (body ++ py "``")
        with (py "json"
              ++ w1 ++ (123%N :: inner) ++ 125%N :: w2 ++ py "``").
      2:{ unfold body, payload. cbn [py map list_ascii_of_string app].
          repeat first [rewrite <- app_assoc | progress cbn [app]].
          reflexivity. }
      cbn [py map list_ascii_of_string app].
      rewrite !contains_fence_cons by reflexivity.
      rewrite (contains_fence_spaces w1) by exact H1.
      rewrite contains_fence_cons by reflexivity.
      rewrite (contains_fence_break inner) by reflexivity.
      rewrite (contains_fence_spaces w2) by exact H2.
      unfold payload in Hfree.
      change (py "{" ++ inner ++ py "}") with (123%N :: inner ++ [125%N])
        in Hfree.
      rewrite contains_fence_cons in Hfree by reflexivity.
      apply orb_false_iff. split; [exact Hfree|reflexivity]. }
  repeat split; [exact Hfenced|exact Hbare|].
  unfold parse_reply. now rewrite Hfenced, Hbare.
Qed.

(** ** The decoder terminates within its fuel *)

Import Json.

Lemma skip_ws_length (s : str) :
  forall idx, List.length (fst (skip_ws s idx)) <= List.length s.
Proof.
  induction s as [|c s IH]; intros idx; simpl; [lia|].
  destruct (is_ws c); simpl; [|lia]. specialize (IH (S idx)). lia.
Qed.

Lemma skip_ws_shorter (s s' : str) (idx idx' : nat) :
  skip_ws s idx = (s', idx') -> List.length s' <= List.length s.
Proof.
  intros H. pose proof (skip_ws_length s idx) as L. now rewrite H in L.
Qed.

Lemma take_digits_length (s : str) :
  List.length (snd (take_digits s)) <= List.length s.
Proof.
  induction s as [|c s IH]; simpl; [lia|].
  destruct (is_digit c); simpl; [|lia].
  destruct (take_digits s); simpl in *. lia.
Qed.

Lemma take_digits_shorter (s ds rest : str) :
  take_digits s = (ds, rest) -> List.length rest <= List.length s.
Proof.
  intros H. pose proof (take_digits_length s) as L. now rewrite H in L.
Qed.

Lemma scanstring_shorter (n : nat) :
  forall s idx begin acc x rest i,
    List.length s <= n ->
    scanstring s idx begin acc = Parsed x rest i ->
    List.length rest < List.length s.
Proof.
  induction n as [|n IH]; intros s idx begin acc x rest i Hlen H.
  - destruct s; [discriminate|simpl in Hlen; lia].
  - destruct s as [|c s1]; [discriminate|].
    cbn [scanstring] in H. simpl in Hlen.
    repeat match type of H with
           | (if ?b then _ else _) = _ => destruct b eqn:?
           | match ?x with _ => _ end = _ => destruct x eqn:?
           end;
      try discriminate;
      try (injection H as <- <- <-; simpl; lia);
      try (apply IH in H; simpl in *; lia).
Qed.

Lemma sign_part_shorter (s sg rest : str) :
  sign_part s = (sg, rest) -> List.length rest <= List.length s.
Proof.
  destruct s as [|c s']; simpl; [intros [= _ <-]; simpl; lia|].
  destruct (c =? 45)%N; intros [= _ <-]; simpl; lia.
Qed.

Lemma int_part_shorter (s ds rest : str) :
  int_part s = Some (ds, rest) -> List.length rest < List.length s.
Proof.
  destruct s as [|c s']; simpl; [discriminate|].
  destruct (c =? 48)%N; [intros [= _ <-]; lia|].
  destruct (is_digit c); [|discriminate].
  destruct (take_digits s') as [d r] eqn:Ht. intros [= _ <-].
  apply take_digits_shorter in Ht. lia.
Qed.

Lemma frac_part_shorter (s fr rest : str) :
  frac_part s = (fr, rest) -> List.length rest <= List.length s.
Proof.
  destruct s as [|dot [|d s']]; simpl; try (intros [= _ <-]; simpl; lia).
  destruct ((dot =? 46)%N && is_digit d); [|intros [= _ <-]; simpl; lia].
  destruct (take_digits s') as [f r] eqn:Ht. intros [= _ <-].
  apply take_digits_shorter in Ht. simpl. lia.
Qed.

Lemma exp_part_shorter (s ex rest : str) :
  exp_part s = (ex, rest) -> List.length rest <= List.length s.
Proof.
  destruct s as [|e s']; simpl; [intros [= _ <-]; simpl; lia|].
  destruct ((e =? 101)%N || (e =? 69)%N); [|intros [= _ <-]; simpl; lia].
  destruct s' as [|g t].
  - simpl. intros [= _ <-]. simpl. lia.
  - destruct ((g =? 45)%N || (g =? 43)%N).
    + destruct (take_digits t) as [[|d ds] r] eqn:Ht; intros [= _ <-];
        [simpl; lia|]. apply take_digits_shorter in Ht. simpl. lia.
    + destruct (take_digits (g :: t)) as [[|d ds] r] eqn:Ht; intros [= _ <-];
        [simpl; lia|]. apply take_digits_shorter in Ht. simpl in *. lia.
Qed.

Lemma match_number_shorter (s : str) (idx : nat) (v : value) (rest : str)
  (i : nat) :
  match_number s idx = Some (v, rest, i) -> List.length rest < List.length s.
Proof.
  unfold match_number.
  destruct (sign_part s) as [sg s1] eqn:H1.
  destruct (int_part s1) as [[ds s2]|] eqn:H2; [|discriminate].
  destruct (frac_part s2) as [fr s3] eqn:H3.
  destruct (exp_part s3) as [ex s4] eqn:H4.
  intros [= _ <- _].
  apply sign_part_shorter in H1. apply int_part_shorter in H2.
  apply frac_part_shorter in H3. apply exp_part_shorter in H4. lia.
Qed.

Lemma skipn_shorter (n : nat) (s : str) :
  0 < n -> s <> [] -> List.length (skipn n s) < List.length s.
Proof.
  intros Hn Hs. rewrite length_skipn. destruct s; [congruence|].
  cbn [List.length]. lia.
Qed.

Lemma scans_consume (fuel : nat) :
  (forall s idx, consumes s (scan_once fuel s idx))
  /\ (forall s idx acc, consumes s (members fuel s idx acc))
  /\ (forall s idx acc, consumes s (elements fuel s idx acc)).
Proof.
  induction fuel as [|fuel (IHs & IHm & IHe)]; [repeat split; intros; exact I|].
  assert (Hscan : forall s idx, consumes s (scan_once (S fuel) s idx)).
  { intros [|c s'] idx; [exact I|]. cbn [scan_once].
    destruct (c =? 34)%N.
    { destruct (scanstring s' (S idx) idx []) as [x rest i|] eqn:Hs; [|exact I].
      apply (scanstring_shorter (List.length s')) in Hs; [|lia].
      simpl. lia. }
    destruct (c =? 123)%N.
    { destruct (skip_ws s' (S idx)) as [s1 i1] eqn:Hw.
      apply skip_ws_shorter in Hw.
      destruct s1 as [|c1 s2].
      - specialize (IHm [] i1 []). destruct (members fuel [] i1 []) as [[]|];
          simpl in *; lia.
      - destruct (c1 =? 125)%N; [simpl in *; lia|].
        specialize (IHm (c1 :: s2) i1 []).
        destruct (members fuel (c1 :: s2) i1 []) as [[]|]; simpl in *; lia. }
    destruct (c =? 91)%N.
    { destruct (skip_ws s' (S idx)) as [s1 i1] eqn:Hw.
      apply skip_ws_shorter in Hw.
      destruct s1 as [|c1 s2].
      - specialize (IHe [] i1 []). destruct (elements fuel [] i1 []) as [[]|];
          simpl in *; lia.
      - destruct (c1 =? 93)%N; [simpl in *; lia|].
        specialize (IHe (c1 :: s2) i1 []).
        destruct (elements fuel (c1 :: s2) i1 []) as [[]|]; simpl in *; lia. }
    repeat match goal with
           | |- consumes _ (if ?b then _ else _) =>
               destruct b; [apply skipn_shorter; [lia|discriminate]|]
           end.
    destruct (match_number (c :: s') idx) as [[[v rest] i]|] eqn:Hn; [|exact I].
    now apply match_number_shorter in Hn. }
  split; [exact Hscan|]. split.
  - intros [|c s'] idx acc; [exact I|]. cbn [members].
    destruct (c =? 34)%N; [|exact I].
    destruct (scanstring s' (S idx) idx []) as [key rest i|] eqn:Hs; [|exact I].
    apply (scanstring_shorter (List.length s')) in Hs; [|lia].
    destruct (skip_ws rest i) as [s1 i1] eqn:Hw1. apply skip_ws_shorter in Hw1.
    destruct s1 as [|colon s2]; [exact I|].
    destruct (colon =? 58)%N; [|exact I].
    destruct (skip_ws s2 (S i1)) as [s3 i3] eqn:Hw3.
    apply skip_ws_shorter in Hw3.
    specialize (IHs s3 i3).
    destruct (scan_once fuel s3 i3) as [[v rest' i'|]|]; try exact I.
    destruct (skip_ws rest' i') as [s4 i4] eqn:Hw4.
    apply skip_ws_shorter in Hw4.
    destruct s4 as [|d s5]; [exact I|].
    destruct (d =? 125)%N; [simpl in *; lia|].
    destruct (d =? 44)%N; [|exact I].
    destruct (skip_ws s5 (S i4)) as [s6 i6] eqn:Hw6.
    apply skip_ws_shorter in Hw6.
    specialize (IHm s6 i6 (dict_set key v acc)).
    destruct (members fuel s6 i6 (dict_set key v acc)) as [[]|];
      simpl in *; lia.
  - intros s idx acc. cbn [elements].
    specialize (IHs s idx).
    destruct (scan_once fuel s idx) as [[v rest i|]|]; try exact I.
    destruct (skip_ws rest i) as [s1 i1] eqn:Hw1. apply skip_ws_shorter in Hw1.
    destruct s1 as [|d s2]; [exact I|].
    destruct (d =? 93)%N; [simpl in *; lia|].
    destruct (d =? 44)%N; [|exact I].
    destruct (skip_ws s2 (S i1)) as [s3 i3] eqn:Hw3.
    apply skip_ws_shorter in Hw3.
    specialize (IHe s3 i3 (v :: acc)).
    destruct (elements fuel s3 i3 (v :: acc)) as [[]|]; simpl in *; lia.
Qed.

(** With fuel beyond twice the length of the text no scan runs out. *)
Lemma fuel_suffices (fuel : nat) :
  (forall s idx, 2 * List.length s + 1 <= fuel -> scan_once fuel s idx <> None)
  /\ (forall s idx acc,
        2 * List.length s + 1 <= fuel -> members fuel s idx acc <> None)
  /\ (forall s idx acc,
        2 * List.length s + 2 <= fuel -> elements fuel s idx acc <> None).
Proof.
  induction fuel as [|fuel (IHs & IHm & IHe)];
    [repeat split; intros; lia|].
  destruct (scans_consume fuel) as (Cs & _ & _).
  split; [|split].
  - intros [|c s'] idx Hf; [discriminate|]. cbn [scan_once].
    cbn [List.length] in Hf.
    destruct (c =? 34)%N.
    { destruct (scanstring s' (S idx) idx []); discriminate. }
    destruct (c =? 123)%N.
    { destruct (skip_ws s' (S idx)) as [s1 i1] eqn:Hw.
      apply skip_ws_shorter in Hw.
      destruct s1 as [|c1 s2]; [apply IHm; simpl; lia|].
      destruct (c1 =? 125)%N; [discriminate|]. apply IHm. lia. }
    destruct (c =? 91)%N.
    { destruct (skip_ws s' (S idx)) as [s1 i1] eqn:Hw.
      apply skip_ws_shorter in Hw.
      destruct s1 as [|c1 s2]; [apply IHe; simpl; lia|].
      destruct (c1 =? 93)%N; [discriminate|]. apply IHe. lia. }
    repeat match goal with
           | |- (if ?b then _ else _) <> None => destruct b; [discriminate|]
           end.
    destruct (match_number (c :: s') idx) as [[[v rest] i]|]; discriminate.
  - intros [|c s'] idx acc Hf; [discriminate|]. cbn [members].
    cbn [List.length] in Hf.
    destruct (c =? 34)%N; [|discriminate].
    destruct (scanstring s' (S idx) idx []) as [key rest i|] eqn:Hs;
      [|discriminate].
    apply (scanstring_shorter (List.length s')) in Hs; [|lia].
    destruct (skip_ws rest i) as [s1 i1] eqn:Hw1. apply skip_ws_shorter in Hw1.
    destruct s1 as [|colon s2]; [discriminate|].
    destruct (colon =? 58)%N; [|discriminate].
    destruct (skip_ws s2 (S i1)) as [s3 i3] eqn:Hw3.
    apply skip_ws_shorter in Hw3. cbn [List.length] in Hw1.
    pose proof (IHs s3 i3) as Hnone. pose proof (Cs s3 i3) as Hcons.
    destruct (scan_once fuel s3 i3) as [[v rest' i'|]|];
      [|discriminate|apply Hnone; lia].
    destruct (skip_ws rest' i') as [s4 i4] eqn:Hw4.
    apply skip_ws_shorter in Hw4.
    destruct s4 as [|d s5]; [discriminate|].
    destruct (d =? 125)%N; [discriminate|].
    destruct (d =? 44)%N; [|discriminate].
    destruct (skip_ws s5 (S i4)) as [s6 i6] eqn:Hw6.
    apply skip_ws_shorter in Hw6. simpl in Hcons. cbn [List.length] in Hw4.
    apply IHm. lia.
  - intros s idx acc Hf. cbn [elements].
    pose proof (IHs s idx) as Hnone. pose proof (Cs s idx) as Hcons.
    destruct (scan_once fuel s idx) as [[v rest i|]|];
      [|discriminate|apply Hnone; lia].
    destruct (skip_ws rest i) as [s1 i1] eqn:Hw1. apply skip_ws_shorter in Hw1.
    destruct s1 as [|d s2]; [discriminate|].
    destruct (d =? 93)%N; [discriminate|].
    destruct (d =? 44)%N; [|discriminate].
    destruct (skip_ws s2 (S i1)) as [s3 i3] eqn:Hw3.
    apply skip_ws_shorter in Hw3. simpl in Hcons. cbn [List.length] in Hw1.
    apply IHe. lia.
Qed.

(** [loads] never takes the branch of the exhausted fuel: it returns
    the value or raises a [JSONDecodeError]. *)
Lemma loads_fuel (s : str) :
  scan_once (2 * List.length s + 2) (fst (skip_ws s 0)) (snd (skip_ws s 0))
  <> None.
Proof.
  destruct (fuel_suffices (2 * List.length s + 2)) as (H & _ & _).
  apply H. pose proof (skip_ws_length s 0). lia.
Qed.

(** ** The decoder on sample texts *)

Example loads_object :
  Json.loads (py "{" ++ DQ ++ py "score" ++ DQ ++ py ": 90, " ++ DQ
              ++ py "hallucinations" ++ DQ ++ py ": [], " ++ DQ ++ py "verdict"
              ++ DQ ++ py ":" ++ DQ ++ py "PASS" ++ DQ ++ py " }" ++ NL)
  = Ok (VDict [(py "score", VInt 90); (py "hallucinations", VList []);
               (py "verdict", VStr (py "PASS"))]).
Proof. vm_compute. reflexivity. Qed.

Example loads_values :
  Json.loads (py "[1, -20, 2.5e3, 0.5, null, true, false, " ++ DQ
              ++ py "a\u00e9\n\ud83d\ude00" ++ DQ ++ py ", {}]")
  = Ok (VList [VInt 1; VInt (-20); VFloat (py "2.5e3"); VFloat (py "0.5");
               VNone; VBool true; VBool false;
               VStr [97; 233; 10; 128512]%N; VDict []]).
Proof. vm_compute. reflexivity. Qed.

Example loads_duplicate_key :
  Json.loads (py "{" ++ DQ ++ py "a" ++ DQ ++ py ":1," ++ DQ ++ py "b" ++ DQ
              ++ py ":2," ++ DQ ++ py "a" ++ DQ ++ py ":3}")
  = Ok (VDict [(py "a", VInt 3); (py "b", VInt 2)]).
Proof. vm_compute. reflexivity. Qed.

Example loads_empty :
  Json.loads [] = Raise (py "Expecting value: line 1 column 1 (char 0)").
Proof. vm_compute. reflexivity. Qed.

Example loads_unterminated :
  Json.loads (py "{" ++ DQ ++ py "a" ++ DQ ++ py ":" ++ NL ++ py " " ++ DQ
              ++ py "x")
  = Raise (py "Unterminated string starting at: line 2 column 2 (char 7)").
Proof. vm_compute. reflexivity. Qed.

Example loads_trailing_text :
  Json.loads (py "{} x")
  = Raise (py "Extra data: line 1 column 4 (char 3)").
Proof. vm_compute. reflexivity. Qed.

Example loads_missing_value :
  Json.loads (py "{" ++ DQ ++ py "a" ++ DQ ++ py ": }")
  = Raise (py "Expecting value: line 1 column 7 (char 6)").
Proof. vm_compute. reflexivity. Qed.

(** C2 does not hold of the code for every object.  The reply object
    [Sample.verdict_text] has a string that contains a fence.  Bare, it
    is parsed in full.  Wrapped in a "json" fence it is split at every
    fence, the part kept ends at the inner one, what reaches
    [json.loads] is the object's text cut in the middle of that string,
    and the parse raises instead of returning the object. *)
Theorem fenced_reply_with_inner_fence_is_cut :
  clean_response Sample.verdict_text = Sample.verdict_text
  /\ Json.loads (clean_response Sample.verdict_text) = Ok Sample.verdict_value
  /\ split (fenced NL Sample.verdict_text NL) FENCE
     = [ [];
         py "json" ++ NL ++ Sample.verdict_text_cut ++ py " ";
         py " and a price the site never gives" ++ DQ ++ py "], "
         ++ DQ ++ py "tone_consistency" ++ DQ ++ py ": " ++ DQ ++ py "ok" ++ DQ
         ++ py "}" ++ NL;
         [] ]
  /\ clean_response (fenced NL Sample.verdict_text NL)
     = Sample.verdict_text_cut
  /\ Json.loads (clean_response (fenced NL Sample.verdict_text NL))
     = Raise (py "Unterminated string starting at: line 1 column 53 (char 52)")
  /\ parse_reply Sample.shop_world (fenced NL Sample.verdict_text NL)
     <> parse_reply Sample.shop_world Sample.verdict_text.
Proof.
  repeat split; try (vm_compute; reflexivity).
  vm_compute. discriminate.
Qed.

(** The same reply without the inner fence is parsed alike with and
    without the wrapping. *)
Example fenced_reply_parsed :
  parse_reply Sample.shop_world
    (fenced NL (py "{" ++ DQ ++ py "score" ++ DQ ++ py ":90}") NL)
  = Ok (VDict [(py "score", VInt 90)])
  /\ parse_reply Sample.shop_world (py "{" ++ DQ ++ py "score" ++ DQ ++ py ":90}")
     = Ok (VDict [(py "score", VInt 90)]).
Proof. split; vm_compute; reflexivity. Qed.

(** ** Whole requests *)

Example request_bare_reply :
  run (verify_btn_handler (Sample.world_replying Sample.verdict_text)
         Sample.key Sample.shop_url Sample.ad)
  = ({| response := Some {| response_text := Ok Sample.verdict_text |} |},
     [StSpinner (py "Scraping website...");
      HttpGet Sample.shop_url;
      StSpinner (py "Analyzing with Gemini 2.5 Flash...");
      GenaiConfigure Sample.key;
      ListModels;
      StInfo (py "Using model: **models/gemini-2.5-Flash**");
      GenerateContent (py "models/gemini-2.5-Flash")
        (build_prompt
           (py "Coffee" ++ NL ++ py "Our coffee" ++ NL ++ py "is organic" ++ NL
            ++ py "fair-trade, locally roasted.")
           Sample.ad);
      StMetric (py "Quality Score") (VInt 35);
      StError (py "Verdict: FAIL");
      StMarkdown (py "### Tone Analysis");
      StWrite (VStr (py "ok"));
      StError HALLUCINATIONS_HEADER;
      StWrite (VStr (py "- The ad closes with ``` and a price the site never gives"))],
     Ok tt).
Proof. vm_compute. reflexivity. Qed.

Example request_fenced_reply :
  run (verify_btn_handler
         (Sample.world_replying (fenced NL Sample.verdict_text NL))
         Sample.key Sample.shop_url Sample.ad)
  = ({| response :=
          Some {| response_text := Ok (fenced NL Sample.verdict_text NL) |} |},
     [StSpinner (py "Scraping website...");
      HttpGet Sample.shop_url;
      StSpinner (py "Analyzing with Gemini 2.5 Flash...");
      GenaiConfigure Sample.key;
      ListModels;
      StInfo (py "Using model: **models/gemini-2.5-Flash**");
      GenerateContent (py "models/gemini-2.5-Flash")
        (build_prompt
           (py "Coffee" ++ NL ++ py "Our coffee" ++ NL ++ py "is organic" ++ NL
            ++ py "fair-trade, locally roasted.")
           Sample.ad);
      StError (py "Analysis failed: Unterminated string starting at: line 1 column 53 (char 52)");
      StWrite (VStr (py "Raw response (for debugging):"));
      StCode (fenced NL Sample.verdict_text NL)],
     Ok tt).
Proof. vm_compute. reflexivity. Qed.

Example request_generation_fails :
  run (verify_btn_handler Sample.shop_world Sample.key Sample.shop_url Sample.ad)
  = (init,
     [StSpinner (py "Scraping website...");
      HttpGet Sample.shop_url;
      StSpinner (py "Analyzing with Gemini 2.5 Flash...");
      GenaiConfigure Sample.key;
      ListModels;
      StInfo (py "Using model: **models/gemini-2.5-Flash**");
      GenerateContent (py "models/gemini-2.5-Flash")
        (build_prompt
           (py "Coffee" ++ NL ++ py "Our coffee" ++ NL ++ py "is organic" ++ NL
            ++ py "fair-trade, locally roasted.")
           Sample.ad);
      StError (py "Analysis failed: 503 The model is overloaded.");
      StWrite (VStr (py "Raw response (for debugging):"))],
     Ok tt).
Proof. vm_compute. reflexivity. Qed.

Example request_without_model :
  run (verify_btn_handler
         (Sample.world (Ok Sample.page_200) Sample.shop_document
            (Ok [ {| name := py "models/embedding-001";
                     supported_generation_methods := [py "embedContent"] |} ])
            Sample.no_reply)
         Sample.key Sample.shop_url Sample.ad)
  = (init,
     [StSpinner (py "Scraping website...");
      HttpGet Sample.shop_url;
      StSpinner (py "Analyzing with Gemini 2.5 Flash...");
      GenaiConfigure Sample.key;
      ListModels;
      StError (py "Could not find a valid model. Debug info: No models found that support generateContent.")],
     Ok tt).
Proof. vm_compute. reflexivity. Qed.

Example request_listing_fails :
  run (verify_btn_handler
         (Sample.world (Ok Sample.page_200) Sample.shop_document
            (Raise (py "400 API key not valid.")) Sample.no_reply)
         Sample.key Sample.shop_url Sample.ad)
  = (init,
     [StSpinner (py "Scraping website...");
      HttpGet Sample.shop_url;
      StSpinner (py "Analyzing with Gemini 2.5 Flash...");
      GenaiConfigure Sample.key;
      ListModels;
      StError (py "Could not find a valid model. Debug info: Error listing models: 400 API key not valid.")],
     Ok tt).
Proof. vm_compute. reflexivity. Qed.

(** A reply that is valid JSON but not an object. *)
Example request_reply_is_a_list :
  trace (verify_btn_handler (Sample.world_replying (py "[1, 2]"))
           Sample.key Sample.shop_url Sample.ad)
  = [StSpinner (py "Scraping website...");
     HttpGet Sample.shop_url;
     StSpinner (py "Analyzing with Gemini 2.5 Flash...");
     GenaiConfigure Sample.key;
     ListModels;
     StInfo (py "Using model: **models/gemini-2.5-Flash**");
     GenerateContent (py "models/gemini-2.5-Flash")
       (build_prompt
          (py "Coffee" ++ NL ++ py "Our coffee" ++ NL ++ py "is organic" ++ NL
           ++ py "fair-trade, locally roasted.")
          Sample.ad);
     StError (py "Analysis failed: 'list' object has no attribute 'get'");
     StWrite (VStr (py "Raw response (for debugging):"));
     StCode (py "[1, 2]")].
Proof. vm_compute. reflexivity. Qed.

(** A reply whose text cannot be read: the [except] clause reads it
    again, and that exception leaves the handler. *)
Example request_reply_without_text :
  outcome (verify_btn_handler
             (Sample.world (Ok Sample.page_200) Sample.shop_document
                (Ok Sample.catalog)
                (Ok {| response_text := Raise (py "The response was blocked.") |}))
             Sample.key Sample.shop_url Sample.ad)
  = Raise (py "The response was blocked.").
Proof. vm_compute. reflexivity. Qed.

(** An input made of spaces is not empty: the handler goes on to the
    fetch. *)
Example request_with_spaces_for_url :
  trace (verify_btn_handler Sample.world_offline Sample.key (py "   ") Sample.ad)
  = [StSpinner (py "Scraping website...");
     HttpGet (py "   ");
     StError (py "Failed to scrape website: ERROR: Connection refused")].
Proof. vm_compute. reflexivity. Qed.

(** * Further properties

    Properties of the same code that the statements above leave out:
    what the Extractor's normalisation keeps and removes, how each
    failure of the analysis is reported, which calls a request makes,
    and what the reply normalisation does with a fenced block. *)

(** ** The Extractor: failures and statuses *)

(** X1. A fetch that fails, because the request raises or because
    [raise_for_status] raises for the status, ends the request: after
    the scraping spinner and the one fetch the handler shows
    "Failed to scrape website: ERROR: " followed by the text of the
    exception, and nothing else happens. *)
Theorem fetch_failure_ends_request
  (E : env) (gemini_key target_url ad_script e : str) :
  gemini_key <> [] -> target_url <> [] -> ad_script <> [] ->
  requests_get E target_url = Raise e
  \/ (exists r, requests_get E target_url = Ok r
                /\ raise_for_status r = Raise e) ->
  run (verify_btn_handler E gemini_key target_url ad_script)
  = (init,
     [StSpinner (py "Scraping website..."); HttpGet target_url;
      StError (py "Failed to scrape website: " ++ py "ERROR: " ++ e)],
     Ok tt).
Proof.
  intros Hk Hu Ha Hfail.
  assert (Hs : scraped E target_url = py "ERROR: " ++ e).
  { unfold scraped. destruct Hfail as [-> | (r & -> & ->)]; reflexivity. }
  unfold run. rewrite (handler_after_inputs E _ _ _ Hk Hu Ha).
  unfold bind, emit. rewrite scrape_website_run, Hs.
  change (py "ERROR: " ++ e) with (py "ERROR:" ++ (32%N :: e)).
  now rewrite startswith_app.
Qed.

Lemma fetch_failure_ends_request_witness :
  run (verify_btn_handler Sample.world_offline Sample.key Sample.shop_url
         Sample.ad)
  = (init,
     [StSpinner (py "Scraping website..."); HttpGet Sample.shop_url;
      StError (py "Failed to scrape website: " ++ py "ERROR: "
               ++ py "Connection refused")],
     Ok tt).
Proof.
  apply (fetch_failure_ends_request Sample.world_offline Sample.key
           Sample.shop_url Sample.ad (py "Connection refused"));
    try discriminate.
  left. reflexivity.
Defined.

(** X2. No status below 400 or from 600 up is turned into an error:
    for every response with such a status whose body the parser
    accepts, [scrape_website] makes its one fetch, raises nothing and
    returns the normalised text of the page, never an error string. *)
Theorem status_outside_400_599_is_success
  (E : env) (url : str) (r : Response) (soup : document) :
  requests_get E url = Ok r ->
  (status_code r < 400 \/ 600 <= status_code r)%N ->
  BeautifulSoup E (text r) = Ok soup ->
  run (scrape_website E url)
  = (init, [HttpGet url],
     Ok (rejoin (get_text (remove_script_style soup)))).
Proof.
  intros Hget Hstatus Hparse. unfold run. rewrite scrape_website_run.
  unfold scraped.
  now rewrite Hget, (raise_for_status_quiet r Hstatus), Hparse.
Qed.

Lemma status_outside_400_599_is_success_witness :
  run (scrape_website Sample.world_304 Sample.shop_url)
  = (init, [HttpGet Sample.shop_url],
     Ok (rejoin (get_text (remove_script_style [])))).
Proof.
  apply (status_outside_400_599_is_success Sample.world_304 Sample.shop_url
           Sample.page_304 []); [reflexivity| |reflexivity].
  left. reflexivity.
Defined.

(** X21. A page the parser rejects ends the request like a failed
    fetch, whatever its status: when the request and the status check
    raise nothing and the parser raises, the handler shows
    "Failed to scrape website: ERROR: " followed by the text of the
    parser's exception, and the Verifier is not reached. *)
Theorem parser_rejection_ends_request
  (E : env) (gemini_key target_url ad_script e : str) (r : Response) :
  gemini_key <> [] -> target_url <> [] -> ad_script <> [] ->
  requests_get E target_url = Ok r ->
  raise_for_status r = Ok tt ->
  BeautifulSoup E (text r) = Raise e ->
  run (scrape_website E target_url)
  = (init, [HttpGet target_url], Ok (py "ERROR: " ++ e))
  /\ run (verify_btn_handler E gemini_key target_url ad_script)
     = (init,
        [StSpinner (py "Scraping website..."); HttpGet target_url;
         StError (py "Failed to scrape website: " ++ py "ERROR: " ++ e)],
        Ok tt).
Proof.
  intros Hk Hu Ha Hget Hstatus Hparse.
  assert (Hs : scraped E target_url = py "ERROR: " ++ e).
  { unfold scraped. now rewrite Hget, Hstatus, Hparse. }
  split.
  - unfold run. now rewrite scrape_website_run, Hs.
  - unfold run. rewrite (handler_after_inputs E _ _ _ Hk Hu Ha).
    unfold bind, emit. rewrite scrape_website_run, Hs.
    change (py "ERROR: " ++ e) with (py "ERROR:" ++ (32%N :: e)).
    now rewrite startswith_app.
Qed.

Lemma parser_rejection_ends_request_witness :
  run (scrape_website Cases.rejecting_world Sample.shop_url)
  = (init, [HttpGet Sample.shop_url], Ok (py "ERROR: " ++ Cases.REJECTED))
  /\ run (verify_btn_handler Cases.rejecting_world Sample.key Sample.shop_url
            Sample.ad)
     = (init,
        [StSpinner (py "Scraping website..."); HttpGet Sample.shop_url;
         StError (py "Failed to scrape website: " ++ py "ERROR: "
                  ++ Cases.REJECTED)],
        Ok tt).
Proof.
  apply (parser_rejection_ends_request Cases.rejecting_world Sample.key
           Sample.shop_url Sample.ad Cases.REJECTED Cases.rejected_page);
    try discriminate; reflexivity.
Defined.

(** ** The Extractor: the removal loop *)

Lemma find_all_prune_in (ids : list nat) (n : node) :
  (forall u name, In (u, name) (tags_in n) ->
                  existsb (Nat.eqb u) ids = hidden name) ->
  flat_map (find_all_in [py "script"; py "style"])
    (if listed ids n then [] else [prune_in ids n])
  = [].
Proof.
  induction n as [s|s|u name contents IH] using node_forall_ind; intros H;
    try reflexivity.
  cbn [listed]. rewrite (H u name (or_introl eq_refl)).
  destruct (hidden name) eqn:Hh; [reflexivity|].
  cbn [flat_map prune_in find_all_in]. fold (hidden name). rewrite Hh.
  rewrite app_nil_r. cbn [app].
  assert (Hsub : forall v nm, In (v, nm) (flat_map tags_in contents) ->
                              existsb (Nat.eqb v) ids = hidden nm).
  { intros v nm Hv. apply H. now right. }
  clear H. induction IH as [|c cs Hc _ IHcs]; [reflexivity|].
  cbn [flat_map]. rewrite flat_map_app.
  rewrite Hc, IHcs; [reflexivity| |].
  - intros v nm Hv. apply Hsub. cbn [flat_map]. apply in_or_app. now right.
  - intros v nm Hv. apply Hsub. cbn [flat_map]. apply in_or_app. now left.
Qed.

Lemma find_all_prune (ids : list nat) (doc : document) :
  (forall u name, In (u, name) (tags doc) ->
                  existsb (Nat.eqb u) ids = hidden name) ->
  find_all [py "script"; py "style"] (prune ids doc) = [].
Proof.
  unfold find_all, prune, tags.
  induction doc as [|c cs IH]; intros H; [reflexivity|].
  cbn [flat_map]. rewrite flat_map_app.
  rewrite find_all_prune_in, IH; [reflexivity| |].
  - intros u nm Hu. apply H. cbn [flat_map]. apply in_or_app. now right.
  - intros u nm Hu. apply H. cbn [flat_map]. apply in_or_app. now left.
Qed.

(** X3. After the loop of [extract] calls the document holds no
    script and no style element, at any depth, and running the loop
    again changes nothing (tags being distinct objects). *)
Theorem no_script_or_style_element_remains (doc : document) :
  distinct_objects doc ->
  find_all [py "script"; py "style"] (remove_script_style doc) = []
  /\ remove_script_style (remove_script_style doc) = remove_script_style doc.
Proof.
  intros Hnd.
  assert (H : find_all [py "script"; py "style"] (remove_script_style doc) = []).
  { rewrite remove_script_style_prune. apply find_all_prune.
    intros u nm Hin. now apply found_iff_hidden. }
  split; [exact H|].
  unfold remove_script_style at 1. now rewrite H.
Qed.

Lemma no_script_or_style_element_remains_witness :
  find_all [py "script"; py "style"] (remove_script_style Sample.shop_document)
  = []
  /\ remove_script_style (remove_script_style Sample.shop_document)
     = remove_script_style Sample.shop_document.
Proof.
  apply (no_script_or_style_element_remains Sample.shop_document).
  unfold distinct_objects. simpl.
  repeat (constructor; [simpl; intuition discriminate|]). constructor.
Defined.

(** ** The Extractor: what the normalisation keeps *)

(** X4. Lines 57 to 62 change whitespace only: when the extraction
    succeeds (nothing raised by the request, by [raise_for_status] or
    by the parser), the characters of the returned text that are not
    whitespace are those of the text [get_text] gave, all of them and
    in the same order. *)
Theorem normalisation_changes_whitespace_only
  (E : env) (url : str) (r : Response) (soup : document) :
  requests_get E url = Ok r ->
  raise_for_status r = Ok tt ->
  BeautifulSoup E (text r) = Ok soup ->
  exists extracted,
    outcome (scrape_website E url) = Ok extracted
    /\ ink extracted = ink (get_text (remove_script_style soup)).
Proof.
  intros Hget Hstatus Hparse. exists (page_text soup).
  rewrite scrape_website_outcome. unfold scraped.
  rewrite Hget, Hstatus, Hparse.
  split; [reflexivity|]. unfold page_text. apply ink_rejoin.
Qed.

Lemma normalisation_changes_whitespace_only_witness :
  exists extracted,
    outcome (scrape_website Sample.shop_world Sample.shop_url) = Ok extracted
    /\ ink extracted
       = ink (get_text (remove_script_style Sample.shop_document)).
Proof.
  apply (normalisation_changes_whitespace_only Sample.shop_world
           Sample.shop_url Sample.page_200 Sample.shop_document);
    reflexivity.
Defined.

(** X5. When the extraction succeeds (nothing raised by the request,
    by [raise_for_status] or by the parser), the returned text is the
    empty string exactly when the page's text outside its script and
    style elements is empty or whitespace only. *)
Theorem blank_page_gives_empty_text
  (E : env) (url : str) (r : Response) (soup : document) :
  requests_get E url = Ok r ->
  raise_for_status r = Ok tt ->
  BeautifulSoup E (text r) = Ok soup ->
  (outcome (scrape_website E url) = Ok []
   <-> blank (get_text (remove_script_style soup)) = true).
Proof.
  intros Hget Hstatus Hparse.
  rewrite scrape_website_outcome. unfold scraped.
  rewrite Hget, Hstatus, Hparse.
  unfold page_text. rewrite <- rejoin_empty_iff.
  split; [now intros [= ->]|now intros ->].
Qed.

Lemma blank_page_gives_empty_text_witness :
  outcome (scrape_website Cases.blank_page_world Sample.shop_url) = Ok []
  <-> blank (get_text (remove_script_style Cases.blank_document)) = true.
Proof.
  apply (blank_page_gives_empty_text Cases.blank_page_world Sample.shop_url
           Cases.blank_page Cases.blank_document); reflexivity.
Defined.

(** *** Phrases are trimmed and hold no run of two spaces *)

Lemma lstrip_fixed (s : str) :
  (forall c t, s = c :: t -> isspace c = false) -> lstrip s = s.
Proof.
  destruct s as [|c t]; [reflexivity|]. intros H. simpl.
  now rewrite (H c t eq_refl).
Qed.

Lemma lstrip_idem (s : str) : lstrip (lstrip s) = lstrip s.
Proof. apply lstrip_fixed. intros c t. apply lstrip_head. Qed.

Lemma strip_idem (s : str) : strip (strip s) = strip s.
Proof.
  assert (Hl : lstrip (strip s) = strip s).
  { apply lstrip_fixed. intros c t. apply strip_head. }
  unfold strip at 1. rewrite Hl. unfold strip, rstrip.
  now rewrite rev_involutive, lstrip_idem.
Qed.

Lemma startswith_app_l (s t sub : str) :
  startswith s sub = true -> startswith (s ++ t) sub = true.
Proof.
  revert s. induction sub as [|p sub IH]; intros s H; [reflexivity|].
  destruct s as [|c s]; [discriminate|]. simpl in *.
  apply andb_true_iff in H. destruct H as [-> H]. simpl. now apply IH.
Qed.

Lemma contains_app_false (sub a b : str) :
  contains sub (a ++ b) = false ->
  contains sub a = false /\ contains sub b = false.
Proof.
  induction a as [|c a IH]; intros H.
  - split; [|exact H]. simpl in H.
    destruct sub; [destruct b; discriminate H|reflexivity].
  - change (contains sub ((c :: a) ++ b))
      with (startswith ((c :: a) ++ b) sub || contains sub (a ++ b)) in H.
    apply orb_false_iff in H. destruct H as [Hs H].
    destruct (IH H) as [Ha Hb]. split; [|exact Hb].
    change (contains sub (c :: a))
      with (startswith (c :: a) sub || contains sub a).
    rewrite Ha, orb_false_r.
    destruct (startswith (c :: a) sub) eqn:Hs'; [|reflexivity].
    now rewrite (startswith_app_l _ b _ Hs') in Hs.
Qed.

Lemma lstrip_suffix (s : str) : exists w, s = w ++ lstrip s.
Proof.
  induction s as [|c s [w IH]]; [now exists []|]. simpl.
  destruct (isspace c); [|now exists []].
  exists (c :: w). simpl. now f_equal.
Qed.

Lemma strip_infix (s : str) : exists w1 w2, s = w1 ++ strip s ++ w2.
Proof.
  unfold strip, rstrip.
  destruct (lstrip_suffix s) as [w1 H1].
  destruct (lstrip_suffix (rev (lstrip s))) as [w2 H2].
  exists w1, (rev w2).
  rewrite <- rev_app_distr, <- H2, rev_involutive. exact H1.
Qed.

Lemma contains_strip_false (sub s : str) :
  contains sub s = false -> contains sub (strip s) = false.
Proof.
  intros H. destruct (strip_infix s) as (w1 & w2 & Hs).
  rewrite Hs in H. apply contains_app_false in H. destruct H as [_ H].
  now apply contains_app_false in H.
Qed.

(** No piece [split] returns contains the separator. *)
Lemma contains_false_by_suffixes (sub p : str) :
  sub <> [] ->
  (forall pre post, p = pre ++ post -> post <> [] -> startswith post sub = false) ->
  contains sub p = false.
Proof.
  intros Hne. induction p as [|c p IH]; intros H.
  - simpl. destruct sub; [congruence|reflexivity].
  - change (contains sub (c :: p))
      with (startswith (c :: p) sub || contains sub p).
    rewrite (H [] (c :: p) eq_refl) by discriminate.
    apply IH. intros pre post -> Hpost.
    now apply (H (c :: pre) post).
Qed.

Lemma split_go_pieces_free (sep : str) :
  sep <> [] ->
  forall s skip cur,
    (skip <> 0 -> cur = []) ->
    (forall pre post, rev cur = pre ++ post -> post <> [] ->
       startswith (post ++ s) sep = false) ->
    Forall (fun p => contains sep p = false) (split_go sep s skip cur).
Proof.
  intros Hne.
  assert (Hclose : forall s cur,
    (forall pre post, rev cur = pre ++ post -> post <> [] ->
       startswith (post ++ s) sep = false) ->
    contains sep (rev cur) = false).
  { intros s cur H. apply contains_false_by_suffixes; [exact Hne|].
    intros pre post Hp Hpost.
    destruct (startswith post sep) eqn:Hs; [|reflexivity].
    pose proof (H pre post Hp Hpost) as Hf.
    now rewrite (startswith_app_l _ s _ Hs) in Hf. }
  induction s as [|c s IH]; intros skip cur Hskip Hcur.
  - simpl. constructor; [|constructor]. now apply (Hclose []).
  - simpl. destruct skip as [|k].
    + destruct (startswith (c :: s) sep) eqn:Hs.
      * constructor; [now apply (Hclose (c :: s))|].
        apply IH; [reflexivity|].
        intros pre post Hp Hpost. destruct pre; destruct post; try discriminate.
        congruence.
      * apply IH; [congruence|].
        intros pre post Hp Hpost. simpl in Hp.
        destruct (exists_last Hpost) as (post' & x & ->).
        rewrite app_assoc in Hp. apply app_inj_tail in Hp.
        destruct Hp as [Hp ->]. rewrite <- app_assoc. simpl.
        destruct post' as [|y post'']; [exact Hs|].
        apply (Hcur pre (y :: post'') Hp). discriminate.
    + rewrite (Hskip ltac:(discriminate)).
      apply IH; [reflexivity|].
      intros pre post Hp Hpost. destruct pre; destruct post; try discriminate.
      congruence.
Qed.

Lemma split_pieces_free (s sep : str) :
  sep <> [] -> Forall (fun p => contains sep p = false) (split s sep).
Proof.
  intros Hne. apply split_go_pieces_free; [exact Hne|congruence|].
  intros pre post Hp Hpost. destruct pre; destruct post; try discriminate.
  congruence.
Qed.

Lemma split_go_free (sep : str) :
  forall s cur, contains sep s = false ->
  split_go sep s 0 cur = [rev cur ++ s].
Proof.
  induction s as [|c s IH]; intros cur H.
  - simpl. now rewrite app_nil_r.
  - change (contains sep (c :: s))
      with (startswith (c :: s) sep || contains sep s) in H.
    apply orb_false_iff in H. destruct H as [Hs H].
    cbn [split_go]. rewrite Hs, IH by exact H. cbn [rev].
    now rewrite <- app_assoc.
Qed.

Lemma split_free (s sep : str) : contains sep s = false -> split s sep = [s].
Proof. intros H. unfold split. now rewrite split_go_free. Qed.

(** Every phrase of [chunks_of] is trimmed and free of double spaces. *)
Lemma chunks_of_trimmed (text chunk : str) :
  In chunk (chunks_of text) ->
  strip chunk = chunk /\ contains (py "  ") chunk = false.
Proof.
  unfold chunks_of. intros H.
  apply in_flat_map in H. destruct H as (line & _ & H).
  apply in_map_iff in H. destruct H as (phrase & <- & Hphrase).
  split; [apply strip_idem|].
  apply contains_strip_false.
  pose proof (split_pieces_free line (py "  ") ltac:(discriminate)) as Hall.
  rewrite Forall_forall in Hall. now apply Hall.
Qed.

Lemma flat_map_singleton {A} (f : A -> list A) (l : list A) :
  Forall (fun x => f x = [x]) l -> flat_map f l = l.
Proof.
  induction 1 as [|x l Hx _ IH]; [reflexivity|]. simpl. now rewrite Hx, IH.
Qed.

Lemma map_fixed {A} (f : A -> A) (l : list A) :
  Forall (fun x => f x = x) l -> map f l = l.
Proof.
  induction 1 as [|x l Hx _ IH]; [reflexivity|]. simpl. now rewrite Hx, IH.
Qed.

Lemma filter_all {A} (f : A -> bool) (l : list A) :
  Forall (fun x => f x = true) l -> filter f l = l.
Proof.
  induction 1 as [|x l Hx _ IH]; [reflexivity|]. simpl. now rewrite Hx, IH.
Qed.

Lemma kept_chunks_fixed (text : str) :
  filter truthy (chunks_of (rejoin text)) = filter truthy (chunks_of text).
Proof.
  unfold rejoin at 1.
  set (K := filter truthy (chunks_of text)).
  assert (HK : Forall (fun c => c <> [] /\ no_linebreak c
                        /\ strip c = c /\ contains (py "  ") c = false) K).
  { apply Forall_forall. intros c Hc.
    destruct (kept_chunk _ _ Hc) as (H1 & H2 & _).
    apply filter_In in Hc. destruct Hc as [Hc _].
    destruct (chunks_of_trimmed _ _ Hc) as [H3 H4]. tauto. }
  unfold chunks_of.
  rewrite splitlines_join by (eapply Forall_impl; [|exact HK]; simpl; tauto).
  rewrite map_fixed by (eapply Forall_impl; [|exact HK]; simpl; tauto).
  rewrite flat_map_singleton.
  - apply filter_all. eapply Forall_impl; [|exact HK].
    simpl. intros c (Hc & _). now apply truthy_true_cons.
  - eapply Forall_impl; [|exact HK]. simpl. intros c (_ & _ & Hs & Hf).
    rewrite (split_free _ _ Hf). simpl. now rewrite Hs.
Qed.

Lemma rejoin_idem (text : str) : rejoin (rejoin text) = rejoin text.
Proof. unfold rejoin at 1 3. now rewrite kept_chunks_fixed. Qed.

(** X6. When the extraction succeeds (nothing raised by the request,
    by [raise_for_status] or by the parser), every line of the returned
    text is trimmed (it neither starts nor ends with whitespace) and
    contains no two consecutive spaces. *)
Theorem extracted_lines_are_trimmed
  (E : env) (url : str) (r : Response) (soup : document) :
  requests_get E url = Ok r ->
  raise_for_status r = Ok tt ->
  BeautifulSoup E (text r) = Ok soup ->
  exists extracted,
    outcome (scrape_website E url) = Ok extracted
    /\ Forall (fun line => strip line = line
                           /\ contains (py "  ") line = false)
         (splitlines extracted).
Proof.
  intros Hget Hstatus Hparse. exists (page_text soup).
  rewrite scrape_website_outcome. unfold scraped.
  rewrite Hget, Hstatus, Hparse.
  split; [reflexivity|]. unfold page_text, rejoin.
  set (t := get_text (remove_script_style soup)).
  rewrite splitlines_join.
  - apply Forall_forall. intros c Hc. apply filter_In in Hc.
    destruct Hc as [Hc _]. now apply (chunks_of_trimmed t).
  - eapply Forall_impl; [|apply kept_chunks_nonblank]. simpl. tauto.
Qed.

Lemma extracted_lines_are_trimmed_witness :
  exists extracted,
    outcome (scrape_website Sample.shop_world Sample.shop_url) = Ok extracted
    /\ Forall (fun line => strip line = line
                           /\ contains (py "  ") line = false)
         (splitlines extracted).
Proof.
  apply (extracted_lines_are_trimmed Sample.shop_world Sample.shop_url
           Sample.page_200 Sample.shop_document); reflexivity.
Defined.

(** X7. When the extraction succeeds (nothing raised by the request,
    by [raise_for_status] or by the parser), the returned text is a
    fixed point of the normalisation: putting it through lines 57 to 62
    again gives the same text. *)
Theorem extracted_text_is_a_fixed_point
  (E : env) (url : str) (r : Response) (soup : document) :
  requests_get E url = Ok r ->
  raise_for_status r = Ok tt ->
  BeautifulSoup E (text r) = Ok soup ->
  exists extracted,
    outcome (scrape_website E url) = Ok extracted
    /\ rejoin extracted = extracted.
Proof.
  intros Hget Hstatus Hparse. exists (page_text soup).
  rewrite scrape_website_outcome. unfold scraped.
  rewrite Hget, Hstatus, Hparse.
  split; [reflexivity|]. unfold page_text. apply rejoin_idem.
Qed.

Lemma extracted_text_is_a_fixed_point_witness :
  exists extracted,
    outcome (scrape_website Sample.shop_world Sample.shop_url) = Ok extracted
    /\ rejoin extracted = extracted.
Proof.
  apply (extracted_text_is_a_fixed_point Sample.shop_world Sample.shop_url
           Sample.page_200 Sample.shop_document); reflexivity.
Defined.

(** ** The analysis: one run, case by case *)

Lemma stateless_ret {A} (a : A) : stateless (ret a).
Proof. intros st. reflexivity. Qed.

Lemma stateless_lift {A} (r : result A) : stateless (lift r).
Proof. intros st. reflexivity. Qed.

Lemma stateless_emit (ev : event) : stateless (emit ev).
Proof. intros st. reflexivity. Qed.

Lemma stateless_bind {A B} (m : M A) (f : A -> M B) :
  stateless m -> (forall a, stateless (f a)) -> stateless (bind m f).
Proof.
  intros Hm Hf st. unfold trace, outcome, run, bind.
  rewrite (Hm st), (Hm init).
  destruct (outcome m) as [a|e]; [|reflexivity].
  rewrite (Hf a st), (Hf a init). reflexivity.
Qed.

Lemma stateless_try_except {A} (m : M A) (h : str -> M A) :
  stateless m -> (forall e, stateless (h e)) -> stateless (try_except m h).
Proof.
  intros Hm Hh st. unfold trace, outcome, run, try_except.
  rewrite (Hm st), (Hm init).
  destruct (outcome m) as [a|e]; [reflexivity|].
  rewrite (Hh e st), (Hh e init). reflexivity.
Qed.

Lemma stateless_for_each {A} (l : list A) (body : A -> M unit) :
  (forall x, stateless (body x)) -> stateless (for_each l body).
Proof.
  intros H. induction l as [|x l IH]; [apply stateless_ret|].
  cbn [for_each]. apply stateless_bind; [apply H|intros _; exact IH].
Qed.

Create HintDb stateless.
#[local] Hint Resolve stateless_ret stateless_lift stateless_emit : stateless.

Ltac stateless_steps :=
  repeat first
    [ apply stateless_bind; [|intros ?]
    | apply stateless_try_except; [|intros ?]
    | apply stateless_for_each; intros ?
    | solve [auto with stateless]
    | match goal with
      | |- stateless (if ?b then _ else _) => destruct b
      | |- stateless (match ?x with _ => _ end) => destruct x
      end ].

Lemma stateless_get_best_model (E : env) (api_key : str) :
  stateless (get_best_model E api_key).
Proof. unfold get_best_model. stateless_steps. Qed.

Lemma stateless_display (E : env) (result : value) :
  stateless (display E result).
Proof. unfold display, st_metric. stateless_steps. Qed.

Lemma trace_get_best_model (E : env) (api_key : str) :
  trace (get_best_model E api_key) = [ListModels].
Proof.
  unfold trace, run, get_best_model, try_except, bind, emit, lift, ret.
  destruct (list_models E api_key) as [models|e]; [|reflexivity].
  cbn. destruct (filter supports_generateContent models); [reflexivity|].
  destruct (find _ _); [reflexivity|]. destruct (find _ _); reflexivity.
Qed.

Lemma get_best_model_run (E : env) (api_key : str) (st : locals) :
  get_best_model E api_key st
  = (st, [ListModels], outcome (get_best_model E api_key)).
Proof.
  rewrite (stateless_get_best_model E api_key st).
  now rewrite trace_get_best_model.
Qed.

Lemma get_best_model_returns (E : env) (api_key : str) :
  exists choice debug_info,
    outcome (get_best_model E api_key) = Ok (choice, debug_info).
Proof.
  unfold outcome, run, get_best_model, try_except, bind, emit, lift, ret.
  destruct (list_models E api_key) as [models|e]; [|cbn; eauto].
  cbn. destruct (filter supports_generateContent models); [cbn; eauto|].
  destruct (find _ _); [cbn; eauto|]. destruct (find _ _); cbn; eauto.
Qed.

Lemma handler_run (E : env) (gemini_key target_url ad_script : str) :
  gemini_key <> [] -> target_url <> [] -> ad_script <> [] ->
  startswith (scraped E target_url) (py "ERROR:") = false ->
  run (verify_btn_handler E gemini_key target_url ad_script)
  = match analyze E gemini_key (scraped E target_url) ad_script init with
    | (st, t, r) =>
        (st,
         [StSpinner (py "Scraping website..."); HttpGet target_url;
          StSpinner (py "Analyzing with Gemini 2.5 Flash...")] ++ t,
         r)
    end.
Proof.
  intros Hk Hu Ha Hs.
  unfold run. rewrite (handler_after_inputs E _ _ _ Hk Hu Ha).
  unfold bind at 1 2. unfold emit at 1. rewrite scrape_website_run, Hs.
  unfold bind at 1. unfold emit at 1.
  destruct (analyze E gemini_key (scraped E target_url) ad_script init)
    as [[st t] r].
  reflexivity.
Qed.

Lemma analyze_without_model (E : env) (gemini_key site_text ad_script : str)
  (choice : option str) (debug_info : debug) (st : locals) :
  outcome (get_best_model E gemini_key) = Ok (choice, debug_info) ->
  choice = None \/ choice = Some [] ->
  analyze E gemini_key site_text ad_script st
  = (st,
     [GenaiConfigure gemini_key; ListModels;
      StError (py "Could not find a valid model. Debug info: "
               ++ str_of_debug E debug_info)],
     Ok tt).
Proof.
  intros Hbest Hc.
  unfold analyze, try_except. unfold bind at 1. unfold emit at 1.
  unfold bind at 1. rewrite get_best_model_run, Hbest.
  destruct Hc as [-> | ->]; reflexivity.
Qed.

Lemma analyze_with_model (E : env) (gemini_key site_text ad_script : str)
  (model_name : str) (debug_info : debug) :
  outcome (get_best_model E gemini_key) = Ok (Some model_name, debug_info) ->
  model_name <> [] ->
  let prompt := build_prompt site_text ad_script in
  let started :=
    [GenaiConfigure gemini_key; ListModels;
     StInfo (py "Using model: **" ++ model_name ++ py "**");
     GenerateContent model_name prompt] in
  let failed e :=
    [StError (py "Analysis failed: " ++ e);
     StWrite (VStr (py "Raw response (for debugging):"))] in
  analyze E gemini_key site_text ad_script init
  = match generate_content E gemini_key model_name prompt with
    | Raise e => (init, started ++ failed e, Ok tt)
    | Ok reply =>
        let bound := {| response := Some reply |} in
        match response_text reply with
        | Raise e => (bound, started ++ failed e, Raise e)
        | Ok raw =>
            match json_loads E (clean_response raw) with
            | Raise e => (bound, started ++ failed e ++ [StCode raw], Ok tt)
            | Ok result =>
                match outcome (display E result) with
                | Ok _ => (bound, started ++ trace (display E result), Ok tt)
                | Raise e =>
                    (bound,
                     started ++ trace (display E result)
                     ++ failed e ++ [StCode raw],
                     Ok tt)
                end
            end
        end
    end.
Proof.
  intros Hbest Hname prompt started failed.
  unfold analyze, try_except. unfold bind at 1. unfold emit at 1.
  unfold bind at 1. rewrite get_best_model_run, Hbest.
  destruct model_name as [|c n]; [congruence|].
  fold prompt.
  unfold bind at 1. unfold emit at 1.
  unfold bind at 1. unfold emit at 1.
  unfold bind at 1. unfold lift at 1.
  destruct (generate_content E gemini_key (c :: n) prompt) as [reply|e];
    [|reflexivity].
  unfold bind at 1. unfold assign_response at 1.
  unfold bind at 1. unfold lift at 1.
  destruct (response_text reply) as [raw|e] eqn:Htext.
  2:{ unfold bind, emit, lookup_response, lift. cbv beta iota.
      cbn [response]. rewrite Htext. reflexivity. }
  unfold bind at 1. unfold lift at 1.
  destruct (json_loads E (clean_response raw)) as [result|e].
  2:{ unfold bind, emit, lookup_response, lift. cbv beta iota.
      cbn [response]. rewrite Htext. reflexivity. }
  rewrite (stateless_display E result).
  destruct (outcome (display E result)) as [[]|e].
  - reflexivity.
  - unfold bind, emit, lookup_response, lift. cbv beta iota.
    cbn [response]. rewrite Htext. cbv beta iota.
    unfold started. cbn [app]. reflexivity.
Qed.

Lemma run_with_model (E : env) (gemini_key target_url ad_script : str)
  (model_name : str) (debug_info : debug) :
  gemini_key <> [] -> target_url <> [] -> ad_script <> [] ->
  startswith (scraped E target_url) (py "ERROR:") = false ->
  outcome (get_best_model E gemini_key) = Ok (Some model_name, debug_info) ->
  model_name <> [] ->
  let prompt := build_prompt (scraped E target_url) ad_script in
  let started := request_started gemini_key target_url model_name prompt in
  run (verify_btn_handler E gemini_key target_url ad_script)
  = match generate_content E gemini_key model_name prompt with
    | Raise e => (init, started ++ failure_report e, Ok tt)
    | Ok reply =>
        let bound := {| response := Some reply |} in
        match response_text reply with
        | Raise e => (bound, started ++ failure_report e, Raise e)
        | Ok raw =>
            match json_loads E (clean_response raw) with
            | Raise e =>
                (bound, started ++ failure_report e ++ [StCode raw], Ok tt)
            | Ok result =>
                match outcome (display E result) with
                | Ok _ => (bound, started ++ trace (display E result), Ok tt)
                | Raise e =>
                    (bound,
                     started ++ trace (display E result)
                     ++ failure_report e ++ [StCode raw],
                     Ok tt)
                end
            end
        end
    end.
Proof.
  intros Hk Hu Ha Hs Hbest Hname prompt started.
  rewrite (handler_run E _ _ _ Hk Hu Ha Hs).
  rewrite (analyze_with_model E gemini_key (scraped E target_url) ad_script
             model_name debug_info Hbest Hname).
  cbv zeta. fold prompt.
  destruct (generate_content E gemini_key model_name prompt) as [reply|e];
    [|reflexivity].
  destruct (response_text reply) as [raw|e]; [|reflexivity].
  destruct (json_loads E (clean_response raw)) as [result|e]; [|reflexivity].
  destruct (outcome (display E result)) as [[]|e]; reflexivity.
Qed.

Lemma run_without_model (E : env) (gemini_key target_url ad_script : str)
  (choice : option str) (debug_info : debug) :
  gemini_key <> [] -> target_url <> [] -> ad_script <> [] ->
  startswith (scraped E target_url) (py "ERROR:") = false ->
  outcome (get_best_model E gemini_key) = Ok (choice, debug_info) ->
  choice = None \/ choice = Some [] ->
  run (verify_btn_handler E gemini_key target_url ad_script)
  = (init,
     [StSpinner (py "Scraping website..."); HttpGet target_url;
      StSpinner (py "Analyzing with Gemini 2.5 Flash...");
      GenaiConfigure gemini_key; ListModels;
      StError (py "Could not find a valid model. Debug info: "
               ++ str_of_debug E debug_info)],
     Ok tt).
Proof.
  intros Hk Hu Ha Hs Hbest Hc.
  rewrite (handler_run E _ _ _ Hk Hu Ha Hs).
  now rewrite (analyze_without_model E gemini_key (scraped E target_url)
                 ad_script choice debug_info init Hbest Hc).
Qed.

Lemma none_such_filter_nil {A} (P : A -> bool) (l : list A) :
  none_such P l -> filter P l = [].
Proof.
  induction l as [|x l IH]; intros H; [reflexivity|]. simpl.
  rewrite (H x (or_introl eq_refl)). apply IH.
  intros y Hy. apply H. now right.
Qed.

Lemma run_blank_or_failed_scrape
  (E : env) (gemini_key target_url ad_script : str) :
  gemini_key = [] \/ target_url = [] \/ ad_script = []
  \/ startswith (scraped E target_url) (py "ERROR:") = true ->
  exists shown,
    run (verify_btn_handler E gemini_key target_url ad_script)
    = (init, shown, Ok tt)
    /\ (calls shown = [] \/ calls shown = [HttpGet target_url]).
Proof.
  intros H. unfold run, verify_btn_handler.
  destruct gemini_key as [|k ks]; [eexists; split; [reflexivity|now left]|].
  destruct target_url as [|u us]; [eexists; split; [reflexivity|now left]|].
  destruct ad_script as [|a rest]; [eexists; split; [reflexivity|now left]|].
  destruct H as [H|[H|[H|H]]]; try discriminate.
  cbn [truthy negb]. unfold bind at 1 2. unfold emit at 1.
  rewrite scrape_website_run, H.
  eexists; split; [reflexivity|now right].
Qed.

Lemma display_makes_no_call (E : env) (result : value) :
  calls (trace (display E result)) = [].
Proof.
  assert (H : emits (fun ev => is_external_call ev = false) (display E result)).
  { unfold display, st_metric. emits_steps; reflexivity. }
  specialize (H init). unfold trace, run, calls.
  induction H as [|ev t Hev _ IH]; [reflexivity|]. simpl. now rewrite Hev.
Qed.

(** ** The analysis: how each failure is reported *)

(** X8. When listing the models raises, [get_best_model] turns the
    exception into its debug message and the handler reports
    "Could not find a valid model. Debug info: Error listing models: "
    followed by the exception's text; the outer [except] clause is not
    entered and no generation call is made. *)
Theorem listing_failure_is_reported
  (E : env) (gemini_key target_url ad_script e : str) :
  gemini_key <> [] -> target_url <> [] -> ad_script <> [] ->
  startswith (scraped E target_url) (py "ERROR:") = false ->
  list_models E gemini_key = Raise e ->
  run (verify_btn_handler E gemini_key target_url ad_script)
  = (init,
     [StSpinner (py "Scraping website..."); HttpGet target_url;
      StSpinner (py "Analyzing with Gemini 2.5 Flash...");
      GenaiConfigure gemini_key; ListModels;
      StError (py "Could not find a valid model. Debug info: "
               ++ py "Error listing models: " ++ e)],
     Ok tt).
Proof.
  intros Hk Hu Ha Hs Hl.
  apply (run_without_model E _ _ _ None
           (DebugMsg (py "Error listing models: " ++ e)) Hk Hu Ha Hs);
    [|now left].
  unfold outcome, run, get_best_model, try_except, bind, emit, lift, ret.
  now rewrite Hl.
Qed.

Lemma listing_failure_is_reported_witness :
  run (verify_btn_handler Cases.bad_listing_world Sample.key Sample.shop_url Sample.ad)
  = (init,
     [StSpinner (py "Scraping website..."); HttpGet Sample.shop_url;
      StSpinner (py "Analyzing with Gemini 2.5 Flash...");
      GenaiConfigure Sample.key; ListModels;
      StError (py "Could not find a valid model. Debug info: "
               ++ py "Error listing models: " ++ py "400 API key not valid.")],
     Ok tt).
Proof.
  apply (listing_failure_is_reported Cases.bad_listing_world Sample.key
           Sample.shop_url Sample.ad (py "400 API key not valid."));
    try discriminate; vm_compute; reflexivity.
Defined.

(** X9. When no listed model supports generateContent the handler
    reports "Could not find a valid model. Debug info: No models found
    that support generateContent." and makes no generation call. *)
Theorem missing_generation_support_is_reported
  (E : env) (gemini_key target_url ad_script : str) (catalog : list Model) :
  gemini_key <> [] -> target_url <> [] -> ad_script <> [] ->
  startswith (scraped E target_url) (py "ERROR:") = false ->
  list_models E gemini_key = Ok catalog ->
  none_such supports_generateContent catalog ->
  run (verify_btn_handler E gemini_key target_url ad_script)
  = (init,
     [StSpinner (py "Scraping website..."); HttpGet target_url;
      StSpinner (py "Analyzing with Gemini 2.5 Flash...");
      GenaiConfigure gemini_key; ListModels;
      StError (py "Could not find a valid model. Debug info: "
               ++ py "No models found that support generateContent.")],
     Ok tt).
Proof.
  intros Hk Hu Ha Hs Hl Hnone.
  apply (run_without_model E _ _ _ None
           (DebugMsg (py "No models found that support generateContent."))
           Hk Hu Ha Hs);
    [|now left].
  unfold outcome, run, get_best_model, try_except, bind, emit, lift, ret.
  rewrite Hl. cbv beta iota.
  now rewrite (none_such_filter_nil _ _ Hnone).
Qed.

Lemma missing_generation_support_is_reported_witness :
  run (verify_btn_handler Cases.embedding_only_world Sample.key Sample.shop_url
         Sample.ad)
  = (init,
     [StSpinner (py "Scraping website..."); HttpGet Sample.shop_url;
      StSpinner (py "Analyzing with Gemini 2.5 Flash...");
      GenaiConfigure Sample.key; ListModels;
      StError (py "Could not find a valid model. Debug info: "
               ++ py "No models found that support generateContent.")],
     Ok tt).
Proof.
  apply (missing_generation_support_is_reported Cases.embedding_only_world
           Sample.key Sample.shop_url Sample.ad
           [ {| name := py "models/embedding-001";
                supported_generation_methods := [py "embedContent"] |} ]);
    try discriminate; try (vm_compute; reflexivity).
  intros m [<-|[]]. reflexivity.
Defined.

(** X10. When the generation call raises, the request shows
    "Analysis failed: " with the exception's text and the line
    "Raw response (for debugging):", shows no raw reply (the variable
    [response] was never bound), and ends without an exception. *)
Theorem generation_failure_is_reported
  (E : env) (gemini_key target_url ad_script model_name e : str)
  (debug_info : debug) :
  gemini_key <> [] -> target_url <> [] -> ad_script <> [] ->
  startswith (scraped E target_url) (py "ERROR:") = false ->
  outcome (get_best_model E gemini_key) = Ok (Some model_name, debug_info) ->
  model_name <> [] ->
  generate_content E gemini_key model_name
    (build_prompt (scraped E target_url) ad_script) = Raise e ->
  run (verify_btn_handler E gemini_key target_url ad_script)
  = (init,
     request_started gemini_key target_url model_name
       (build_prompt (scraped E target_url) ad_script)
     ++ failure_report e,
     Ok tt).
Proof.
  intros Hk Hu Ha Hs Hbest Hname Hgen.
  rewrite (run_with_model E _ _ _ model_name debug_info Hk Hu Ha Hs Hbest Hname).
  cbv zeta. now rewrite Hgen.
Qed.

Lemma generation_failure_is_reported_witness :
  run (verify_btn_handler Sample.shop_world Sample.key Sample.shop_url Sample.ad)
  = (init,
     request_started Sample.key Sample.shop_url (py "models/gemini-2.5-Flash")
       (build_prompt (scraped Sample.shop_world Sample.shop_url) Sample.ad)
     ++ failure_report (py "503 The model is overloaded."),
     Ok tt).
Proof.
  apply (generation_failure_is_reported Sample.shop_world Sample.key
           Sample.shop_url Sample.ad (py "models/gemini-2.5-Flash")
           (py "503 The model is overloaded.")
           (DebugNames (map name (filter supports_generateContent Sample.catalog))));
    try discriminate; vm_compute; reflexivity.
Defined.

(** X11. When the reply's text, once normalised, is not valid JSON,
    the request shows "Analysis failed: " with the decoder's message,
    the line "Raw response (for debugging):" and then the reply's text
    as it was received, before any normalisation; it ends without an
    exception. *)
Theorem unparseable_reply_is_shown_raw
  (E : env) (gemini_key target_url ad_script model_name raw e : str)
  (debug_info : debug) (reply : GenerateContentResponse) :
  gemini_key <> [] -> target_url <> [] -> ad_script <> [] ->
  startswith (scraped E target_url) (py "ERROR:") = false ->
  outcome (get_best_model E gemini_key) = Ok (Some model_name, debug_info) ->
  model_name <> [] ->
  generate_content E gemini_key model_name
    (build_prompt (scraped E target_url) ad_script) = Ok reply ->
  response_text reply = Ok raw ->
  json_loads E (clean_response raw) = Raise e ->
  run (verify_btn_handler E gemini_key target_url ad_script)
  = ({| response := Some reply |},
     request_started gemini_key target_url model_name
       (build_prompt (scraped E target_url) ad_script)
     ++ failure_report e ++ [StCode raw],
     Ok tt).
Proof.
  intros Hk Hu Ha Hs Hbest Hname Hgen Htext Hjson.
  rewrite (run_with_model E _ _ _ model_name debug_info Hk Hu Ha Hs Hbest Hname).
  cbv zeta. now rewrite Hgen, Htext, Hjson.
Qed.

Lemma unparseable_reply_is_shown_raw_witness :
  run (verify_btn_handler (Sample.world_replying (py "  I cannot verify this ad. "))
         Sample.key Sample.shop_url Sample.ad)
  = ({| response :=
          Some {| response_text := Ok (py "  I cannot verify this ad. ") |} |},
     request_started Sample.key Sample.shop_url (py "models/gemini-2.5-Flash")
       (build_prompt
          (scraped (Sample.world_replying (py "  I cannot verify this ad. "))
             Sample.shop_url)
          Sample.ad)
     ++ failure_report (py "Expecting value: line 1 column 1 (char 0)")
     ++ [StCode (py "  I cannot verify this ad. ")],
     Ok tt).
Proof.
  apply (unparseable_reply_is_shown_raw
           (Sample.world_replying (py "  I cannot verify this ad. "))
           Sample.key Sample.shop_url Sample.ad (py "models/gemini-2.5-Flash")
           (py "  I cannot verify this ad. ")
           (py "Expecting value: line 1 column 1 (char 0)")
           (DebugNames (map name (filter supports_generateContent Sample.catalog))));
    try discriminate; vm_compute; reflexivity.
Defined.

(** X12. A reply that is valid JSON but not an object (a list, a
    string, a number, true, false or null) displays nothing of a
    result: the first [result.get] raises, and the request shows
    "Analysis failed: '<type>' object has no attribute 'get'" followed
    by the raw reply. *)
Theorem non_object_reply_is_rejected
  (E : env) (gemini_key target_url ad_script model_name raw : str)
  (debug_info : debug) (reply : GenerateContentResponse) (result : value) :
  gemini_key <> [] -> target_url <> [] -> ad_script <> [] ->
  startswith (scraped E target_url) (py "ERROR:") = false ->
  outcome (get_best_model E gemini_key) = Ok (Some model_name, debug_info) ->
  model_name <> [] ->
  generate_content E gemini_key model_name
    (build_prompt (scraped E target_url) ad_script) = Ok reply ->
  response_text reply = Ok raw ->
  json_loads E (clean_response raw) = Ok result ->
  (forall d, result <> VDict d) ->
  run (verify_btn_handler E gemini_key target_url ad_script)
  = ({| response := Some reply |},
     request_started gemini_key target_url model_name
       (build_prompt (scraped E target_url) ad_script)
     ++ failure_report
          (py "'" ++ type_name result ++ py "' object has no attribute 'get'")
     ++ [StCode raw],
     Ok tt).
Proof.
  intros Hk Hu Ha Hs Hbest Hname Hgen Htext Hjson Hnot.
  rewrite (run_with_model E _ _ _ model_name debug_info Hk Hu Ha Hs Hbest Hname).
  cbv zeta. rewrite Hgen, Htext, Hjson.
  assert (Hshow : run (display E result)
                  = (init, [], Raise (no_attribute result (py "get")))).
  { destruct result; try reflexivity. now destruct (Hnot d). }
  unfold outcome, trace. rewrite Hshow. reflexivity.
Qed.

Lemma non_object_reply_is_rejected_witness :
  run (verify_btn_handler (Sample.world_replying (py "[1, 2]"))
         Sample.key Sample.shop_url Sample.ad)
  = ({| response := Some {| response_text := Ok (py "[1, 2]") |} |},
     request_started Sample.key Sample.shop_url (py "models/gemini-2.5-Flash")
       (build_prompt
          (scraped (Sample.world_replying (py "[1, 2]")) Sample.shop_url)
          Sample.ad)
     ++ failure_report
          (py "'" ++ type_name (VList [VInt 1; VInt 2])
           ++ py "' object has no attribute 'get'")
     ++ [StCode (py "[1, 2]")],
     Ok tt).
Proof.
  apply (non_object_reply_is_rejected
           (Sample.world_replying (py "[1, 2]"))
           Sample.key Sample.shop_url Sample.ad (py "models/gemini-2.5-Flash")
           (py "[1, 2]")
           (DebugNames (map name (filter supports_generateContent Sample.catalog))));
    try discriminate; vm_compute; reflexivity.
Defined.

(** X13. When the display itself raises part-way, what it had already
    written stays on the page and is followed by the failure report and
    the raw reply; the request ends without an exception. *)
Theorem display_failure_follows_partial_output
  (E : env) (gemini_key target_url ad_script model_name raw e : str)
  (debug_info : debug) (reply : GenerateContentResponse) (result : value) :
  gemini_key <> [] -> target_url <> [] -> ad_script <> [] ->
  startswith (scraped E target_url) (py "ERROR:") = false ->
  outcome (get_best_model E gemini_key) = Ok (Some model_name, debug_info) ->
  model_name <> [] ->
  generate_content E gemini_key model_name
    (build_prompt (scraped E target_url) ad_script) = Ok reply ->
  response_text reply = Ok raw ->
  json_loads E (clean_response raw) = Ok result ->
  outcome (display E result) = Raise e ->
  run (verify_btn_handler E gemini_key target_url ad_script)
  = ({| response := Some reply |},
     request_started gemini_key target_url model_name
       (build_prompt (scraped E target_url) ad_script)
     ++ trace (display E result)
     ++ failure_report e ++ [StCode raw],
     Ok tt).
Proof.
  intros Hk Hu Ha Hs Hbest Hname Hgen Htext Hjson Hshow.
  rewrite (run_with_model E _ _ _ model_name debug_info Hk Hu Ha Hs Hbest Hname).
  cbv zeta. now rewrite Hgen, Htext, Hjson, Hshow.
Qed.

Lemma display_failure_follows_partial_output_witness :
  run (verify_btn_handler (Sample.world_replying Cases.null_verdict_reply)
         Sample.key Sample.shop_url Sample.ad)
  = ({| response := Some {| response_text := Ok Cases.null_verdict_reply |} |},
     request_started Sample.key Sample.shop_url (py "models/gemini-2.5-Flash")
       (build_prompt
          (scraped (Sample.world_replying Cases.null_verdict_reply) Sample.shop_url)
          Sample.ad)
     ++ trace (display (Sample.world_replying Cases.null_verdict_reply)
                 (VDict [(py "score", VInt 40); (py "verdict", VNone)]))
     ++ failure_report (py "'NoneType' object has no attribute 'upper'")
     ++ [StCode Cases.null_verdict_reply],
     Ok tt).
Proof.
  apply (display_failure_follows_partial_output
           (Sample.world_replying Cases.null_verdict_reply)
           Sample.key Sample.shop_url Sample.ad (py "models/gemini-2.5-Flash")
           Cases.null_verdict_reply
           (py "'NoneType' object has no attribute 'upper'")
           (DebugNames (map name (filter supports_generateContent Sample.catalog))));
    try discriminate; vm_compute; reflexivity.
Defined.

(** X14. When the reply parses and the display completes, the request
    consists of the events up to the generation call followed by
    exactly what the display writes, with no failure report; [response]
    is left bound to the reply. *)
Theorem parsed_reply_is_displayed
  (E : env) (gemini_key target_url ad_script model_name raw : str)
  (debug_info : debug) (reply : GenerateContentResponse) (result : value) :
  gemini_key <> [] -> target_url <> [] -> ad_script <> [] ->
  startswith (scraped E target_url) (py "ERROR:") = false ->
  outcome (get_best_model E gemini_key) = Ok (Some model_name, debug_info) ->
  model_name <> [] ->
  generate_content E gemini_key model_name
    (build_prompt (scraped E target_url) ad_script) = Ok reply ->
  response_text reply = Ok raw ->
  json_loads E (clean_response raw) = Ok result ->
  outcome (display E result) = Ok tt ->
  run (verify_btn_handler E gemini_key target_url ad_script)
  = ({| response := Some reply |},
     request_started gemini_key target_url model_name
       (build_prompt (scraped E target_url) ad_script)
     ++ trace (display E result),
     Ok tt).
Proof.
  intros Hk Hu Ha Hs Hbest Hname Hgen Htext Hjson Hshow.
  rewrite (run_with_model E _ _ _ model_name debug_info Hk Hu Ha Hs Hbest Hname).
  cbv zeta. now rewrite Hgen, Htext, Hjson, Hshow.
Qed.

Lemma parsed_reply_is_displayed_witness :
  run (verify_btn_handler (Sample.world_replying Sample.verdict_text)
         Sample.key Sample.shop_url Sample.ad)
  = ({| response := Some {| response_text := Ok Sample.verdict_text |} |},
     request_started Sample.key Sample.shop_url (py "models/gemini-2.5-Flash")
       (build_prompt
          (scraped (Sample.world_replying Sample.verdict_text) Sample.shop_url)
          Sample.ad)
     ++ trace (display (Sample.world_replying Sample.verdict_text)
                 Sample.verdict_value),
     Ok tt).
Proof.
  apply (parsed_reply_is_displayed
           (Sample.world_replying Sample.verdict_text)
           Sample.key Sample.shop_url Sample.ad (py "models/gemini-2.5-Flash")
           Sample.verdict_text
           (DebugNames (map name (filter supports_generateContent Sample.catalog))));
    try discriminate; vm_compute; reflexivity.
Defined.

(** ** The analysis: what leaves the handler, and which calls are made *)

(** X15. An exception leaves the handler in one case only: the inputs
    were all given, the scrape did not fail, a model was chosen, the
    generation call returned a reply, and reading that reply's text
    raises; the [except] clause then reads the text again and that
    second exception is the one that escapes.  In every other case the
    handler ends normally. *)
Theorem exception_leaves_handler_only_for_unreadable_reply
  (E : env) (gemini_key target_url ad_script e : str) :
  outcome (verify_btn_handler E gemini_key target_url ad_script) = Raise e
  <-> (gemini_key <> [] /\ target_url <> [] /\ ad_script <> []
       /\ startswith (scraped E target_url) (py "ERROR:") = false
       /\ exists model_name debug_info reply,
            outcome (get_best_model E gemini_key)
            = Ok (Some model_name, debug_info)
            /\ model_name <> []
            /\ generate_content E gemini_key model_name
                 (build_prompt (scraped E target_url) ad_script) = Ok reply
            /\ response_text reply = Raise e).
Proof.
  split.
  - intros Hout.
    assert (Hgate : ~ (gemini_key = [] \/ target_url = [] \/ ad_script = []
                       \/ startswith (scraped E target_url) (py "ERROR:") = true)).
    { intros H.
      destruct (run_blank_or_failed_scrape E _ _ _ H) as (shown & Hrun & _).
      unfold outcome in Hout. rewrite Hrun in Hout. discriminate. }
    assert (Hk : gemini_key <> []) by tauto.
    assert (Hu : target_url <> []) by tauto.
    assert (Ha : ad_script <> []) by tauto.
    assert (Hs : startswith (scraped E target_url) (py "ERROR:") = false).
    { destruct (startswith _ _); [tauto|reflexivity]. }
    repeat (split; [assumption|]).
    destruct (get_best_model_returns E gemini_key) as (choice & dbg & Hbest).
    assert (Hchoice : choice = None \/ choice = Some []
                      \/ exists c n, choice = Some (c :: n)).
    { destruct choice as [[|c n]|]; eauto. }
    destruct Hchoice as [Hc|[Hc|(c & n & ->)]].
    + unfold outcome in Hout.
      rewrite (run_without_model E _ _ _ choice dbg Hk Hu Ha Hs Hbest) in Hout
        by tauto.
      discriminate.
    + unfold outcome in Hout.
      rewrite (run_without_model E _ _ _ choice dbg Hk Hu Ha Hs Hbest) in Hout
        by tauto.
      discriminate.
    + exists (c :: n), dbg.
      unfold outcome in Hout.
      rewrite (run_with_model E _ _ _ (c :: n) dbg Hk Hu Ha Hs Hbest) in Hout
        by discriminate.
      cbv zeta in Hout.
      destruct (generate_content E gemini_key (c :: n) _) as [reply|e0];
        [|discriminate].
      exists reply. repeat split; [exact Hbest|discriminate|].
      destruct (response_text reply) as [raw|e1].
      * destruct (json_loads E (clean_response raw)) as [result|e2];
          [|discriminate].
        destruct (outcome (display E result)) as [[]|e3]; discriminate.
      * simpl in Hout. congruence.
  - intros (Hk & Hu & Ha & Hs & name & dbg & reply & Hbest & Hname & Hgen & Htext).
    unfold outcome.
    rewrite (run_with_model E _ _ _ name dbg Hk Hu Ha Hs Hbest Hname).
    cbv zeta. now rewrite Hgen, Htext.
Qed.

(** X16. The calls of a request that leave the process are, in this
    order and each at most once, the fetch of the URL, the configuration
    of the provider with the key, the listing of the models, and one
    generation call for the chosen model with the prompt built from the
    scraped text and the ad script; a request stops after none, one,
    three or all four of them, and nothing is retried. *)
Theorem calls_are_made_once_and_in_order
  (E : env) (gemini_key target_url ad_script : str) :
  let made := calls (trace (verify_btn_handler E gemini_key target_url ad_script)) in
  made = []
  \/ made = [HttpGet target_url]
  \/ made = [HttpGet target_url; GenaiConfigure gemini_key; ListModels]
  \/ exists model_name debug_info,
       outcome (get_best_model E gemini_key) = Ok (Some model_name, debug_info)
       /\ made = [HttpGet target_url; GenaiConfigure gemini_key; ListModels;
                  GenerateContent model_name
                    (build_prompt (scraped E target_url) ad_script)].
Proof.
  intros made. unfold made, trace.
  assert (Hgate : (gemini_key = [] \/ target_url = [] \/ ad_script = []
                   \/ startswith (scraped E target_url) (py "ERROR:") = true)
                  \/ (gemini_key <> [] /\ target_url <> [] /\ ad_script <> []
                      /\ startswith (scraped E target_url) (py "ERROR:") = false)).
  { destruct gemini_key; [tauto|]. destruct target_url; [tauto|].
    destruct ad_script; [tauto|].
    destruct (startswith _ _); [tauto|].
    right. repeat split; discriminate. }
  destruct Hgate as [H|(Hk & Hu & Ha & Hs)].
  { destruct (run_blank_or_failed_scrape E _ _ _ H) as (shown & -> & [Hc|Hc]);
      cbn [fst snd]; tauto. }
  destruct (get_best_model_returns E gemini_key) as (choice & dbg & Hbest).
  assert (Hchoice : choice = None \/ choice = Some []
                    \/ exists c n, choice = Some (c :: n)).
  { destruct choice as [[|c n]|]; eauto. }
  destruct Hchoice as [Hc|[Hc|(c & n & ->)]].
  - rewrite (run_without_model E _ _ _ choice dbg Hk Hu Ha Hs Hbest) by tauto.
    right; right; left. reflexivity.
  - rewrite (run_without_model E _ _ _ choice dbg Hk Hu Ha Hs Hbest) by tauto.
    right; right; left. reflexivity.
  - right; right; right. exists (c :: n), dbg. split; [exact Hbest|].
    rewrite (run_with_model E _ _ _ (c :: n) dbg Hk Hu Ha Hs Hbest)
      by discriminate.
    cbv zeta.
    destruct (generate_content E gemini_key (c :: n) _) as [reply|e0];
      [|reflexivity].
    destruct (response_text reply) as [raw|e1]; [|reflexivity].
    destruct (json_loads E (clean_response raw)) as [result|e2];
      [|reflexivity].
    destruct (outcome (display E result)) as [[]|e3]; cbn [fst snd];
      unfold calls; rewrite !filter_app;
      fold (calls (trace (display E result)));
      rewrite display_makes_no_call; reflexivity.
Qed.

(** ** Reply normalisation *)

Lemma lstrip_app_nonspace (u v : str) (b : char) :
  isspace b = false -> lstrip (u ++ b :: v) = lstrip u ++ b :: v.
Proof.
  intros Hb. induction u as [|c u IH]; simpl.
  - now rewrite Hb.
  - destruct (isspace c); [exact IH|reflexivity].
Qed.

Lemma rstrip_app_nonspace (a tail : str) (b : char) :
  isspace b = false -> rstrip (a ++ b :: tail) = a ++ b :: rstrip tail.
Proof.
  intros Hb. unfold rstrip.
  rewrite rev_app_distr. cbn [rev]. rewrite <- app_assoc. cbn [app].
  rewrite lstrip_app_nonspace by exact Hb.
  rewrite rev_app_distr. cbn [rev]. rewrite rev_involutive.
  now rewrite <- app_assoc.
Qed.

Lemma split_go_nonempty (sep : str) :
  forall s skip cur, split_go sep s skip cur <> [].
Proof.
  induction s as [|c s IH]; intros skip cur; simpl; [discriminate|].
  destruct skip; [|apply IH].
  destruct (startswith (c :: s) sep); [discriminate|apply IH].
Qed.

Lemma split_prefix (sep rest : str) :
  sep <> [] -> split (sep ++ rest) sep = [] :: split rest sep.
Proof.
  intros Hne. unfold split.
  destruct sep as [|c sep']; [congruence|].
  cbn [app split_go].
  change (c :: sep' ++ rest) with ((c :: sep') ++ rest).
  rewrite startswith_app. cbn [rev]. f_equal.
  replace (List.length (c :: sep') - 1) with (List.length sep')
    by (simpl; lia).
  apply split_go_skip.
Qed.

(** The guard [len(parts) >= 2] *)
Lemma split_at_prefix_two_parts (s sep : str) :
  sep <> [] -> startswith s sep = true -> 2 <= List.length (split s sep).
Proof.
  intros Hne Hs. rewrite (startswith_split _ _ Hs).
  rewrite split_prefix by exact Hne. unfold split.
  pose proof (split_go_nonempty sep (skipn (List.length sep) s) 0 []) as H.
  destruct (split_go sep _ 0 []); [congruence|simpl; lia].
Qed.

Lemma contains_startswith_false (sub s : str) :
  contains sub s = false -> startswith s sub = false.
Proof.
  intros H. destruct s; simpl in H; apply orb_false_iff in H; tauto.
Qed.

Lemma contains_skipn_false (sub s : str) (n : nat) :
  contains sub s = false -> contains sub (skipn n s) = false.
Proof.
  intros H. rewrite <- (firstn_skipn n s) in H.
  now apply contains_app_false in H.
Qed.

Lemma clean_response_cases (reply : str) :
  (startswith (strip reply) FENCE = false
   /\ clean_response reply = strip reply)
  \/ (startswith (strip reply) FENCE = true
      /\ exists part,
           In part (split (strip reply) FENCE)
           /\ (clean_response reply = strip part
               \/ clean_response reply = strip (slice_from 4 part))).
Proof.
  unfold clean_response. change (py "```") with FENCE.
  destruct (startswith (strip reply) FENCE) eqn:Hf.
  - right. split; [reflexivity|].
    pose proof (split_at_prefix_two_parts (strip reply) FENCE
                  ltac:(discriminate) Hf) as Hlen.
    destruct (split (strip reply) FENCE) as [|p0 [|p1 ps]];
      [simpl in Hlen; lia|simpl in Hlen; lia|].
    exists p1. split; [right; now left|].
    cbn [List.length Nat.leb nth].
    destruct (startswith p1 (py "json")); auto.
  - left. split; [reflexivity|]. apply strip_idem.
Qed.

(** X17. What lines 151 to 158 hand to [json.loads] is trimmed, never
    starts with a fence, and is left unchanged by a second
    normalisation. *)
Theorem clean_response_is_stable (reply : str) :
  strip (clean_response reply) = clean_response reply
  /\ startswith (clean_response reply) FENCE = false
  /\ clean_response (clean_response reply) = clean_response reply.
Proof.
  assert (Hstable : forall t, strip t = t -> startswith t FENCE = false ->
                              clean_response t = t).
  { intros t Ht Hf. unfold clean_response. change (py "```") with FENCE.
    now rewrite Ht, Hf. }
  assert (Hgoal : strip (clean_response reply) = clean_response reply
                  /\ startswith (clean_response reply) FENCE = false).
  { destruct (clean_response_cases reply)
      as [[Hf ->]|[Hf (part & Hin & Hc)]].
    - split; [apply strip_idem|exact Hf].
    - pose proof (split_pieces_free (strip reply) FENCE ltac:(discriminate))
        as Hfree.
      rewrite Forall_forall in Hfree. specialize (Hfree part Hin).
      destruct Hc as [-> | ->]; (split; [apply strip_idem|]);
        apply contains_startswith_false, contains_strip_false.
      + exact Hfree.
      + now apply contains_skipn_false. }
  destruct Hgoal as [Hs Hf]. repeat split; [exact Hs|exact Hf|].
  now apply Hstable.
Qed.

(** X18. The guard [len(parts) >= 2] never fails: a text that starts
    with a fence is always split into an empty first part and at least
    one more, and the normalised reply is the second part, without a
    leading "json", trimmed. *)
Theorem fence_guard_always_holds (reply : str) :
  startswith (strip reply) (py "```") = true ->
  exists part parts,
    split (strip reply) (py "```") = [] :: part :: parts
    /\ (2 <=? List.length (split (strip reply) (py "```"))) = true
    /\ clean_response reply
       = strip (if startswith part (py "json") then slice_from 4 part else part).
Proof.
  intros Hf. change (py "```") with FENCE in *.
  pose proof (startswith_split _ _ Hf) as Hs.
  pose proof (split_prefix FENCE (skipn (List.length FENCE) (strip reply))
                ltac:(discriminate)) as Hp.
  rewrite <- Hs in Hp.
  pose proof (split_go_nonempty FENCE
                (skipn (List.length FENCE) (strip reply)) 0 []) as Hne.
  unfold split in Hp at 2.
  destruct (split_go FENCE _ 0 []) as [|part parts]; [congruence|].
  exists part, parts. split; [exact Hp|].
  unfold clean_response. change (py "```") with FENCE.
  rewrite Hf, Hp. split; reflexivity.
Qed.

Lemma fence_guard_always_holds_witness :
  exists part parts,
    split (strip (py "```json" ++ NL ++ py "{}")) (py "```")
    = [] :: part :: parts
    /\ (2 <=? List.length
                (split (strip (py "```json" ++ NL ++ py "{}")) (py "```")))
       = true
    /\ clean_response (py "```json" ++ NL ++ py "{}")
       = strip (if startswith part (py "json") then slice_from 4 part else part).
Proof.
  apply (fence_guard_always_holds (py "```json" ++ NL ++ py "{}")).
  reflexivity.
Defined.

Lemma startswith_fence_before_fence (post tail : str) :
  post <> [] ->
  startswith (post ++ FENCE ++ tail) FENCE = startswith (post ++ py "``") FENCE.
Proof.
  intros H. destruct post as [|x [|y [|z post]]]; [congruence| | |];
    reflexivity.
Qed.

(** The parts of a reply that opens with a fence and closes it. *)
Lemma split_fenced_then (body tail : str) :
  contains FENCE (body ++ py "``") = false ->
  split (FENCE ++ body ++ FENCE ++ tail) FENCE = [] :: body :: split tail FENCE.
Proof.
  intros H. rewrite split_prefix by discriminate. f_equal.
  unfold split.
  rewrite (split_go_until FENCE body tail ltac:(discriminate) []).
  - cbn [rev]. now rewrite app_nil_r, rev_involutive.
  - intros pre post -> Hpost.
    rewrite startswith_fence_before_fence by exact Hpost.
    apply (contains_false_suffix FENCE pre). now rewrite <- app_assoc in H.
Qed.

Lemma isspace_not_j (c : char) : isspace c = true -> N.eqb c 106 = false.
Proof.
  intros H. destruct (N.eqb_spec c 106) as [->|]; [discriminate|reflexivity].
Qed.

Lemma contains_fence_label (label s : str) :
  label = [] \/ label = py "json" ->
  contains FENCE (label ++ s) = contains FENCE s.
Proof.
  intros [-> | ->]; [reflexivity|].
  cbn [py map list_ascii_of_string app].
  now rewrite !contains_fence_cons by reflexivity.
Qed.

(** What is left of the body of a fenced block once its label is cut. *)
Lemma unlabel_body (label w1 inner w2 : str) :
  label = [] \/ label = py "json" ->
  forallb isspace w1 = true -> forallb isspace w2 = true ->
  let body := label ++ w1 ++ (123%N :: inner ++ [125%N]) ++ w2 in
  strip (if startswith body (py "json") then slice_from 4 body else body)
  = 123%N :: inner ++ [125%N].
Proof.
  intros Hl H1 H2 body. unfold body.
  destruct Hl as [-> | ->].
  - change ([] ++ w1 ++ (123%N :: inner ++ [125%N]) ++ w2)
      with (w1 ++ (123%N :: inner ++ [125%N]) ++ w2).
    assert (Hj : startswith (w1 ++ (123%N :: inner ++ [125%N]) ++ w2) (py "json")
                 = false).
    { destruct w1 as [|c w1']; [reflexivity|].
      simpl in H1. apply andb_true_iff in H1. destruct H1 as [Hc _].
      cbn [app py map list_ascii_of_string startswith].
      change (N_of_ascii "j") with 106%N. now rewrite (isspace_not_j c Hc). }
    rewrite Hj. now apply strip_around.
  - rewrite startswith_app. unfold slice_from.
    cbn [py map list_ascii_of_string app skipn].
    now apply strip_around.
Qed.

(** X19. A fenced block is unwrapped whether or not it is labelled
    "json", whether or not whitespace precedes it, whether or not its
    fence is closed, and whatever follows the closing fence: for an
    object's text that holds no fence, the normalised reply is that
    text. *)
Theorem fenced_block_is_unwrapped (inner w0 w1 w2 label rest : str) :
  let payload := py "{" ++ inner ++ py "}" in
  contains FENCE payload = false ->
  forallb isspace w0 = true ->
  forallb isspace w1 = true ->
  forallb isspace w2 = true ->
  label = [] \/ label = py "json" ->
  rest = [] \/ (exists tail, rest = FENCE ++ tail) ->
  clean_response (w0 ++ FENCE ++ label ++ w1 ++ payload ++ w2 ++ rest)
  = payload.
Proof.
  intros payload Hfree H0 H1 H2 Hl Hrest. unfold payload in *.
  change (py "{" ++ inner ++ py "}") with (123%N :: inner ++ [125%N]) in *.
  set (p := 123%N :: inner ++ [125%N]) in *.
  assert (Hp : contains FENCE (w1 ++ p) = false).
  { now rewrite (contains_fence_spaces w1) by exact H1. }
  unfold clean_response. change (py "```") with FENCE.
  destruct Hrest as [-> | [tail ->]].
  - (* the fence is never closed *)
    rewrite app_nil_r.
    assert (Hstrip : strip (w0 ++ FENCE ++ label ++ w1 ++ p ++ w2)
                     = FENCE ++ label ++ w1 ++ p).
    { replace (w0 ++ FENCE ++ label ++ w1 ++ p ++ w2)
        with (w0 ++ (BACKQUOTE
                     :: ([BACKQUOTE; BACKQUOTE] ++ label ++ w1 ++ 123%N :: inner)
                     ++ [125%N]) ++ w2).
      - rewrite strip_around by (assumption || reflexivity).
        unfold p, FENCE. cbn [py map list_ascii_of_string app].
        change (N_of_ascii "`") with BACKQUOTE.
        repeat first [rewrite <- app_assoc | progress cbn [app]].
        reflexivity.
      - unfold p, FENCE. cbn [py map list_ascii_of_string app].
        change (N_of_ascii "`") with BACKQUOTE.
        repeat first [rewrite <- app_assoc | progress cbn [app]].
        reflexivity. }
    match goal with
    | |- context [startswith (strip ?r) FENCE] =>
        change r with (w0 ++ FENCE ++ label ++ w1 ++ p ++ w2)
    end.
    rewrite Hstrip, startswith_app.
    rewrite split_prefix by discriminate.
    rewrite split_free
      by (rewrite (contains_fence_label label) by exact Hl; exact Hp).
    cbn [List.length Nat.leb nth].
    pose proof (unlabel_body label w1 inner [] Hl H1 eq_refl) as Hu.
    cbv zeta in Hu. fold p in Hu. rewrite app_nil_r in Hu. exact Hu.
  - (* the fence is closed, and [tail] follows *)
    set (body := label ++ w1 ++ p ++ w2).
    match goal with
    | |- context [startswith (strip ?r) FENCE] =>
        replace r with (w0 ++ FENCE ++ body ++ FENCE ++ tail)
          by (unfold body; now rewrite <- !app_assoc)
    end.
    assert (Hstrip : strip (w0 ++ FENCE ++ body ++ FENCE ++ tail)
                     = FENCE ++ body ++ FENCE ++ rstrip tail).
    { unfold strip. rewrite lstrip_spaces by exact H0.
      change (lstrip (FENCE ++ body ++ FENCE ++ tail))
        with (FENCE ++ body ++ FENCE ++ tail).
      replace (FENCE ++ body ++ FENCE ++ tail)
        with ((FENCE ++ body ++ [BACKQUOTE; BACKQUOTE]) ++ BACKQUOTE :: tail).
      - rewrite rstrip_app_nonspace by reflexivity.
        unfold FENCE. cbn [py map list_ascii_of_string app].
        change (N_of_ascii "`") with BACKQUOTE.
        repeat first [rewrite <- app_assoc | progress cbn [app]].
        reflexivity.
      - unfold FENCE. cbn [py map list_ascii_of_string app].
        change (N_of_ascii "`") with BACKQUOTE.
        repeat first [rewrite <- app_assoc | progress cbn [app]].
        reflexivity. }
    rewrite Hstrip, startswith_app.
    rewrite split_fenced_then.
    + cbn [List.length Nat.leb nth].
      exact (unlabel_body label w1 inner w2 Hl H1 H2).
    + unfold body. rewrite <- !app_assoc.
      rewrite (contains_fence_label label) by exact Hl.
      rewrite (contains_fence_spaces w1) by exact H1.
      unfold p. cbn [app].
      rewrite contains_fence_cons by reflexivity.
      rewrite <- app_assoc. cbn [app].
      rewrite (contains_fence_break inner) by reflexivity.
      rewrite (contains_fence_spaces w2) by exact H2.
      unfold p in Hfree. rewrite contains_fence_cons in Hfree by reflexivity.
      apply orb_false_iff. split; [exact Hfree|reflexivity].
Qed.

Lemma fenced_block_is_unwrapped_witness :
  clean_response
    (NL ++ FENCE ++ [] ++ NL
     ++ (py "{" ++ (DQ ++ py "score" ++ DQ ++ py ": 90") ++ py "}")
     ++ NL ++ FENCE ++ py " Let me know if you need more.")
  = py "{" ++ (DQ ++ py "score" ++ DQ ++ py ": 90") ++ py "}".
Proof.
  apply (fenced_block_is_unwrapped (DQ ++ py "score" ++ DQ ++ py ": 90")
           NL NL NL [] (FENCE ++ py " Let me know if you need more."));
    try reflexivity.
  - now left.
  - right. now exists (py " Let me know if you need more.").
Defined.

(** ** The display of a well-typed reply *)

(** X20. For a reply object whose score is an integer, whose verdict
    and hallucinations are a string and a list (each read with its
    default when omitted), the display writes the score as given, then
    the verdict in upper case, as a success exactly when that is "PASS"
    and as an error otherwise, then the tone, then either the header
    and one line "- h" per hallucination in the order of the list or,
    when the list is empty, the no-hallucination note if the verdict is
    "PASS" and nothing otherwise.  The verdict is not checked against
    the score or the list. *)
Theorem display_of_typed_reply
  (E : env) (d : list (str * value)) (z : Z) (v : str) (tone : value)
  (hs : list value) :
  py_get (VDict d) (py "score") (VInt 0) = Ok (VInt z) ->
  py_get (VDict d) (py "verdict") (VStr (py "FAIL")) = Ok (VStr v) ->
  py_get (VDict d) (py "tone_consistency") (VStr (py "N/A")) = Ok tone ->
  py_get (VDict d) (py "hallucinations") (VList []) = Ok (VList hs) ->
  let passed := str_eqb (upper E v) (py "PASS") in
  run (display E (VDict d))
  = (init,
     [StMetric (py "Quality Score") (VInt z);
      if passed
      then StSuccess (py "Verdict: " ++ upper E v)
      else StError (py "Verdict: " ++ upper E v);
      StMarkdown (py "### Tone Analysis");
      StWrite tone]
     ++ match hs with
        | [] =>
            if passed
            then [StSuccess (py "No factual hallucinations detected.")]
            else []
        | _ :: _ =>
            StError HALLUCINATIONS_HEADER
            :: map (fun h => StWrite (VStr (py "- " ++ py_str E h))) hs
        end,
     Ok tt).
Proof.
  intros Gs Gv Gt Gh passed.
  unfold run, display. rewrite Gs, Gv, Gt, Gh.
  unfold st_metric, bind, lift, emit, py_upper. cbv beta iota.
  fold passed.
  destruct passed; cbv beta iota;
    destruct hs as [|h0 hs]; cbn [value_truthy py_iter]; cbv beta iota;
    try reflexivity;
    rewrite (for_each_logged
               (fun h => StWrite (VStr (py "- " ++ py_str E h))));
    reflexivity.
Qed.

Lemma display_of_typed_reply_witness :
  run (display Sample.shop_world
         (VDict [ (py "score", VInt 120);
                  (py "verdict", VStr (py "pass"));
                  (py "hallucinations",
                   VList [VStr (py "free shipping"); VInt 7]) ]))
  = (init,
     [StMetric (py "Quality Score") (VInt 120);
      if str_eqb (upper Sample.shop_world (py "pass")) (py "PASS")
      then StSuccess (py "Verdict: " ++ upper Sample.shop_world (py "pass"))
      else StError (py "Verdict: " ++ upper Sample.shop_world (py "pass"));
      StMarkdown (py "### Tone Analysis");
      StWrite (VStr (py "N/A"))]
     ++ StError HALLUCINATIONS_HEADER
        :: map (fun h => StWrite (VStr (py "- " ++ py_str Sample.shop_world h)))
             [VStr (py "free shipping"); VInt 7],
     Ok tt).
Proof.
  apply (display_of_typed_reply Sample.shop_world
           [ (py "score", VInt 120);
             (py "verdict", VStr (py "pass"));
             (py "hallucinations",
              VList [VStr (py "free shipping"); VInt 7]) ]
           120 (py "pass") (VStr (py "N/A"))
           [VStr (py "free shipping"); VInt 7]);
    reflexivity.
Defined.
